(** * The metadata ceremony of kaprien's admin CLI

    A shallow embedding of [src/kaprien/cli/admin/ceremony.py] and the
    properties of its role configuration, key collection, duplicate
    detection, payload assembly and bootstrap calls.

    Python integers are [Z], strings are [string], the dictionary
    [role.keys] is a [gmap string KeyRecord], the module-level [SETTINGS]
    object lives in the [World] that every operation threads, next to the
    answers the operator will give and the log of what the program showed or
    sent.  Click exceptions are results, not crashes. *)

From Stdlib Require Import ZArith Ascii.
From stdpp Require Import base numbers option list strings pretty gmap.

Local Open Scope Z_scope.
Set Warnings "-register-all".

(** ** Python string helpers *)

Module Py.

(** [bool(s)] of a string: the empty string is falsy. *)
Definition truthy (s : string) : bool :=
  match s with EmptyString => false | String _ _ => true end.

(** [s.endswith(suffix)]. *)
Fixpoint endswith (s suffix : string) : bool :=
  String.eqb s suffix ||
  match s with
  | EmptyString => false
  | String _ s' => endswith s' suffix
  end.

(** [s.split(sep)] for a one-character separator. *)
Fixpoint split (sep : ascii) (s : string) : list string :=
  match s with
  | EmptyString => [EmptyString]
  | String c s' =>
      if Ascii.eqb c sep then EmptyString :: split sep s'
      else match split sep s' with
           | [] => [String c EmptyString]
           | x :: xs => String c x :: xs
           end
  end.

(** [c.isspace()], a character being a code point below 256: the blank,
    tab to carriage return, the four separators from 28 to 31, the next
    line character and the no-break space. *)
Definition isspace (c : ascii) : bool :=
  let n := N_of_ascii c in
  ((9 <=? n) && (n <=? 13) || (28 <=? n) && (n <=? 32) ||
   (n =? 133) || (n =? 160))%N.

Fixpoint lstrip (s : string) : string :=
  match s with
  | EmptyString => EmptyString
  | String c s' => if isspace c then lstrip s' else s
  end.

(** [s.strip()]: white space removed at both ends. *)
Definition strip (s : string) : string :=
  String.rev (lstrip (String.rev (lstrip s))).

(** [l[-1]] of a list that [split] returned (never empty). *)
Definition last_item (l : list string) : string := List.last l EmptyString.

End Py.

(** ** The roles and their defaults *)

Inductive Roles := ROOT | TARGETS | SNAPSHOT | TIMESTAMP | BIN | BINS.

#[global] Instance Roles_eq_dec : EqDecision Roles.
Proof. solve_decision. Defined.

(** [role.value] *)
Definition value (r : Roles) : string :=
  match r with
  | ROOT => "root" | TARGETS => "targets" | SNAPSHOT => "snapshot"
  | TIMESTAMP => "timestamp" | BIN => "bin" | BINS => "bins"
  end.

(** The order in which [for role in Roles] and
    [SETTINGS.roles.items()] enumerate. *)
Definition all_roles : list Roles := [ROOT; TARGETS; SNAPSHOT; TIMESTAMP; BIN; BINS].

(** The dataclass [RoleSettings]; its field [keys] is a number. *)
Record RoleSettings := mkRoleSettings {
  rs_expiration : Z;
  rs_threshold : Z;
  rs_keys : Z;
  rs_offline_keys : bool
}.

(** The table is keyed by [role.value]; here by the role itself. *)
Definition default_settings (r : Roles) : RoleSettings :=
  match r with
  | ROOT => mkRoleSettings 356 1 2 true
  | TARGETS => mkRoleSettings 365 1 2 true
  | SNAPSHOT => mkRoleSettings 1 1 1 false
  | TIMESTAMP => mkRoleSettings 1 1 1 false
  | BIN => mkRoleSettings 365 1 1 true
  | BINS => mkRoleSettings 1 1 1 false
  end.

Module Methods.
Inductive t := get | post.
End Methods.

(** ** What the operator sees and answers *)

(** The questions of the ceremony, one constructor per call of
    [IntPrompt.ask], [Prompt.ask], [Confirm.ask] or [click.prompt]. *)
Inductive Question :=
  | AskExpiration (r : Roles)
  | AskNumberOfKeys (r : Roles)
  | AskThreshold (r : Roles)
  | AskShowExample
  | AskBaseUrl
  | AskPaths (r : Roles)
  | AskHashedBins (r : Roles)
  | AskKeyPath (r : Roles) (key_count num_of_keys : Z)
  | AskKeyPassword (r : Roles) (key_count num_of_keys : Z)
  | AskTryAgain
  | AskStartCeremony
  | AskReadyToLoadKeys
  | AskConfigurationCorrect (r : Roles).

#[global] Instance Question_eq_dec : EqDecision Question.
Proof. solve_decision. Defined.

(** What [console.print] shows. *)
Inductive Message :=
  | MsgIntro | MsgStep1 | MsgStep2 | MsgStep3
  | MsgThresholdIsOne (r : Roles)
  | MsgPathsDelegation
  | MsgPathsExample
  | MsgKeyError (error : string)
  | MsgKeyDuplicated
  | MsgKeyVerified (r : Roles) (key_count num_of_keys : Z)
  | MsgRoleTable (r : Roles) (number_of_keys : nat) (threshold : Z)
                 (offline : bool) (expiration : Z) (filenames : list string)
  | MsgBootstrapDone.

(** An answer as the prompt functions hand it to the program: Enter alone
    takes the default of the question. *)
Inductive Answer :=
  | Enter
  | AnInt (z : Z)
  | AString (s : string)
  | YesNo (b : bool).

(** ** Data *)

Section Ceremony.

(** The key object that securesystemslib returns.  The ceremony compares
    two of them with [==] and otherwise only stores them. *)
Context {KeyMaterial : Type} `{EqDecision KeyMaterial}.

(** The dataclass [Key]: the result of [_load_key]. *)
Record Key := mkKey {
  key_key : option KeyMaterial;
  key_error : option string
}.

(** The dictionary literal that [_configure_keys] stores in [role.keys]:
    [{"filename": ..., "password": ..., "key": key.key}]. *)
Record KeyRecord := mkKeyRecord {
  filename : string;
  password : string;
  key : option KeyMaterial
}.

(** A value found in a key record. *)
Inductive FieldValue :=
  | FNone
  | FStr (s : string)
  | FKey (k : KeyMaterial).

#[global] Instance FieldValue_eq_dec : EqDecision FieldValue.
Proof. solve_decision. Defined.

(** [k.get(field)]: [None] for a field the record does not have. *)
Definition KeyRecord_get (k : KeyRecord) (field : string) : FieldValue :=
  if String.eqb field "filename" then FStr (filename k)
  else if String.eqb field "password" then FStr (password k)
  else if String.eqb field "key" then
    match key k with Some m => FKey m | None => FNone end
  else FNone.

(** Modelled from the spec: [RolesKeysInput] is defined in
    [kaprien.helpers.tuf], which is not among the sources.  Its fields are
    the ones the ceremony reads and writes and the ones the payload format
    lists; a fresh instance has no keys. *)
Record RolesKeysInput := mkRolesKeysInput {
  expiration : Z;
  num_of_keys : Z;
  threshold : Z;
  keys : gmap string KeyRecord;
  offline_keys : bool;
  paths : option (list string);
  number_hash_prefixes : option Z
}.

Definition RolesKeysInput_new : RolesKeysInput :=
  mkRolesKeysInput 1 1 1 ∅ true None None.

Record ServiceSettings := mkServiceSettings {
  targets_base_url : string
}.

Record PayloadSettings := mkPayloadSettings {
  roles : Roles → RolesKeysInput;
  service : ServiceSettings
}.

(** [SETTINGS], as the module creates it. *)
Definition SETTINGS_initial : PayloadSettings :=
  mkPayloadSettings (λ _, RolesKeysInput_new) (mkServiceSettings "").

(** ** JSON values: what [to_dict] returns and what is posted *)

Inductive pyval :=
  | PNone
  | PBool (b : bool)
  | PInt (z : Z)
  | PStr (s : string)
  | PList (l : list pyval)
  | PDict (d : list (string * pyval))
  | PKey (k : KeyMaterial).

Fixpoint dict_get (name : string) (d : list (string * pyval)) : option pyval :=
  match d with
  | [] => None
  | (n, v) :: d' => if String.eqb name n then Some v else dict_get name d'
  end.

(** [d[name] = v]: an existing entry keeps its place. *)
Fixpoint dict_set (name : string) (v : pyval) (d : list (string * pyval))
  : list (string * pyval) :=
  match d with
  | [] => [(name, v)]
  | (n, x) :: d' =>
      if String.eqb name n then (n, v) :: d' else (n, x) :: dict_set name v d'
  end.

(** [v[name]] when [v] is a dictionary. *)
Definition item (name : string) (v : pyval) : option pyval :=
  match v with PDict d => dict_get name d | _ => None end.

(** Does a value hold a key object or a field called ["password"]? *)
Fixpoint holds_secret (v : pyval) : bool :=
  match v with
  | PKey _ => true
  | PList l => existsb holds_secret l
  | PDict d =>
      existsb (λ e, String.eqb (fst e) "password" || holds_secret (snd e)) d
  | _ => false
  end.

Definition KeyRecord_to_dict (k : KeyRecord) : pyval :=
  PDict [("filename", PStr (filename k));
         ("password", PStr (password k));
         ("key", match key k with Some m => PKey m | None => PNone end)].

(** The entries come as the map enumerates them; a JSON object does not
    tell their order. *)
Definition keys_to_dict (ks : gmap string KeyRecord) : pyval :=
  PDict (prod_map id KeyRecord_to_dict <$> map_to_list ks).

Definition option_to_py {A} (f : A → pyval) (o : option A) : pyval :=
  match o with Some a => f a | None => PNone end.

(** Modelled from the spec: [RolesKeysInput.to_dict] (missing with its
    class) serialises the role settings field by field, the key records
    included, as the payload format of the bootstrap submission shows. *)
Definition RolesKeysInput_to_dict (r : RolesKeysInput) : pyval :=
  PDict [("expiration", PInt (expiration r));
         ("num_of_keys", PInt (num_of_keys r));
         ("threshold", PInt (threshold r));
         ("keys", keys_to_dict (keys r));
         ("offline_keys", PBool (offline_keys r));
         ("paths", option_to_py (λ l, PList (PStr <$> l)) (paths r));
         ("number_hash_prefixes", option_to_py PInt (number_hash_prefixes r))].

(** [ServiceSettings.to_dict], [asdict] of a one-field dataclass. *)
Definition ServiceSettings_to_dict (s : ServiceSettings) : pyval :=
  PDict [("targets_base_url", PStr (targets_base_url s))].

(** ** The world outside the program *)

(** What [import_ed25519_privatekey_from_file] does with a path and a
    password: it returns the key, or raises [CryptoError], or raises one
    of [StorageError], [FormatError], [Error], the string being
    [str(err)]; or it raises an exception of none of these classes
    ([UnicodeDecodeError] on a file that is not text, say), given by the
    name of its class. *)
Inductive ImportResult :=
  | Imported (k : KeyMaterial)
  | RaisesCryptoError (err : string)
  | RaisesError (err : string)
  | RaisesOther (name : string).

(** A member of the JSON object that the status response carries.  The
    ceremony compares it with [True] and renders it with [str]; of a value
    that is no null, boolean, integer or string (a fraction, an array, an
    object) that rendering is all it can see. *)
Inductive JsonValue :=
  | JNull
  | JBool (b : bool)
  | JNumber (z : Z)
  | JString (s : string)
  | JOther (str : string).

#[global] Instance JsonValue_eq_dec : EqDecision JsonValue.
Proof. solve_decision. Defined.

(** What [response.json()] returns: an object, or a value without
    [.get], such as an array, a string, a number or null. *)
Inductive JsonBody :=
  | JObject (members : gmap string JsonValue)
  | JNotObject.

(** The parts of a [requests.Response] the ceremony reads;
    [response_json] is [None] when [response.json()] would raise. *)
Record Response := mkResponse {
  status_code : Z;
  text : string;
  response_json : option JsonBody
}.

(** The file system, the metadata initializer of [kaprien.helpers.tuf]
    (its result already serialised, role name by role name) and the
    server; no reply stands for [requests.exceptions.ConnectionError]. *)
Variable import_ed25519_privatekey_from_file : string → string → ImportResult.
Variable initialize_metadata : (Roles → RolesKeysInput) → list (string * pyval).
Variable server_reply : Methods.t → string → option pyval → option Response.

Inductive Event :=
  | Shown (m : Message)
  | Asked (q : Question)
  | Requested (method : Methods.t) (url : string) (payload : option pyval).

Record World := mkWorld {
  SETTINGS : PayloadSettings;
  answers : list Answer;
  log : list Event
}.

(** The exceptions: those that ceremony.py raises or provokes itself, and
    [Unhandled], an exception that the key import raised and [_load_key]
    does not catch, under the name of its class. *)
Inductive Exception :=
  | ClickException (message : string)
  | ConnectionError
  | JSONDecodeError
  | AttributeError
  | TypeError
  | Unhandled (name : string).

(** How a run ends: the function returns, an exception leaves it, the
    program sits at a question the operator's answers do not reach, or the
    recursion bound of a loop is used up. *)
Inductive Result (A : Type) :=
  | Returned (a : A) (w : World)
  | Raised (e : Exception) (w : World)
  | AwaitingInput (w : World)
  | OutOfFuel (w : World).
Arguments Returned {A}.
Arguments Raised {A}.
Arguments AwaitingInput {A}.
Arguments OutOfFuel {A}.

Definition returned {A} (x : Result A) : bool :=
  match x with Returned _ _ => true | _ => false end.

Definition world_of {A} (x : Result A) : World :=
  match x with
  | Returned _ w | Raised _ w | AwaitingInput w | OutOfFuel w => w
  end.

Definition M (A : Type) : Type := World → Result A.

#[global] Instance M_ret : MRet M := λ A a w, Returned a w.
#[global] Instance M_bind : MBind M := λ A B f m w,
  match m w with
  | Returned a w' => f a w'
  | Raised e w' => Raised e w'
  | AwaitingInput w' => AwaitingInput w'
  | OutOfFuel w' => OutOfFuel w'
  end.

Definition raise {A} (e : Exception) : M A := λ w, Raised e w.

(** [try: m  except requests.exceptions.ConnectionError: handler] *)
Definition except_ConnectionError {A} (m handler : M A) : M A := λ w,
  match m w with
  | Raised ConnectionError w' => handler w'
  | other => other
  end.

(** [pass] *)
Definition pass : M unit := mret tt.

Definition emit (e : Event) : M unit := λ w,
  Returned tt (mkWorld (SETTINGS w) (answers w) (log w ++ [e])).

(** [console.print] *)
Definition console_print (m : Message) : M unit := emit (Shown m).

(** Show a question and take the operator's next answer. *)
Definition ask (q : Question) : M Answer := λ w,
  let w' := mkWorld (SETTINGS w) (answers w) (log w ++ [Asked q]) in
  match answers w with
  | [] => AwaitingInput w'
  | a :: rest => Returned a (mkWorld (SETTINGS w) rest (log w'))
  end.

Definition refused {A} : M A := λ w, AwaitingInput w.

(** [prompt.IntPrompt.ask(..., default=d)] *)
Definition IntPrompt_ask (q : Question) (d : Z) : M Z :=
  a ← ask q;
  match a with
  | Enter => mret d
  | AnInt z => mret z
  | _ => refused
  end.

(** [prompt.Prompt.ask(...)] without a default: Enter gives [""]. *)
Definition Prompt_ask (q : Question) : M string :=
  a ← ask q;
  match a with
  | Enter => mret ""
  | AString s => mret s
  | _ => refused
  end.

(** [prompt.Prompt.ask(..., default=d)] *)
Definition Prompt_ask_default (q : Question) (d : string) : M string :=
  a ← ask q;
  match a with
  | Enter => mret d
  | AString s => mret s
  | _ => refused
  end.

(** [click.prompt(...)] without a default insists on a non-empty text. *)
Definition click_prompt (q : Question) : M string :=
  a ← ask q;
  match a with
  | AString s => if Py.truthy s then mret s else refused
  | _ => refused
  end.

(** [prompt.Confirm.ask(...)] without a default. *)
Definition Confirm_ask (q : Question) : M bool :=
  a ← ask q;
  match a with
  | YesNo b => mret b
  | _ => refused
  end.

(** [prompt.Confirm.ask(..., default="y")], read for its truth value:
    Enter returns the string ["y"], which is truthy. *)
Definition Confirm_ask_default_y (q : Question) : M bool :=
  a ← ask q;
  match a with
  | Enter => mret (Py.truthy "y")
  | YesNo b => mret b
  | _ => refused
  end.

(** Reading and writing [SETTINGS]. *)
Definition the_settings : M PayloadSettings := λ w, Returned (SETTINGS w) w.

Definition the_role (r : Roles) : M RolesKeysInput := λ w,
  Returned (roles (SETTINGS w) r) w.

(** [SETTINGS] after an assignment to fields of [SETTINGS.roles[r]]. *)
Definition with_role (r : Roles) (f : RolesKeysInput → RolesKeysInput)
    (settings : PayloadSettings) : PayloadSettings :=
  mkPayloadSettings
    (λ r', if decide (r' = r) then f (roles settings r') else roles settings r')
    (service settings).

Definition update_role (r : Roles) (f : RolesKeysInput → RolesKeysInput)
  : M unit := λ w,
  Returned tt (mkWorld (with_role r f (SETTINGS w)) (answers w) (log w)).

Definition set_targets_base_url (url : string) : M unit := λ w,
  Returned tt
    (mkWorld (mkPayloadSettings (roles (SETTINGS w)) (mkServiceSettings url))
       (answers w) (log w)).

Definition set_expiration (v : Z) (x : RolesKeysInput) :=
  mkRolesKeysInput v (num_of_keys x) (threshold x) (keys x) (offline_keys x)
    (paths x) (number_hash_prefixes x).
Definition set_num_of_keys (v : Z) (x : RolesKeysInput) :=
  mkRolesKeysInput (expiration x) v (threshold x) (keys x) (offline_keys x)
    (paths x) (number_hash_prefixes x).
Definition set_threshold (v : Z) (x : RolesKeysInput) :=
  mkRolesKeysInput (expiration x) (num_of_keys x) v (keys x) (offline_keys x)
    (paths x) (number_hash_prefixes x).
Definition set_keys (v : gmap string KeyRecord) (x : RolesKeysInput) :=
  mkRolesKeysInput (expiration x) (num_of_keys x) (threshold x) v
    (offline_keys x) (paths x) (number_hash_prefixes x).
Definition set_offline_keys (v : bool) (x : RolesKeysInput) :=
  mkRolesKeysInput (expiration x) (num_of_keys x) (threshold x) (keys x) v
    (paths x) (number_hash_prefixes x).
Definition set_paths (v : list string) (x : RolesKeysInput) :=
  mkRolesKeysInput (expiration x) (num_of_keys x) (threshold x) (keys x)
    (offline_keys x) (Some v) (number_hash_prefixes x).
Definition set_number_hash_prefixes (v : Z) (x : RolesKeysInput) :=
  mkRolesKeysInput (expiration x) (num_of_keys x) (threshold x) (keys x)
    (offline_keys x) (paths x) (Some v).

(** Was the question put, among these events? *)
Definition was_asked (q : Question) (events : list Event) : bool :=
  existsb (λ e, match e with Asked q' => bool_decide (q' = q) | _ => false end)
    events.

(** Was anything sent to the server? *)
Definition was_requested (events : list Event) : bool :=
  existsb (λ e, match e with Requested _ _ _ => true | _ => false end) events.

(** [for x in l: body(x)] *)
Fixpoint for_each {A} (l : list A) (body : A → M unit) : M unit :=
  match l with
  | [] => pass
  | x :: l' => body x;; for_each l' body
  end.

(** ** The functions of ceremony.py *)

(** [any(k for k in ks.values() if p(k))]: a key record is a dictionary
    of three entries, hence truthy, so [any] asks whether [p] holds of
    some record. *)
Definition any_key (ks : gmap string KeyRecord) (p : KeyRecord → bool) : bool :=
  existsb p (snd <$> map_to_list ks).

(** The loop of [_key_is_duplicated] over [SETTINGS.roles.values()]. *)
Fixpoint _key_is_duplicated_in (rs : list RolesKeysInput) (k : KeyMaterial)
  : bool :=
  match rs with
  | [] => false
  | role :: rs' =>
      if any_key (keys role)
           (λ x, bool_decide (FKey k = KeyRecord_get x "key")) then true
      else if any_key (keys role)
           (λ x, bool_decide (FKey k = KeyRecord_get x "path")) then false
      else _key_is_duplicated_in rs' k
  end.

Definition _key_is_duplicated (settings : PayloadSettings) (k : KeyMaterial)
  : bool :=
  _key_is_duplicated_in (roles settings <$> all_roles) k.

(** [_load_key]: the two [except] clauses catch [CryptoError] and
    [StorageError], [FormatError], [Error]; any other exception goes on to
    the caller. *)
Definition _load_key (filepath password : string) : M Key :=
  match import_ed25519_privatekey_from_file filepath password with
  | Imported k => mret (mkKey (Some k) None)
  | RaisesCryptoError err =>
      mret (mkKey None
              (Some (":cross_mark: [red]Failed[/]: " +:+ err +:+ " Check the" +:+
                     " password.")))
  | RaisesError err =>
      mret (mkKey None (Some (":cross_mark: [red]Failed[/]: " +:+ err)))
  | RaisesOther name => raise (Unhandled name)
  end.

(** Lines 205-243 of [_configure_role], with the table of defaults as an
    argument: the reset, the expiration, the number of keys and the
    threshold. *)
Definition configure_role_basics (defaults : Roles → RoleSettings)
    (r : Roles) : M unit :=
  update_role r (set_keys ∅);;
  update_role r (set_threshold (rs_threshold (defaults r)));;
  update_role r (set_offline_keys (rs_offline_keys (defaults r)));;
  e ← IntPrompt_ask (AskExpiration r) (rs_expiration (defaults r));
  update_role r (set_expiration e);;
  n ← IntPrompt_ask (AskNumberOfKeys r) (rs_keys (defaults r));
  update_role r (set_num_of_keys n);;
  role ← the_role r;
  if bool_decide (num_of_keys role > 1) then
    t ← IntPrompt_ask (AskThreshold r) (rs_threshold (defaults r));
    update_role r (set_threshold t)
  else
    update_role r (set_threshold 1);;
    console_print (MsgThresholdIsOne r).

(** Lines 245-272 of [_configure_role]: what targets and bins add. *)
Definition configure_role_extras (r : Roles) : M unit :=
  if bool_decide (r = TARGETS) then
    console_print MsgPathsDelegation;;
    show_example ← Confirm_ask_default_y AskShowExample;
    (if show_example : bool then console_print MsgPathsExample else pass);;
    targets_base_url ← click_prompt AskBaseUrl;
    let targets_base_url :=
      if negb (Py.endswith targets_base_url "/")
      then targets_base_url +:+ "/" else targets_base_url in
    set_targets_base_url targets_base_url;;
    input_paths ← Prompt_ask_default (AskPaths r) "*, */*";
    update_role r (set_paths (Py.strip <$> Py.split "," input_paths))
  else if bool_decide (r = BINS) then
    n ← IntPrompt_ask (AskHashedBins r) 64;
    update_role r (set_number_hash_prefixes n)
  else pass.

Definition _configure_role_from (defaults : Roles → RoleSettings)
    (r : Roles) : M unit :=
  configure_role_basics defaults r;;
  configure_role_extras r.

Definition _configure_role : Roles → M unit :=
  _configure_role_from default_settings.

(** The slot name [f"{rolename}_{key_count}"]. *)
Definition key_slot (r : Roles) (key_count : Z) : string :=
  value r +:+ "_" +:+ pretty key_count.

(** [if key.error:] *)
Definition error_of (k : Key) : option string :=
  match key_error k with
  | Some e => if Py.truthy e then Some e else None
  | None => None
  end.

(** The [while] loop of [_configure_keys]; every turn that goes round
    again has taken answers, so the number of answers left bounds it. *)
Fixpoint _configure_keys_loop (fuel : nat) (r : Roles) (key_count : Z)
  : M unit :=
  match fuel with
  | O => λ w, OutOfFuel w
  | S fuel' =>
      role ← the_role r;
      if bool_decide (Z.of_nat (size (keys role)) < num_of_keys role) then
        filepath ← Prompt_ask (AskKeyPath r key_count (num_of_keys role));
        password ← click_prompt (AskKeyPassword r key_count (num_of_keys role));
        k ← _load_key filepath password;
        match error_of k with
        | Some e =>
            console_print (MsgKeyError e);;
            try_again ← Confirm_ask_default_y AskTryAgain;
            if try_again : bool then _configure_keys_loop fuel' r key_count
            else raise (ClickException "Required key not validated.")
        | None =>
            settings ← the_settings;
            if match key_key k with
               | Some m => _key_is_duplicated settings m
               | None => false
               end
            then
              console_print MsgKeyDuplicated;;
              _configure_keys_loop fuel' r key_count
            else
              update_role r (λ x,
                set_keys
                  (<[key_slot r key_count :=
                       mkKeyRecord (Py.last_item (Py.split "/" filepath))
                         password (key_key k)]> (keys x)) x);;
              console_print (MsgKeyVerified r key_count (num_of_keys role));;
              _configure_keys_loop fuel' r (key_count + 1)
        end
      else pass
  end.

Definition _configure_keys (r : Roles) : M unit := λ w,
  _configure_keys_loop (S (length (answers w))) r 1 w.

Definition _request_server (server url : string) (method : Methods.t)
    (payload : option pyval) : M Response :=
  emit (Requested method (server +:+ "/" +:+ url) payload);;
  match server_reply method (server +:+ "/" +:+ url) payload with
  | Some response => mret response
  | None => raise ConnectionError
  end.

(** [if server:] for the value of the option [--bootstrap]. *)
Definition supplied (server : option string) : option string :=
  match server with
  | Some s => if Py.truthy s then Some s else None
  | None => None
  end.

(** [f"{x}"] of what [json_response.get(...)] returns. *)
Definition py_str (x : option JsonValue) : string :=
  match x with
  | None | Some JNull => "None"
  | Some (JBool true) => "True"
  | Some (JBool false) => "False"
  | Some (JNumber z) => pretty z
  | Some (JString s) => s
  | Some (JOther str) => str
  end.

(** Lines 348-363 of [ceremony]: the status check. *)
Definition ceremony_precheck (server : option string) : M unit :=
  match supplied server with
  | Some server =>
      response ← except_ConnectionError
        (_request_server server "api/v1/bootstrap/" Methods.get None)
        (raise (ClickException ("Failed to connect to " +:+ server)));
      if bool_decide (status_code response ≠ 200) then
        raise (ClickException
                 ("Error: " +:+ pretty (status_code response) +:+ " | " +:+
                  text response))
      else
        match response_json response with
        | None => raise JSONDecodeError
        | Some JNotObject => raise AttributeError
        | Some (JObject json_response) =>
            if bool_decide (json_response !! "bootstrap" = Some (JBool true))
            then raise (ClickException (py_str (json_response !! "message")))
            else pass
        end
  | None => pass
  end.

(** The summary table of a role (lines 390-454).  Filling it reads
    [key.get("key").get("keyid")] of every record and, for targets,
    unpacks [role.paths].  The rows of the keys come as the map
    enumerates them, which need not be the order in which Python's
    dictionary keeps them; nothing below tells the order of the rows. *)
Definition show_role_table (r : Roles) : M unit :=
  role ← the_role r;
  let records := snd <$> map_to_list (keys role) in
  if existsb (λ k, bool_decide (key k = None)) records then
    raise AttributeError
  else if bool_decide (r = TARGETS) && bool_decide (paths role = None) then
    raise TypeError
  else
    console_print
      (MsgRoleTable r (size (keys role)) (threshold role)
         (offline_keys role) (expiration role) (filename <$> records)).

(** The [while True] of the review (lines 389-463); each turn takes the
    operator's confirmation. *)
Fixpoint review_loop (fuel : nat) (r : Roles) : M unit :=
  match fuel with
  | O => λ w, OutOfFuel w
  | S fuel' =>
      show_role_table r;;
      confirm_config ← Confirm_ask (AskConfigurationCorrect r);
      if negb confirm_config then
        _configure_role r;;
        _configure_keys r;;
        review_loop fuel' r
      else pass
  end.

Definition review (r : Roles) : M unit := λ w,
  review_loop (S (length (answers w))) r w.

(** One turn of the loop of lines 470-477. *)
Definition payload_add_role (r : Roles) (json_settings : list (string * pyval))
  : M (list (string * pyval)) :=
  data ← the_role r;
  (if offline_keys data then update_role r (set_keys ∅) else pass);;
  data ← the_role r;
  match dict_get "roles" json_settings with
  | None =>
      mret (dict_set "roles" (PDict [(value r, RolesKeysInput_to_dict data)])
              json_settings)
  | Some (PDict json_roles) =>
      mret (dict_set "roles"
              (PDict (dict_set (value r) (RolesKeysInput_to_dict data)
                        json_roles))
              json_settings)
  | Some _ => raise TypeError
  end.

Fixpoint payload_add_roles (rs : list Roles)
    (json_settings : list (string * pyval)) : M (list (string * pyval)) :=
  match rs with
  | [] => mret json_settings
  | r :: rs' =>
      json_settings' ← payload_add_role r json_settings;
      payload_add_roles rs' json_settings'
  end.

(** Lines 465-481 of [ceremony]: the payload. *)
Definition ceremony_payload : M pyval :=
  settings ← the_settings;
  let metadata := initialize_metadata (roles settings) in
  json_settings ← payload_add_roles all_roles
    [("service", ServiceSettings_to_dict (service settings))];
  mret (PDict [("settings", PDict json_settings);
               ("metadata", PDict metadata)]).

(** Lines 483-495 of [ceremony]: every path through the body of the
    [while True] leaves the loop. *)
Definition ceremony_submit (server : option string) (json_payload : pyval)
  : M unit :=
  match supplied server with
  | Some server =>
      response ← _request_server server "api/v1/bootstrap" Methods.post
                   (Some json_payload);
      if bool_decide (status_code response ≠ 201) then
        raise (ClickException (text response))
      else console_print MsgBootstrapDone
  | None => pass
  end.

(** Lines 365-465: the operator's part of the ceremony. *)
Definition ceremony_steps : M unit :=
  console_print MsgIntro;;
  start_ceremony ← Confirm_ask AskStartCeremony;
  if negb start_ceremony then raise (ClickException "Ceremony aborted.")
  else
    console_print MsgStep1;;
    for_each all_roles _configure_role;;
    console_print MsgStep2;;
    start_ceremony ← Confirm_ask AskReadyToLoadKeys;
    if negb start_ceremony then raise (ClickException "Ceremony aborted.")
    else
      for_each all_roles _configure_keys;;
      console_print MsgStep3;;
      for_each all_roles review.

Definition ceremony (server : option string) : M unit :=
  ceremony_precheck server;;
  ceremony_steps;;
  json_payload ← ceremony_payload;
  ceremony_submit server json_payload.

(** ** Properties *)

(** *** Duplicate detection *)

Lemma any_key_true (ks : gmap string KeyRecord) (p : KeyRecord → bool) :
  any_key ks p = true ↔ ∃ slot x, ks !! slot = Some x ∧ p x = true.
Proof.
  unfold any_key. rewrite existsb_exists. split.
  - intros (x & Hin & Hp). apply list_elem_of_In, list_elem_of_fmap in Hin.
    destruct Hin as ([slot y] & -> & Hin). apply elem_of_map_to_list in Hin.
    by exists slot, y.
  - intros (slot & x & Hl & Hp). exists x. split; [|done].
    apply list_elem_of_In, list_elem_of_fmap. exists (slot, x). split; [done|].
    by apply elem_of_map_to_list.
Qed.

Lemma KeyRecord_get_key (x : KeyRecord) (k : KeyMaterial) :
  FKey k = KeyRecord_get x "key" ↔ key x = Some k.
Proof.
  unfold KeyRecord_get; simpl. destruct (key x); split; intros; simplify_eq; done.
Qed.

(** No record has a field ["path"]: the second test of the helper compares
    the candidate with [None]. *)
Lemma KeyRecord_get_path (x : KeyRecord) (k : KeyMaterial) :
  FKey k ≠ KeyRecord_get x "path".
Proof. unfold KeyRecord_get; simpl. done. Qed.

Lemma any_key_path (ks : gmap string KeyRecord) (k : KeyMaterial) :
  any_key ks (λ x, bool_decide (FKey k = KeyRecord_get x "path")) = false.
Proof.
  apply not_true_is_false. rewrite any_key_true. intros (slot & x & _ & Hx).
  apply bool_decide_eq_true in Hx. by apply KeyRecord_get_path in Hx.
Qed.

(** The detector as the specification words it: some accepted record of
    some role holds the candidate's key material. *)
Definition content_duplicated (settings : PayloadSettings) (k : KeyMaterial)
  : bool :=
  existsb (λ r, any_key (keys (roles settings r))
                  (λ x, bool_decide (key x = Some k))) all_roles.

Lemma _key_is_duplicated_in_true (rs : list RolesKeysInput) (k : KeyMaterial) :
  _key_is_duplicated_in rs k = true ↔
  ∃ role slot x, role ∈ rs ∧ keys role !! slot = Some x ∧ key x = Some k.
Proof.
  induction rs as [|role rs IH]; cbn [_key_is_duplicated_in].
  - split; [done|]. intros (? & ? & ? & Hin & _). by apply elem_of_nil in Hin.
  - rewrite any_key_path.
    destruct (any_key (keys role) _) eqn:Hany.
    + split; [intros _|done]. apply any_key_true in Hany as (slot & x & ? & Hx).
      apply bool_decide_eq_true, KeyRecord_get_key in Hx.
      exists role, slot, x. split; [apply list_elem_of_here|done].
    + rewrite IH. split.
      * intros (role' & slot & x & ? & ?). exists role', slot, x.
        split; [by apply list_elem_of_further|done].
      * intros (role' & slot & x & Hin & Hl & Hx).
        apply elem_of_cons in Hin as [->|Hin]; [|by exists role', slot, x].
        exfalso. apply not_true_iff_false in Hany. apply Hany, any_key_true.
        exists slot, x. split; [done|].
        by apply bool_decide_eq_true, KeyRecord_get_key.
Qed.

Lemma all_roles_complete (r : Roles) : r ∈ all_roles.
Proof. unfold all_roles. destruct r; set_solver. Qed.

Lemma _key_is_duplicated_true (settings : PayloadSettings) (k : KeyMaterial) :
  _key_is_duplicated settings k = true ↔
  ∃ r slot x, keys (roles settings r) !! slot = Some x ∧ key x = Some k.
Proof.
  unfold _key_is_duplicated. rewrite _key_is_duplicated_in_true. split.
  - intros (role & slot & x & Hin & ? & ?).
    apply list_elem_of_fmap in Hin as (r & -> & _). by exists r, slot, x.
  - intros (r & slot & x & ? & ?). exists (roles settings r), slot, x.
    split; [|done]. apply list_elem_of_fmap. exists r.
    split; [done|apply all_roles_complete].
Qed.

Lemma content_duplicated_true (settings : PayloadSettings) (k : KeyMaterial) :
  content_duplicated settings k = true ↔
  ∃ r slot x, keys (roles settings r) !! slot = Some x ∧ key x = Some k.
Proof.
  unfold content_duplicated. rewrite existsb_exists. split.
  - intros (r & _ & Hany). apply any_key_true in Hany as (slot & x & ? & Hx).
    apply bool_decide_eq_true in Hx. by exists r, slot, x.
  - intros (r & slot & x & ? & ?). exists r.
    split; [apply list_elem_of_In, all_roles_complete|].
    apply any_key_true. exists slot, x. split; [done|by apply bool_decide_eq_true].
Qed.

(** *** Key collection *)

Lemma roles_with_role_eq r f (settings : PayloadSettings) :
  roles (with_role r f settings) r = f (roles settings r).
Proof. unfold with_role; simpl. by rewrite decide_True. Qed.

Lemma roles_with_role_ne r r' f (settings : PayloadSettings) :
  r' ≠ r → roles (with_role r f settings) r' = roles settings r'.
Proof. intros. unfold with_role; simpl. by rewrite decide_False. Qed.

(** The import failed with an exception that [_load_key] catches. *)
Definition import_caught (filepath password : string) : Prop :=
  ∃ err, import_ed25519_privatekey_from_file filepath password =
           RaisesCryptoError err ∨
         import_ed25519_privatekey_from_file filepath password = RaisesError err.

(** [_load_key] returns a key and no error, or an error that is a
    non-empty text and no key, or lets through what it does not catch; the
    world is as it was. *)
Lemma _load_key_cases (filepath password : string) (w : World) :
  (∃ m, import_ed25519_privatekey_from_file filepath password = Imported m ∧
        _load_key filepath password w = Returned (mkKey (Some m) None) w) ∨
  (∃ k e, import_caught filepath password ∧
          _load_key filepath password w = Returned k w ∧
          error_of k = Some e ∧ key_key k = None) ∨
  (∃ name, import_ed25519_privatekey_from_file filepath password =
             RaisesOther name ∧
           _load_key filepath password w = Raised (Unhandled name) w).
Proof.
  unfold _load_key, import_caught.
  destruct (import_ed25519_privatekey_from_file filepath password)
    as [m|err|err|name].
  - left. by exists m.
  - right; left. eexists _, _. split; [exists err; by left|]. by split.
  - right; left. eexists _, _. split; [exists err; by right|]. by split.
  - right; right. by exists name.
Qed.

(** The exceptions that leave key collection: the one it raises itself and
    what an import raised and [_load_key] let through. *)
Definition leaves_key_collection (e : Exception) : Prop :=
  e = ClickException "Required key not validated." ∨
  ∃ filepath password name,
    import_ed25519_privatekey_from_file filepath password = RaisesOther name ∧
    e = Unhandled name.

(** [SETTINGS] after the assignment [role.keys[slot] = record]. *)
Definition store_key (r : Roles) (slot : string) (x : KeyRecord)
    (settings : PayloadSettings) : PayloadSettings :=
  with_role r (λ role, set_keys (<[slot := x]> (keys role)) role) settings.

Definition keys_missing (r : Roles) (settings : PayloadSettings) : Prop :=
  Z.of_nat (size (keys (roles settings r))) < num_of_keys (roles settings r).

(** A question leaves [SETTINGS] alone and, when answered, uses up at
    least one answer. *)
Definition asks {A} (m : M A) : Prop :=
  ∀ w, match m w with
       | Returned _ w' =>
           SETTINGS w' = SETTINGS w ∧ (length (answers w') < length (answers w))%nat
       | AwaitingInput w' => SETTINGS w' = SETTINGS w
       | _ => False
       end.

Lemma asks_ask q : asks (ask q).
Proof. intros [settings [|a ans] lg]; simpl; [done|]. split; [done|lia]. Qed.

Lemma asks_bind_pure {A B} (m : M A) (f : A → option B) :
  asks m →
  asks (a ← m; match f a with Some b => mret b | None => refused end).
Proof.
  intros Hm w. specialize (Hm w). unfold mbind, M_bind.
  destruct (m w) as [a w'| | |]; try done.
  unfold mret, M_ret, refused. destruct (f a); simpl; tauto.
Qed.

Lemma asks_Prompt_ask q : asks (Prompt_ask q).
Proof.
  intros w. pose proof (asks_ask q w) as Hw.
  unfold Prompt_ask, mbind, M_bind, mret, M_ret, refused.
  destruct (ask q w) as [[]|?|?|?]; tauto.
Qed.

Lemma asks_click_prompt q : asks (click_prompt q).
Proof.
  intros w. pose proof (asks_ask q w) as Hw.
  unfold click_prompt, mbind, M_bind, mret, M_ret, refused.
  destruct (ask q w) as [[| |s|] w'|?|?|?]; try tauto.
  destruct (Py.truthy s); tauto.
Qed.

Lemma asks_Confirm_ask_default_y q : asks (Confirm_ask_default_y q).
Proof.
  intros w. pose proof (asks_ask q w) as Hw.
  unfold Confirm_ask_default_y, mbind, M_bind, mret, M_ret, refused.
  destruct (ask q w) as [[]|?|?|?]; tauto.
Qed.

(** The induction principle of the loop: a property of [SETTINGS] and the
    counter that every accepted key preserves holds however the loop is
    left; the loop is left by [return] only with no key missing, by an
    exception only through the declined retry or an import that raised
    what [_load_key] does not catch, and its bound is never used up. *)
Lemma _configure_keys_loop_ind (r : Roles) (Q : PayloadSettings → Z → Prop) :
  (∀ settings kc filepath password m,
      Q settings kc → keys_missing r settings →
      _key_is_duplicated settings m = false →
      Q (store_key r (key_slot r kc)
           (mkKeyRecord (Py.last_item (Py.split "/" filepath)) password (Some m))
           settings) (kc + 1)) →
  ∀ fuel w kc, (length (answers w) < fuel)%nat → Q (SETTINGS w) kc →
    match _configure_keys_loop fuel r kc w with
    | Returned _ w' =>
        (∃ kc', Q (SETTINGS w') kc') ∧ ¬ keys_missing r (SETTINGS w')
    | Raised e w' =>
        (∃ kc', Q (SETTINGS w') kc') ∧ leaves_key_collection e
    | AwaitingInput w' => ∃ kc', Q (SETTINGS w') kc'
    | OutOfFuel _ => False
    end.
Proof.
  intros Hstep. induction fuel as [|fuel IH]; intros w kc Hfuel HQ; [lia|].
  cbn [_configure_keys_loop].
  unfold mbind, M_bind, the_role at 1.
  case_bool_decide as Hmiss.
  2:{ unfold pass, mret, M_ret. split; [by exists kc|done]. }
  pose proof (asks_Prompt_ask
    (AskKeyPath r kc (num_of_keys (roles (SETTINGS w) r))) w) as H1.
  destruct (Prompt_ask _ w) as [filepath w1| | |]; try done.
  2:{ exists kc. by rewrite H1. }
  destruct H1 as [E1 L1].
  pose proof (asks_click_prompt
    (AskKeyPassword r kc (num_of_keys (roles (SETTINGS w) r))) w1) as H2.
  destruct (click_prompt _ w1) as [password w2| | |]; try done.
  2:{ exists kc. by rewrite H2, E1. }
  destruct H2 as [E2 L2].
  destruct (_load_key_cases filepath password w2)
    as [(m & _ & ->)|[(k & e & _ & -> & -> & Hk)|(name & Hother & ->)]].
  - (* a key was read *)
    cbn [error_of key_error key_key]. unfold the_settings.
    destruct (_key_is_duplicated (SETTINGS w2) m) eqn:Hdup.
    + unfold console_print, emit. cbn.
      apply IH; simpl; [lia|]. by rewrite E2, E1.
    + unfold update_role, console_print, emit. cbn.
      apply IH; simpl; [lia|]. rewrite E2, E1. apply Hstep; [done|done|].
      by rewrite <-E1, <-E2.
  - (* the import failed *)
    unfold console_print, emit. cbn.
    match goal with |- context [Confirm_ask_default_y ?q ?w0] =>
      pose proof (asks_Confirm_ask_default_y q w0) as H3;
      destruct (Confirm_ask_default_y q w0) as [[] w3| | |]; try done
    end; simpl in H3.
    + apply IH; [lia|]. destruct H3 as [-> _]. by rewrite E2, E1.
    + split; [|by left]. exists kc. destruct H3 as [-> _]. by rewrite E2, E1.
    + exists kc. by rewrite H3, E2, E1.
  - (* the import raised something else *)
    split; [|right; by exists filepath, password, name].
    exists kc. by rewrite E2, E1.
Qed.

Lemma key_slot_inj (r : Roles) (i j : Z) : key_slot r i = key_slot r j → i = j.
Proof.
  unfold key_slot. intros Heq.
  apply (inj (String.app (value r))), (inj (String.app "_")) in Heq.
  by apply (inj pretty) in Heq.
Qed.

Lemma keys_store_key r slot x (settings : PayloadSettings) :
  keys (roles (store_key r slot x settings) r) =
  <[slot := x]> (keys (roles settings r)).
Proof. unfold store_key. by rewrite roles_with_role_eq. Qed.

Lemma roles_store_key_ne r r' slot x (settings : PayloadSettings) :
  r' ≠ r → roles (store_key r slot x settings) r' = roles settings r'.
Proof. apply roles_with_role_ne. Qed.

Lemma num_of_keys_store_key r r' slot x (settings : PayloadSettings) :
  num_of_keys (roles (store_key r slot x settings) r') =
  num_of_keys (roles settings r').
Proof.
  destruct (decide (r' = r)) as [->|];
    [unfold store_key; by rewrite roles_with_role_eq
    |by rewrite roles_store_key_ne].
Qed.

(** The records of a keys mapping all hold a key, no two the same. *)
Definition distinct_keys (ks : gmap string KeyRecord) : Prop :=
  (∀ slot x, ks !! slot = Some x → ∃ m, key x = Some m) ∧
  (∀ s1 s2 x1 x2, ks !! s1 = Some x1 → ks !! s2 = Some x2 →
                  key x1 = key x2 → s1 = s2).

(** What holds of role [r] at every turn of its loop, [n] being its
    number of keys and [kc] the counter. *)
Definition collecting (r : Roles) (n : Z) (settings : PayloadSettings)
    (kc : Z) : Prop :=
  let ks := keys (roles settings r) in
  num_of_keys (roles settings r) = n ∧
  Z.of_nat (size ks) + 1 = kc ∧
  (∀ slot, is_Some (ks !! slot) → ∃ j, 1 ≤ j < kc ∧ slot = key_slot r j) ∧
  distinct_keys ks ∧
  Z.of_nat (size ks) ≤ Z.max 0 n.

Lemma collecting_start r (settings : PayloadSettings) :
  keys (roles settings r) = ∅ →
  collecting r (num_of_keys (roles settings r)) settings 1.
Proof.
  intros Hempty. unfold collecting, distinct_keys. rewrite Hempty.
  rewrite map_size_empty. repeat split; try done; try lia.
  intros slot [x Hx]. by rewrite lookup_empty in Hx.
Qed.

Lemma collecting_step r n (settings : PayloadSettings) kc filepath password m :
  collecting r n settings kc → keys_missing r settings →
  _key_is_duplicated settings m = false →
  collecting r n
    (store_key r (key_slot r kc)
       (mkKeyRecord (Py.last_item (Py.split "/" filepath)) password (Some m))
       settings) (kc + 1).
Proof.
  unfold collecting, keys_missing. cbn zeta.
  intros (Hn & Hkc & Hslots & [Hsome Hdist] & Hle) Hmiss Hdup.
  rewrite keys_store_key, num_of_keys_store_key.
  assert (keys (roles settings r) !! key_slot r kc = None) as Hfresh.
  { apply eq_None_not_Some. intros Hs. apply Hslots in Hs as (j & Hj & Heq).
    apply key_slot_inj in Heq. lia. }
  assert (∀ slot x, keys (roles settings r) !! slot = Some x → key x ≠ Some m)
    as Hnew.
  { intros slot x Hx Hk. apply not_true_iff_false in Hdup. apply Hdup.
    apply _key_is_duplicated_true. by exists r, slot, x. }
  rewrite map_size_insert_None by done.
  split; [done|]. split; [lia|]. split; [|split; [split|lia]].
  - intros slot Hs. destruct (decide (slot = key_slot r kc)) as [->|Hne].
    + exists kc. split; [lia|done].
    + rewrite lookup_insert_ne in Hs by done.
      apply Hslots in Hs as (j & Hj & Heq). exists j. split; [lia|done].
  - intros slot x Hx. apply lookup_insert_Some in Hx as [[_ <-]|[_ Hx]].
    + by exists m.
    + by eapply Hsome.
  - intros s1 s2 x1 x2 H1 H2 Heq.
    apply lookup_insert_Some in H1 as [[<- <-]|[Hne1 H1]];
      apply lookup_insert_Some in H2 as [[<- <-]|[Hne2 H2]]; simpl in *.
    + done.
    + exfalso. by eapply Hnew.
    + exfalso. by eapply Hnew.
    + by eapply Hdist.
Qed.

(** The text that the path prompt hands back for an answer. *)
Definition path_answer (a : Answer) : option string :=
  match a with Enter => Some "" | AString s => Some s | _ => None end.

Lemma Prompt_ask_returned q (w : World) s w1 :
  Prompt_ask q w = Returned s w1 →
  ∃ a, answers w = a :: answers w1 ∧ path_answer a = Some s ∧
       SETTINGS w1 = SETTINGS w.
Proof.
  unfold Prompt_ask, ask, mbind, M_bind, mret, M_ret, refused.
  destruct (answers w) as [|[| |s'|] ans]; try done; intros [= <- <-];
    by eexists.
Qed.

Lemma click_prompt_returned q (w : World) s w1 :
  click_prompt q w = Returned s w1 →
  answers w = AString s :: answers w1 ∧ Py.truthy s = true ∧
  SETTINGS w1 = SETTINGS w.
Proof.
  unfold click_prompt, ask, mbind, M_bind, mret, M_ret, refused.
  destruct (answers w) as [|[| |s'|] ans]; try done.
  destruct (Py.truthy s') eqn:Ht; [|done]. by intros [= <- <-].
Qed.

Lemma Confirm_ask_default_y_returned q (w : World) b w1 :
  Confirm_ask_default_y q w = Returned b w1 →
  ∃ a, answers w = a :: answers w1 ∧ a ≠ YesNo (negb b) ∧
       SETTINGS w1 = SETTINGS w.
Proof.
  unfold Confirm_ask_default_y, ask, mbind, M_bind, mret, M_ret, refused.
  destruct (answers w) as [|[| |s'|b'] ans]; try done; intros [= <- <-];
    eexists; (split; [done|split; [|done]]); [done|].
  by destruct b'.
Qed.

(** At every turn of the loop, whatever the counter and whatever is held
    already: on a failed import the operator who declines to try again ends
    the run with the Click exception; [SETTINGS] is as it was. *)
Lemma declined_retry_raises r fuel kc (w : World) filepath password rest :
  keys_missing r (SETTINGS w) →
  answers w = AString filepath :: AString password :: YesNo false :: rest →
  Py.truthy password = true →
  import_caught filepath password →
  ∃ w', _configure_keys_loop (S fuel) r kc w =
          Raised (ClickException "Required key not validated.") w' ∧
        SETTINGS w' = SETTINGS w ∧ answers w' = rest.
Proof.
  intros Hmiss Hans Hpw Hfail.
  cbn [_configure_keys_loop].
  unfold mbind, M_bind, the_role at 1. rewrite bool_decide_eq_true_2 by done.
  unfold Prompt_ask, click_prompt, mbind, M_bind, ask. rewrite Hans. cbn.
  rewrite Hpw. cbn.
  match goal with |- context [_load_key filepath password ?w0] =>
    destruct (_load_key_cases filepath password w0)
      as [(m & Hm & _)|[(k & e & _ & -> & -> & _)|(name & Hn & _)]]
  end.
  - destruct Hfail as [err [?|?]]; congruence.
  - cbn. eexists. by split_and!.
  - destruct Hfail as [err [?|?]]; congruence.
Qed.

(** A run of the loop that returns has taken no refusal to try again:
    the answers it used up hold no "no". *)
Lemma _configure_keys_loop_returned r :
  ∀ fuel kc (w : World) u w',
    _configure_keys_loop fuel r kc w = Returned u w' →
    ∃ consumed, answers w = consumed ++ answers w' ∧ YesNo false ∉ consumed.
Proof.
  induction fuel as [|fuel IH]; intros kc w u w'; [done|].
  cbn [_configure_keys_loop].
  unfold mbind, M_bind, the_role at 1.
  case_bool_decide as Hmiss.
  2:{ intros [= _ <-]. exists []. split; [done|]. apply not_elem_of_nil. }
  destruct (Prompt_ask _ w) as [filepath w1| | |] eqn:H1; try done.
  apply Prompt_ask_returned in H1 as (a & Ha & Hpath & _).
  destruct (click_prompt _ w1) as [password w2| | |] eqn:H2; try done.
  apply click_prompt_returned in H2 as (Hp & _ & _).
  assert (YesNo false ∉ [a; AString password]) as Hturn.
  { intros [<-|[?|?%elem_of_nil]%elem_of_cons]%elem_of_cons; done. }
  destruct (_load_key_cases filepath password w2)
    as [(m & _ & ->)|[(k & e & _ & -> & -> & Hk)|(name & _ & ->)]]; [| |done].
  - cbn [error_of key_error key_key]. unfold the_settings.
    destruct (_key_is_duplicated (SETTINGS w2) m);
      unfold update_role, console_print, emit; cbn; intros Hres;
      apply IH in Hres as (consumed & Hc & Hno); cbn in Hc;
      exists ([a; AString password] ++ consumed);
      (split; [by rewrite Ha, Hp, Hc|]);
      by apply not_elem_of_app.
  - unfold console_print, emit. cbn.
    match goal with |- context [Confirm_ask_default_y ?q ?w0] =>
      destruct (Confirm_ask_default_y q w0) as [[] w3| | |] eqn:H3; try done
    end.
    apply Confirm_ask_default_y_returned in H3 as (b & Hb & Hyes & _).
    cbn in Hb, Hyes. intros Hres.
    apply IH in Hres as (consumed & Hc & Hno).
    exists ([a; AString password; b] ++ consumed).
    split; [by rewrite Ha, Hp, Hb, Hc|].
    apply not_elem_of_app. split; [|done].
    intros [<-|[?|[<-|?%elem_of_nil]%elem_of_cons]%elem_of_cons]%elem_of_cons;
      done.
Qed.

(** Exceptions are not caught on the way out: whatever follows a step
    that raised is not run. *)
Lemma raised_propagates {A B} (m : M A) (f : A → M B) e (w w' : World) :
  m w = Raised e w' → (m ≫= f) w = Raised e w'.
Proof. intros Hm. unfold mbind, M_bind. by rewrite Hm. Qed.

(** C5, as amended.  Key collection for a role that starts with no keys,
    [n] being the role's number of keys: the mapping never holds more than
    [max 0 n] records, each with a key and no two with the same key; the
    function returns only with exactly [max 0 n] records (so with [n] of
    them when [n >= 0]) and only when no answer it took was a refusal; the
    loop never outruns its bound.  At every turn of the loop, whatever the
    counter and the keys held already, a failed import that the operator
    declines to try again raises ["Required key not validated."] and leaves
    [SETTINGS] as it was; so it does at the first question of the call.
    An exception that leaves the function ends the loop over the roles. *)
Theorem _configure_keys_collects (r : Roles) (w : World) :
  keys (roles (SETTINGS w) r) = ∅ →
  let n := num_of_keys (roles (SETTINGS w) r) in
  let res := _configure_keys r w in
  let ks := keys (roles (SETTINGS (world_of res)) r) in
  Z.of_nat (size ks) ≤ Z.max 0 n ∧
  distinct_keys ks ∧
  (∀ u w', res = Returned u w' →
     Z.of_nat (size ks) = Z.max 0 n ∧
     ∃ consumed, answers w = consumed ++ answers w' ∧ YesNo false ∉ consumed) ∧
  (∀ w', res ≠ OutOfFuel w') ∧
  (∀ fuel key_count (w0 : World) filepath password rest,
      keys_missing r (SETTINGS w0) →
      answers w0 = AString filepath :: AString password :: YesNo false :: rest →
      Py.truthy password = true →
      import_caught filepath password →
      ∃ w', _configure_keys_loop (S fuel) r key_count w0 =
              Raised (ClickException "Required key not validated.") w' ∧
            SETTINGS w' = SETTINGS w0 ∧ answers w' = rest) ∧
  (∀ filepath password rest,
      0 < n →
      answers w = AString filepath :: AString password :: YesNo false :: rest →
      Py.truthy password = true →
      import_caught filepath password →
      ∃ w', res = Raised (ClickException "Required key not validated.") w' ∧
            SETTINGS w' = SETTINGS w ∧ answers w' = rest) ∧
  (∀ e w' (others : list Roles),
      res = Raised e w' →
      for_each (r :: others) _configure_keys w = Raised e w').
Proof.
  intros Hempty n res ks.
  pose proof (_configure_keys_loop_ind r (collecting r n)
                (collecting_step r n) (S (length (answers w))) w 1
                ltac:(lia) (collecting_start r _ Hempty)) as Hloop.
  fold (_configure_keys r w) in Hloop. fold res in Hloop.
  assert (∃ kc, collecting r n (SETTINGS (world_of res)) kc ∧
            ((∃ u w', res = Returned u w') →
             ¬ keys_missing r (SETTINGS (world_of res)))) as (kc & Hc & Hret).
  { destruct res as [u w'|e w'|w'|w']; simpl in *; try done.
    - destruct Hloop as [[kc Hc] Hn]. by exists kc.
    - destruct Hloop as [[kc Hc] _]. exists kc. split; [done|].
      by intros (? & ? & ?).
    - destruct Hloop as [kc Hc]. exists kc. split; [done|].
      by intros (? & ? & ?). }
  destruct Hc as (Hn & Hkc & _ & Hdist & Hle). fold ks in Hkc, Hdist, Hle.
  split; [done|]. split; [done|]. split; [|split; [|split; [|split]]].
  - intros u w' Hres. split.
    + unfold keys_missing in Hret. fold ks in Hret.
      rewrite Hn in Hret.
      specialize (Hret (ex_intro _ u (ex_intro _ w' Hres))). lia.
    + by eapply _configure_keys_loop_returned.
  - intros w' Hres. by rewrite Hres in Hloop.
  - intros fuel key_count w0 filepath password rest.
    apply declined_retry_raises.
  - intros filepath password rest Hpos Hans Hpw Hfail.
    eapply declined_retry_raises; try done.
    unfold keys_missing. rewrite Hempty, map_size_empty. fold n. lia.
  - intros e w' others Hres. cbn [for_each]. by apply raised_propagates.
Qed.

(** No key material is held by two records, of one role or of two. *)
Definition no_key_twice (settings : PayloadSettings) : Prop :=
  ∀ r1 s1 x1 r2 s2 x2 m,
    keys (roles settings r1) !! s1 = Some x1 →
    keys (roles settings r2) !! s2 = Some x2 →
    key x1 = Some m → key x2 = Some m → r1 = r2 ∧ s1 = s2.

Lemma lookup_store_key r r' slot s x (settings : PayloadSettings) y :
  keys (roles (store_key r slot x settings) r') !! s = Some y →
  (r' = r ∧ s = slot ∧ y = x) ∨ keys (roles settings r') !! s = Some y.
Proof.
  destruct (decide (r' = r)) as [->|Hne].
  - rewrite keys_store_key. intros [[-> ->]|[_ ?]]%lookup_insert_Some; auto.
  - rewrite roles_store_key_ne by done. auto.
Qed.

Lemma no_key_twice_store_key r slot filepath password m
    (settings : PayloadSettings) :
  no_key_twice settings → _key_is_duplicated settings m = false →
  no_key_twice (store_key r slot (mkKeyRecord filepath password (Some m)) settings).
Proof.
  intros Hno Hdup r1 s1 x1 r2 s2 x2 m' H1 H2 Hk1 Hk2.
  assert (∀ r' s x, keys (roles settings r') !! s = Some x → key x ≠ Some m)
    as Hnew.
  { intros r' s x Hx Hk. apply not_true_iff_false in Hdup. apply Hdup.
    apply _key_is_duplicated_true. by exists r', s, x. }
  apply lookup_store_key in H1 as [(-> & -> & ->)|H1];
    apply lookup_store_key in H2 as [(-> & -> & ->)|H2]; simpl in *.
  - done.
  - exfalso. simplify_eq. by eapply Hnew.
  - exfalso. simplify_eq. by eapply Hnew.
  - by eapply Hno.
Qed.

(** C2.  [_key_is_duplicated] answers [True] exactly when some record of
    some role holds the candidate's key material; it agrees with the
    detector that compares contents only, the test on ["path"] never
    deciding; and key collection, which stores only keys the helper does
    not flag, never brings a key material into a second record. *)
Theorem _key_is_duplicated_by_content (settings : PayloadSettings)
    (k : KeyMaterial) :
  (_key_is_duplicated settings k = true ↔
     ∃ r slot x, keys (roles settings r) !! slot = Some x ∧ key x = Some k) ∧
  _key_is_duplicated settings k = content_duplicated settings k ∧
  (∀ r (w : World),
      no_key_twice (SETTINGS w) →
      no_key_twice (SETTINGS (world_of (_configure_keys r w)))).
Proof.
  split; [apply _key_is_duplicated_true|]. split.
  - apply eq_true_iff_eq.
    by rewrite _key_is_duplicated_true, content_duplicated_true.
  - intros r w Hno.
    pose proof (_configure_keys_loop_ind r (λ s _, no_key_twice s)) as Hloop.
    specialize (Hloop (λ s kc f p m Hs _ Hd,
                         no_key_twice_store_key r _ _ p m s Hs Hd)).
    specialize (Hloop (S (length (answers w))) w 1 ltac:(lia) Hno).
    fold (_configure_keys r w) in Hloop.
    destruct (_configure_keys r w); simpl in *;
      [by destruct Hloop as [[? ?] _]|by destruct Hloop as [[? ?] _]
      |by destruct Hloop|done].
Qed.

(** *** Role configuration *)

(** The integer an answer gives to [IntPrompt.ask] with default [d]. *)
Definition int_answer (d : Z) (a : Answer) : option Z :=
  match a with Enter => Some d | AnInt z => Some z | _ => None end.


Ltac run_prompts :=
  repeat (cbn -[with_role]; rewrite ?roles_with_role_eq; cbn -[with_role];
    match goal with
    | |- context [match ?l with [] => _ | _ :: _ => _ end] =>
        is_var l; destruct l as [|[] l]
    | |- context [bool_decide ?P] => destruct (bool_decide_reflect P)
    | |- context [Py.truthy ?s] => destruct (Py.truthy s) eqn:?
    | |- context [if ?b then _ else _] => is_var b; destruct b
    end).

Ltac log_extended :=
  first [ eexists; split; [rewrite <- ?app_assoc; reflexivity|]
        | exists []; split; [cbn; by rewrite app_nil_r|] ];
  cbn -[with_role];
  repeat match goal with
         | |- context [bool_decide ?P] =>
             destruct (bool_decide_reflect P); try done
         end.

(** The first part of [_configure_role], however it ends: the keys of the
    role are gone, its [offline_keys] is the default, no other role and
    nothing of the service settings is touched, the threshold is asked for
    only with more than one key; when it returns, the three fields are
    what the operator answered, the threshold being 1 without a question
    when the number of keys is at most 1. *)
Lemma configure_role_basics_spec defaults (r : Roles) (w : World) :
  let res := configure_role_basics defaults r w in
  let role' := roles (SETTINGS (world_of res)) r in
  ∃ new,
    log (world_of res) = log w ++ new ∧
    was_requested new = false ∧
    service (SETTINGS (world_of res)) = service (SETTINGS w) ∧
    keys role' = ∅ ∧
    offline_keys role' = rs_offline_keys (defaults r) ∧
    (∀ r', r' ≠ r →
           roles (SETTINGS (world_of res)) r' = roles (SETTINGS w) r') ∧
    (was_asked (AskThreshold r) new = true → num_of_keys role' > 1) ∧
    (∀ u w', res = Returned u w' →
       ∃ a1 a2 rest,
         answers w = a1 :: a2 :: rest ∧
         int_answer (rs_expiration (defaults r)) a1 = Some (expiration role') ∧
         int_answer (rs_keys (defaults r)) a2 = Some (num_of_keys role') ∧
         if bool_decide (num_of_keys role' > 1) then
           was_asked (AskThreshold r) new = true ∧
           ∃ a3, rest = a3 :: answers w' ∧
             int_answer (rs_threshold (defaults r)) a3 = Some (threshold role')
         else
           was_asked (AskThreshold r) new = false ∧ threshold role' = 1 ∧
           rest = answers w').
Proof.
  destruct w as [settings ans lg].
  unfold configure_role_basics, IntPrompt_ask, console_print, emit, ask,
    update_role, the_role, refused, pass, raise, mbind, M_bind, mret, M_ret.
  run_prompts.
  all: log_extended.
  all: split_and!; try done.
  all: try (intros r' Hne; by rewrite ?roles_with_role_ne).
  all: try lia.
  all: intros u w' Heq; simplify_eq; cbn; eexists _, _, _; split_and!; try done.
  all: by eexists.
Qed.

(** The five fields of a role that the second part of [_configure_role]
    leaves alone. *)
Definition same_basics (x y : RolesKeysInput) : Prop :=
  expiration x = expiration y ∧ num_of_keys x = num_of_keys y ∧
  threshold x = threshold y ∧ keys x = keys y ∧
  offline_keys x = offline_keys y.

(** [targets_base_url] as line 254-255 leaves it. *)
Definition with_trailing_slash (url : string) : string :=
  if negb (Py.endswith url "/") then url +:+ "/" else url.

(** The second part of [_configure_role], however it ends: no role loses
    or gains a key or changes its numbers, the threshold is not asked for,
    nothing is sent; when it returns for targets, the base URL is the
    second answer with its slash and the paths are the third answer cut at
    the commas; for the other roles the service settings stay. *)
Lemma configure_role_extras_spec (r : Roles) (w : World) :
  let res := configure_role_extras r w in
  ∃ new,
    log (world_of res) = log w ++ new ∧
    was_requested new = false ∧
    was_asked (AskThreshold r) new = false ∧
    (∀ r', same_basics (roles (SETTINGS (world_of res)) r')
                       (roles (SETTINGS w) r')) ∧
    (r ≠ TARGETS → service (SETTINGS (world_of res)) = service (SETTINGS w)) ∧
    (∀ u w', res = Returned u w' → r = TARGETS →
       ∃ a url a',
         answers w = a :: AString url :: a' :: answers w' ∧
         Py.truthy url = true ∧
         targets_base_url (service (SETTINGS w')) = with_trailing_slash url ∧
         ∃ input_paths,
           match a' with
           | Enter => input_paths = "*, */*"
           | AString s => input_paths = s
           | _ => False
           end ∧
           paths (roles (SETTINGS w') TARGETS) =
             Some (Py.strip <$> Py.split "," input_paths)).
Proof.
  destruct w as [settings ans lg].
  unfold configure_role_extras, IntPrompt_ask, Confirm_ask_default_y,
    click_prompt, Prompt_ask_default, console_print, emit, ask, update_role,
    set_targets_base_url, the_role, refused, pass, raise, mbind, M_bind, mret,
    M_ret.
  run_prompts.
  all: log_extended.
  all: split_and!; try done.
  all: try (intros r'; unfold same_basics;
            destruct (decide (r' = r)) as [->|];
            [rewrite roles_with_role_eq|rewrite roles_with_role_ne by done];
            done).
  all: intros u w' Heq Hr; simplify_eq; cbn -[with_role].
  all: eexists _, _, _; split_and!; try done.
  all: eexists; split; [done|]; by rewrite roles_with_role_eq.
Qed.

Lemma was_asked_app q (l1 l2 : list Event) :
  was_asked q (l1 ++ l2) = was_asked q l1 || was_asked q l2.
Proof. apply existsb_app. Qed.

Lemma was_requested_app (l1 l2 : list Event) :
  was_requested (l1 ++ l2) = was_requested l1 || was_requested l2.
Proof. apply existsb_app. Qed.

(** [_configure_role] as a whole, however it ends and for any table of
    defaults. *)
Lemma _configure_role_from_spec defaults (r : Roles) (w : World) :
  let res := _configure_role_from defaults r w in
  let role' := roles (SETTINGS (world_of res)) r in
  ∃ new,
    log (world_of res) = log w ++ new ∧
    was_requested new = false ∧
    keys role' = ∅ ∧
    offline_keys role' = rs_offline_keys (defaults r) ∧
    (∀ r', r' ≠ r → same_basics (roles (SETTINGS (world_of res)) r')
                                (roles (SETTINGS w) r')) ∧
    (was_asked (AskThreshold r) new = true → num_of_keys role' > 1) ∧
    (∀ u w', res = Returned u w' →
       ∃ a1 a2 rest,
         answers w = a1 :: a2 :: rest ∧
         int_answer (rs_expiration (defaults r)) a1 = Some (expiration role') ∧
         int_answer (rs_keys (defaults r)) a2 = Some (num_of_keys role') ∧
         if bool_decide (num_of_keys role' > 1) then
           was_asked (AskThreshold r) new = true ∧
           ∃ a3 rest', rest = a3 :: rest' ∧
             int_answer (rs_threshold (defaults r)) a3 = Some (threshold role')
         else
           was_asked (AskThreshold r) new = false ∧ threshold role' = 1).
Proof.
  intros res role'. subst res role'. unfold _configure_role_from, mbind, M_bind.
  destruct (configure_role_basics_spec defaults r w)
    as (new & Hlog & Hreq & _ & Hkeys & Hoff & Hother & Hasked & Hret).
  destruct (configure_role_basics defaults r w) as [[] w1|e w1|w1|w1];
    simpl in *.
  2-4: exists new; split_and!; try done;
       intros r' Hne; rewrite Hother by done; done.
  destruct (configure_role_extras_spec r w1)
    as (new' & Hlog' & Hreq' & Hasked' & Hsame & _ & _).
  set (w2 := world_of (configure_role_extras r w1)) in *.
  destruct (Hsame r) as (He & Hn & Ht & Hk & Ho).
  exists (new ++ new'). rewrite was_asked_app, was_requested_app, Hasked', Hreq'.
  rewrite !orb_false_r. split_and!.
  - by rewrite Hlog', Hlog, app_assoc.
  - done.
  - by rewrite Hk.
  - by rewrite Ho.
  - intros r' Hne. destruct (Hsame r') as (? & ? & ? & ? & ?).
    rewrite <-Hother by done. done.
  - rewrite Hn. done.
  - intros _ _ _. destruct (Hret () w1 eq_refl) as (a1 & a2 & rest & ? & ? & ? & Hth).
    exists a1, a2, rest. rewrite He, Hn, Ht. split_and!; try done.
    case_bool_decide; [|by destruct Hth as (? & ? & _)].
    destruct Hth as (? & a3 & ? & ?). split; [done|]. by exists a3, (answers w1).
Qed.

Lemma default_threshold_is_one (r : Roles) : rs_threshold (default_settings r) = 1.
Proof. by destruct r. Qed.

(** C6.  Whatever the table of defaults says and however the function
    ends, the threshold is asked for only when the number of keys is above
    1; when [_configure_role] returns for a role with one key, the
    threshold is 1 and was not asked for. *)
Theorem single_key_threshold_is_one defaults (r : Roles) (w : World) :
  let res := _configure_role_from defaults r w in
  let role' := roles (SETTINGS (world_of res)) r in
  ∃ new,
    log (world_of res) = log w ++ new ∧
    (was_asked (AskThreshold r) new = true → num_of_keys role' > 1) ∧
    (∀ u w', res = Returned u w' →
       (num_of_keys role' = 1 → threshold role' = 1) ∧
       (was_asked (AskThreshold r) new = true ↔ num_of_keys role' > 1)).
Proof.
  intros res role'.
  destruct (_configure_role_from_spec defaults r w)
    as (new & Hlog & _ & _ & _ & _ & Hasked & Hret).
  exists new. split_and!; [done|done|].
  intros u w' Hres.
  destruct (Hret u w' Hres) as (a1 & a2 & rest & _ & _ & _ & Hth).
  fold res role' in Hth. case_bool_decide as Hn.
  - destruct Hth as [Hth _]. split; [lia|done].
  - destruct Hth as [Hth ?]. split; [done|]. rewrite Hth. split; [done|lia].
Qed.

(** C3, as amended.  When [_configure_role] returns for a role with more
    than one key, the threshold is the operator's third answer as it
    stands: the default, 1, on Enter, else the integer typed, which is not
    compared with the number of keys.  So the threshold lies between 1 and
    the number of keys on Enter, and otherwise exactly when the integer
    typed does. *)
Theorem threshold_is_the_answer (r : Roles) (w : World) u w' :
  _configure_role r w = Returned u w' →
  num_of_keys (roles (SETTINGS w') r) > 1 →
  ∃ a1 a2 a3 rest,
    answers w = a1 :: a2 :: a3 :: rest ∧
    int_answer 1 a3 = Some (threshold (roles (SETTINGS w') r)) ∧
    (a3 = Enter →
     1 ≤ threshold (roles (SETTINGS w') r) ≤ num_of_keys (roles (SETTINGS w') r)) ∧
    (∀ z, a3 = AnInt z →
          threshold (roles (SETTINGS w') r) = z ∧
          (1 ≤ threshold (roles (SETTINGS w') r)
             ≤ num_of_keys (roles (SETTINGS w') r) ↔
           1 ≤ z ≤ num_of_keys (roles (SETTINGS w') r))).
Proof.
  intros Hres Hn.
  destruct (_configure_role_from_spec default_settings r w)
    as (new & _ & _ & _ & _ & _ & _ & Hret).
  specialize (Hret u w' Hres) as (a1 & a2 & rest & Hans & _ & _ & Hth).
  unfold _configure_role in Hres. rewrite Hres in Hth. simpl in Hth.
  rewrite bool_decide_eq_true_2 in Hth by done.
  destruct Hth as (_ & a3 & rest' & -> & Ha3).
  rewrite default_threshold_is_one in Ha3.
  exists a1, a2, a3, rest'. split_and!; try done.
  - intros ->. simpl in Ha3. simplify_eq. lia.
  - intros z ->. simpl in Ha3. simplify_eq. done.
Qed.

Lemma endswith_app (s suffix : string) : Py.endswith (s +:+ suffix) suffix = true.
Proof.
  induction s as [|c s IH]; simpl.
  - destruct suffix; simpl; [done|]. by rewrite Ascii.eqb_refl, String.eqb_refl.
  - unfold String.app in *. simpl. rewrite IH. apply orb_true_r.
Qed.

Lemma with_trailing_slash_ends (url : string) :
  Py.endswith (with_trailing_slash url) "/" = true.
Proof.
  unfold with_trailing_slash. destruct (Py.endswith url "/") eqn:Hend; simpl.
  - done.
  - apply endswith_app.
Qed.

(** C9.  When [_configure_role] returns for targets, the stored base URL
    is the text the operator gave at the base-URL question (the answer
    after the three or four that come first), unchanged when it ends with
    a slash and with one slash added when it does not; so it ends with a
    slash.  [https://example.com/downloads] becomes
    [https://example.com/downloads/]. *)
Theorem targets_base_url_ends_with_slash (w : World) u w' :
  _configure_role TARGETS w = Returned u w' →
  let stored := targets_base_url (service (SETTINGS w')) in
  Py.endswith stored "/" = true ∧
  (∃ before url a',
     answers w = before ++ AString url :: a' :: answers w' ∧
     length before =
       (if bool_decide (num_of_keys (roles (SETTINGS w') TARGETS) > 1)
        then 4%nat else 3%nat) ∧
     (Py.endswith url "/" = true → stored = url) ∧
     (Py.endswith url "/" = false → stored = url +:+ "/")) ∧
  with_trailing_slash "https://example.com/downloads" =
    "https://example.com/downloads/".
Proof.
  unfold _configure_role, _configure_role_from, mbind, M_bind. intros Hres.
  destruct (configure_role_basics_spec default_settings TARGETS w)
    as (new & _ & _ & _ & _ & _ & _ & _ & Hret).
  destruct (configure_role_basics default_settings TARGETS w)
    as [[] w1| | |] eqn:Hbasics; try done.
  destruct (Hret () w1 eq_refl) as (a1 & a2 & rest & Hans & _ & _ & Hth).
  simpl in Hth.
  destruct (configure_role_extras_spec TARGETS w1)
    as (new' & _ & _ & _ & Hsame & _ & Hret').
  rewrite Hres in Hsame, Hret'. simpl in Hsame.
  destruct (Hret' u w' eq_refl eq_refl)
    as (a & url & a' & Hans' & _ & Hurl & _).
  destruct (Hsame TARGETS) as (_ & Hn & _).
  cbn zeta. rewrite Hurl. split; [apply with_trailing_slash_ends|].
  split; [|done].
  rewrite Hn. unfold with_trailing_slash.
  case_bool_decide.
  - destruct Hth as (_ & a3 & -> & _). exists [a1; a2; a3; a], url, a'.
    rewrite Hans, Hans'. split_and!; try done; by intros ->.
  - destruct Hth as (_ & _ & ->). exists [a1; a2; a], url, a'.
    rewrite Hans, Hans'. split_and!; try done; by intros ->.
Qed.

(** *** The payload *)

Lemma dict_get_set_eq name v (d : list (string * pyval)) :
  dict_get name (dict_set name v d) = Some v.
Proof.
  induction d as [|[n x] d IH]; simpl.
  - by rewrite String.eqb_refl.
  - destruct (String.eqb name n) eqn:Heq; simpl; rewrite Heq; [done|apply IH].
Qed.

Lemma dict_get_set_ne name name' v (d : list (string * pyval)) :
  name ≠ name' → dict_get name' (dict_set name v d) = dict_get name' d.
Proof.
  intros Hne. induction d as [|[n x] d IH]; simpl.
  - destruct (String.eqb name' name) eqn:Heq; [|done].
    apply String.eqb_eq in Heq. by subst.
  - destruct (String.eqb name n) eqn:Heq; simpl.
    + apply String.eqb_eq in Heq as <-.
      destruct (String.eqb name' name) eqn:Heq'; [|done].
      apply String.eqb_eq in Heq'. by subst.
    + by rewrite IH.
Qed.

Lemma value_inj (r1 r2 : Roles) : value r1 = value r2 → r1 = r2.
Proof. by destruct r1, r2. Qed.

(** Lines 471-472: the keys of an offline role are cleared. *)
Definition scrub_offline (x : RolesKeysInput) : RolesKeysInput :=
  if offline_keys x then set_keys ∅ x else x.

Lemma scrub_offline_idemp (x : RolesKeysInput) :
  scrub_offline (scrub_offline x) = scrub_offline x.
Proof. unfold scrub_offline. by destruct x as [? ? ? ? [] ? ?]. Qed.

(** One turn of the loop once the payload has its ["roles"] entry. *)
Lemma payload_add_role_next (r : Roles) s json_roles (w : World) :
  ∃ w',
    payload_add_role r [("service", s); ("roles", PDict json_roles)] w =
      Returned [("service", s);
                ("roles",
                 PDict (dict_set (value r)
                          (RolesKeysInput_to_dict
                             (scrub_offline (roles (SETTINGS w) r)))
                          json_roles))] w' ∧
    answers w' = answers w ∧ log w' = log w ∧
    service (SETTINGS w') = service (SETTINGS w) ∧
    ∀ r', roles (SETTINGS w') r' =
          if decide (r' = r) then scrub_offline (roles (SETTINGS w) r')
          else roles (SETTINGS w) r'.
Proof.
  unfold payload_add_role, the_role, update_role, pass, mbind, M_bind, mret,
    M_ret, scrub_offline.
  destruct (offline_keys (roles (SETTINGS w) r)) eqn:Hoff; cbn -[with_role].
  - rewrite roles_with_role_eq. eexists. split; [reflexivity|].
    split_and!; try done. intros r'. cbn. case_decide; [by subst; rewrite Hoff|done].
  - eexists. split; [reflexivity|]. split_and!; try done.
    intros r'. case_decide; [by subst; rewrite Hoff|done].
Qed.

(** The first turn, which creates the ["roles"] entry. *)
Lemma payload_add_role_first (r : Roles) s (w : World) :
  ∃ w',
    payload_add_role r [("service", s)] w =
      Returned [("service", s);
                ("roles",
                 PDict (dict_set (value r)
                          (RolesKeysInput_to_dict
                             (scrub_offline (roles (SETTINGS w) r)))
                          []))] w' ∧
    answers w' = answers w ∧ log w' = log w ∧
    service (SETTINGS w') = service (SETTINGS w) ∧
    ∀ r', roles (SETTINGS w') r' =
          if decide (r' = r) then scrub_offline (roles (SETTINGS w) r')
          else roles (SETTINGS w) r'.
Proof.
  unfold payload_add_role, the_role, update_role, pass, mbind, M_bind, mret,
    M_ret, scrub_offline.
  destruct (offline_keys (roles (SETTINGS w) r)) eqn:Hoff; cbn -[with_role].
  - rewrite roles_with_role_eq. eexists. split; [reflexivity|].
    split_and!; try done. intros r'. cbn. case_decide; [by subst; rewrite Hoff|done].
  - eexists. split; [reflexivity|]. split_and!; try done.
    intros r'. case_decide; [by subst; rewrite Hoff|done].
Qed.

Lemma payload_add_roles_next (rs : list Roles) s json_roles (w : World) :
  ∃ json_roles' w',
    payload_add_roles rs [("service", s); ("roles", PDict json_roles)] w =
      Returned [("service", s); ("roles", PDict json_roles')] w' ∧
    answers w' = answers w ∧ log w' = log w ∧
    service (SETTINGS w') = service (SETTINGS w) ∧
    (∀ r, roles (SETTINGS w') r =
          if bool_decide (r ∈ rs) then scrub_offline (roles (SETTINGS w) r)
          else roles (SETTINGS w) r) ∧
    (∀ r, r ∈ rs →
          dict_get (value r) json_roles' =
            Some (RolesKeysInput_to_dict (scrub_offline (roles (SETTINGS w) r)))) ∧
    (∀ r, r ∉ rs →
          dict_get (value r) json_roles' = dict_get (value r) json_roles).
Proof.
  revert json_roles w. induction rs as [|r rs IH]; intros json_roles w.
  - exists json_roles, w. split_and!; try done.
    intros r Hin. by apply elem_of_nil in Hin.
  - cbn [payload_add_roles]. unfold mbind, M_bind.
    destruct (payload_add_role_next r s json_roles w)
      as (w1 & -> & Hans & Hlog & Hserv & Hroles).
    destruct (IH (dict_set (value r)
                    (RolesKeysInput_to_dict (scrub_offline (roles (SETTINGS w) r)))
                    json_roles) w1)
      as (json_roles' & w' & -> & Hans' & Hlog' & Hserv' & Hroles' & Hin' & Hout').
    exists json_roles', w'. split; [done|].
    assert (∀ r', scrub_offline (roles (SETTINGS w1) r') =
                  scrub_offline (roles (SETTINGS w) r')) as Hscrub.
    { intros r'. rewrite Hroles. case_decide; [apply scrub_offline_idemp|done]. }
    split_and!; try congruence.
    + intros r'. rewrite Hroles'. destruct (decide (r' ∈ rs)) as [Hin|Hnin].
      * rewrite !bool_decide_eq_true_2;
          [apply Hscrub|by apply list_elem_of_further|done].
      * rewrite (bool_decide_eq_false_2 (r' ∈ rs)) by done. rewrite Hroles.
        case_decide as Heq.
        -- subst. by rewrite bool_decide_eq_true_2 by apply list_elem_of_here.
        -- rewrite bool_decide_eq_false_2; [done|].
           by intros [?|?]%elem_of_cons.
    + intros r' Hin. destruct (decide (r' ∈ rs)) as [Hin2|Hnin].
      * rewrite Hin' by done. by rewrite Hscrub.
      * rewrite Hout' by done.
        apply elem_of_cons in Hin as [->|?]; [|done].
        apply dict_get_set_eq.
    + intros r' Hnin. apply not_elem_of_cons in Hnin as [Hne Hnin].
      rewrite Hout' by done.
      apply dict_get_set_ne. by intros Heq%value_inj.
Qed.

Lemma payload_add_roles_cons r rs json_settings (w : World) :
  payload_add_roles (r :: rs) json_settings w =
  match payload_add_role r json_settings w with
  | Returned json_settings' w' => payload_add_roles rs json_settings' w'
  | Raised e w' => Raised e w'
  | AwaitingInput w' => AwaitingInput w'
  | OutOfFuel w' => OutOfFuel w'
  end.
Proof. reflexivity. Qed.

(** The payload of lines 465-481: it is always built; it holds, for
    every role, the serialised settings of the role with the keys of an
    offline role cleared, and [SETTINGS] itself loses those keys. *)
Lemma ceremony_payload_spec (w : World) :
  ∃ json_roles w',
    ceremony_payload w =
      Returned
        (PDict [("settings",
                 PDict [("service", ServiceSettings_to_dict (service (SETTINGS w)));
                        ("roles", PDict json_roles)]);
                ("metadata", PDict (initialize_metadata (roles (SETTINGS w))))])
        w' ∧
    answers w' = answers w ∧ log w' = log w ∧
    service (SETTINGS w') = service (SETTINGS w) ∧
    (∀ r, roles (SETTINGS w') r = scrub_offline (roles (SETTINGS w) r)) ∧
    (∀ r, dict_get (value r) json_roles =
          Some (RolesKeysInput_to_dict (scrub_offline (roles (SETTINGS w) r)))).
Proof.
  unfold ceremony_payload, the_settings, all_roles, mbind, M_bind, mret, M_ret.
  rewrite payload_add_roles_cons.
  set (s := ServiceSettings_to_dict (service (SETTINGS w))).
  destruct (payload_add_role_first ROOT s w)
    as (w1 & -> & Hans & Hlog & Hserv & Hroles).
  destruct (payload_add_roles_next [TARGETS; SNAPSHOT; TIMESTAMP; BIN; BINS] s
              (dict_set (value ROOT)
                 (RolesKeysInput_to_dict (scrub_offline (roles (SETTINGS w) ROOT)))
                 []) w1)
    as (json_roles & w' & -> & Hans' & Hlog' & Hserv' & Hroles' & Hin & Hout).
  exists json_roles, w'. split; [done|]. split_and!; try congruence.
  - intros r. rewrite Hroles', Hroles. by destruct r.
  - intros r. destruct (decide (r = ROOT)) as [->|Hne].
    + rewrite Hout; [apply dict_get_set_eq|].
      intros Hin'. repeat (apply elem_of_cons in Hin' as [?|Hin']; [done|]).
      by apply elem_of_nil in Hin'.
    + rewrite Hin, Hroles; [by rewrite decide_False|]. destruct r; try done;
        repeat first [apply list_elem_of_here|apply list_elem_of_further].
Qed.

Lemma dict_get_fmap {A} (f : A → pyval) (l : list (string * A)) name x :
  NoDup l.*1 → (name, x) ∈ l →
  dict_get name (prod_map id f <$> l) = Some (f x).
Proof.
  induction l as [|[n y] l IH]; simpl; intros Hnd Hin.
  - by apply elem_of_nil in Hin.
  - apply NoDup_cons in Hnd as [Hnin Hnd].
    apply elem_of_cons in Hin as [Heq|Hin].
    + simplify_eq. by rewrite String.eqb_refl.
    + destruct (String.eqb name n) eqn:Heq; [|by apply IH].
      apply String.eqb_eq in Heq as ->. exfalso. apply Hnin.
      apply list_elem_of_fmap. by exists (n, x).
Qed.

(** Every record of a keys mapping is in its serialisation, under its
    slot, with its three fields. *)
Lemma item_keys_to_dict (ks : gmap string KeyRecord) slot x :
  ks !! slot = Some x →
  item slot (keys_to_dict ks) = Some (KeyRecord_to_dict x).
Proof.
  intros Hx. unfold keys_to_dict, item. apply dict_get_fmap.
  - apply NoDup_fst_map_to_list.
  - by apply elem_of_map_to_list.
Qed.

Lemma keys_to_dict_empty : keys_to_dict ∅ = PDict [].
Proof. unfold keys_to_dict. by rewrite map_to_list_empty. Qed.

Lemma holds_secret_strings (l : list string) :
  holds_secret (PList (PStr <$> l)) = false.
Proof. simpl. induction l as [|s l IH]; simpl; [done|apply IH]. Qed.

(** The serialised settings of a role without keys hold no key and no
    password. *)
Lemma holds_secret_no_keys (x : RolesKeysInput) :
  keys x = ∅ → holds_secret (RolesKeysInput_to_dict x) = false.
Proof.
  intros Hk. unfold RolesKeysInput_to_dict. rewrite Hk, keys_to_dict_empty.
  cbn -[holds_secret]. cbn [holds_secret existsb fst snd].
  destruct (paths x) as [l|]; destruct (number_hash_prefixes x); simpl;
    rewrite ?orb_false_r; try done;
    by pose proof (holds_secret_strings l) as Hl; simpl in Hl.
Qed.

(** [o[name]] for an [o] that was itself looked up. *)
Definition under (name : string) (o : option pyval) : option pyval :=
  match o with Some v => item name v | None => None end.

(** [payload["settings"]["roles"][role.value]] *)
Definition payload_role (json_payload : pyval) (r : Roles) : option pyval :=
  under (value r) (under "roles" (item "settings" json_payload)).

Lemma payload_role_spec (w : World) :
  ∃ json_payload w',
    ceremony_payload w = Returned json_payload w' ∧
    ∀ r, payload_role json_payload r =
         Some (RolesKeysInput_to_dict (scrub_offline (roles (SETTINGS w) r))).
Proof.
  destruct (ceremony_payload_spec w) as (json_roles & w' & -> & _ & _ & _ & _ & Hget).
  eexists _, w'. split; [done|]. intros r.
  unfold payload_role. cbn. apply Hget.
Qed.

Lemma item_keys (x : RolesKeysInput) :
  item "keys" (RolesKeysInput_to_dict x) = Some (keys_to_dict (keys x)).
Proof. done. Qed.

(** C1.  The payload is always built, and for every role it holds the
    role's serialised settings: for a role with [offline_keys] true their
    ["keys"] is the empty dictionary and they hold no key object and no
    password; for a role with [offline_keys] false their ["keys"] is the
    serialised keys mapping, in which every record of the role is found
    under its slot. *)
Theorem offline_keys_scrubbed (w : World) :
  ∃ json_payload w',
    ceremony_payload w = Returned json_payload w' ∧
    ∀ r, ∃ d,
      payload_role json_payload r = Some d ∧
      (offline_keys (roles (SETTINGS w) r) = true →
         item "keys" d = Some (PDict []) ∧ holds_secret d = false) ∧
      (offline_keys (roles (SETTINGS w) r) = false →
         item "keys" d = Some (keys_to_dict (keys (roles (SETTINGS w) r))) ∧
         ∀ slot x, keys (roles (SETTINGS w) r) !! slot = Some x →
                   under slot (item "keys" d) = Some (KeyRecord_to_dict x)).
Proof.
  destruct (payload_role_spec w) as (json_payload & w' & Hp & Hrole).
  exists json_payload, w'. split; [done|]. intros r.
  eexists. split; [apply Hrole|]. unfold scrub_offline. split; intros Hoff;
    rewrite Hoff.
  - split; [cbn; by rewrite keys_to_dict_empty|]. by apply holds_secret_no_keys.
  - split; [done|]. intros slot x Hx. cbn. by apply item_keys_to_dict.
Qed.

Lemma holds_secret_with_key (x : RolesKeysInput) slot k :
  keys x !! slot = Some k → holds_secret (RolesKeysInput_to_dict x) = true.
Proof.
  intros Hk. unfold RolesKeysInput_to_dict.
  cbn [holds_secret existsb fst snd].
  assert (holds_secret (keys_to_dict (keys x)) = true) as ->.
  2:{ cbn. by rewrite ?orb_true_r. }
  unfold keys_to_dict. cbn [holds_secret]. apply existsb_exists.
  exists (slot, KeyRecord_to_dict k). split.
  - apply list_elem_of_In, list_elem_of_fmap. exists (slot, k).
    split; [done|by apply elem_of_map_to_list].
  - cbn. by rewrite orb_true_r.
Qed.

(** C4, as amended.  In the payload the settings of a role with
    [offline_keys] true hold no password and no key object.  The settings
    of a role with [offline_keys] false hold every record of the role,
    and each record carries, under ["password"], the password that was
    typed when its key was loaded. *)
Theorem passwords_in_payload (w : World) :
  ∃ json_payload w',
    ceremony_payload w = Returned json_payload w' ∧
    ∀ r, ∃ d,
      payload_role json_payload r = Some d ∧
      (offline_keys (roles (SETTINGS w) r) = true → holds_secret d = false) ∧
      (offline_keys (roles (SETTINGS w) r) = false →
         ∀ slot x, keys (roles (SETTINGS w) r) !! slot = Some x →
           under "password" (under slot (item "keys" d)) =
             Some (PStr (password x)) ∧
           holds_secret d = true).
Proof.
  destruct (payload_role_spec w) as (json_payload & w' & Hp & Hrole).
  exists json_payload, w'. split; [done|]. intros r.
  eexists. split; [apply Hrole|]. unfold scrub_offline. split; intros Hoff;
    rewrite Hoff.
  - by apply holds_secret_no_keys.
  - intros slot x Hx. split; [|by eapply holds_secret_with_key].
    rewrite item_keys. cbn [under]. by rewrite (item_keys_to_dict _ _ _ Hx).
Qed.

(** What [_configure_keys_loop] stores for an accepted key: the password
    as typed (lines 302-306). *)
Lemma stored_password r slot filename password k (settings : PayloadSettings) :
  keys (roles (store_key r slot (mkKeyRecord filename password k) settings) r)
    !! slot = Some (mkKeyRecord filename password k).
Proof. rewrite keys_store_key. apply lookup_insert_eq. Qed.

(** C10.  A number of keys of zero or less is taken as it is: the first
    part of [_configure_role] returns with that number, threshold 1 and no
    keys, and when [_configure_role] has returned with such a number the
    operator typed it; [_configure_keys] then returns at once, asking
    nothing and changing nothing; and the payload holds the role with that
    number and an empty ["keys"]. *)
Theorem nonpositive_number_of_keys (r : Roles) :
  (∀ (w : World) z a1 rest,
      z ≤ 0 → answers w = a1 :: AnInt z :: rest →
      is_Some (int_answer 0 a1) →
      ∃ w', configure_role_basics default_settings r w = Returned () w' ∧
            num_of_keys (roles (SETTINGS w') r) = z ∧
            threshold (roles (SETTINGS w') r) = 1 ∧
            keys (roles (SETTINGS w') r) = ∅ ∧
            answers w' = rest) ∧
  (∀ (w : World) u w',
      _configure_role r w = Returned u w' →
      num_of_keys (roles (SETTINGS w') r) ≤ 0 →
      threshold (roles (SETTINGS w') r) = 1 ∧
      keys (roles (SETTINGS w') r) = ∅ ∧
      ∃ a1 rest,
        answers w = a1 :: AnInt (num_of_keys (roles (SETTINGS w') r)) :: rest) ∧
  (∀ w : World,
      num_of_keys (roles (SETTINGS w) r) ≤ 0 →
      _configure_keys r w = Returned () w) ∧
  (∀ w : World,
      keys (roles (SETTINGS w) r) = ∅ →
      ∃ json_payload w' d,
        ceremony_payload w = Returned json_payload w' ∧
        payload_role json_payload r = Some d ∧
        item "keys" d = Some (PDict []) ∧
        item "num_of_keys" d = Some (PInt (num_of_keys (roles (SETTINGS w) r)))).
Proof.
  split_and!.
  - intros [settings ans lg] z a1 rest Hz Hans [e He]. simpl in Hans. subst ans.
    unfold configure_role_basics, IntPrompt_ask, console_print, emit, ask,
      update_role, the_role, refused, pass, raise, mbind, M_bind, mret, M_ret.
    destruct a1; try done; cbn -[with_role].
    all: rewrite roles_with_role_eq; cbn -[with_role].
    all: rewrite bool_decide_eq_false_2 by lia; cbn -[with_role].
    all: eexists; split; [reflexivity|]; cbn -[with_role].
    all: by rewrite !roles_with_role_eq.
  - intros w u w' Hres Hn.
    destruct (_configure_role_from_spec default_settings r w)
      as (new & _ & _ & Hkeys & _ & _ & _ & Hret).
    specialize (Hret u w' Hres) as (a1 & a2 & rest & Hans & _ & Ha2 & Hth).
    unfold _configure_role in Hres. rewrite Hres in Hkeys, Ha2, Hth.
    simpl in Hkeys, Ha2, Hth.
    rewrite bool_decide_eq_false_2 in Hth by lia. destruct Hth as [_ Hth].
    split_and!; try done. exists a1, rest. rewrite Hans.
    destruct a2; simpl in Ha2; simplify_eq; try done.
    exfalso. rewrite <-Ha2 in Hn. by destruct r.
  - intros w Hn. unfold _configure_keys. cbn [_configure_keys_loop].
    unfold mbind, M_bind, the_role. by rewrite bool_decide_eq_false_2 by lia.
  - intros w Hk.
    destruct (payload_role_spec w) as (json_payload & w' & Hp & Hrole).
    exists json_payload, w'. eexists. split; [done|]. split; [apply Hrole|].
    unfold scrub_offline. destruct (offline_keys (roles (SETTINGS w) r)).
    + rewrite item_keys. cbn. by rewrite keys_to_dict_empty.
    + rewrite item_keys, Hk. by rewrite keys_to_dict_empty.
Qed.

(** *** The calls to the server *)

(** The world once the program has sent one request and done nothing
    else: no question was put and no answer taken. *)
Definition after_request (w : World) (method : Methods.t) (url : string)
    (payload : option pyval) : World :=
  mkWorld (SETTINGS w) (answers w) (log w ++ [Requested method url payload]).

(** C7.  With a server given, the ceremony first asks for the bootstrap
    status and ends at once, with a Click exception and before any message
    or question, when no connection is made, when the status is not 200,
    and when the body of a 200 reply has ["bootstrap"] true; then the
    text of the exception is that of the reply's ["message"]. *)
Theorem precheck_is_fatal (server : option string) (s : string) (w : World) :
  supplied server = Some s →
  let url := s +:+ "/" +:+ "api/v1/bootstrap/" in
  let w' := after_request w Methods.get url None in
  (server_reply Methods.get url None = None →
     ceremony server w =
       Raised (ClickException ("Failed to connect to " +:+ s)) w') ∧
  (∀ response,
     server_reply Methods.get url None = Some response →
     status_code response ≠ 200 →
     ceremony server w =
       Raised (ClickException
                 ("Error: " +:+ pretty (status_code response) +:+ " | " +:+
                  text response)) w') ∧
  (∀ response json_response,
     server_reply Methods.get url None = Some response →
     status_code response = 200 →
     response_json response = Some (JObject json_response) →
     json_response !! "bootstrap" = Some (JBool true) →
     ceremony server w =
       Raised (ClickException (py_str (json_response !! "message"))) w' ∧
     ∀ message, json_response !! "message" = Some (JString message) →
                py_str (json_response !! "message") = message).
Proof.
  intros Hs url w'. subst url w'.
  unfold ceremony, ceremony_precheck. rewrite Hs.
  unfold except_ConnectionError, _request_server, emit, raise, mbind, M_bind,
    mret, M_ret, after_request.
  split_and!.
  - intros ->. done.
  - intros response -> Hstatus. cbn. by rewrite bool_decide_eq_true_2.
  - intros response json_response -> Hstatus Hjson Hboot. cbn.
    rewrite bool_decide_eq_false_2 by (by intros ?).
    rewrite Hjson, bool_decide_eq_true_2 by done. split; [done|].
    by intros message ->.
Qed.

(** C8.  With a server given, a reply to the submission whose status is
    not 201 ends the ceremony with a Click exception whose text is the
    reply's body, after that one request; this holds of the submission on
    its own and of the whole ceremony.  With no server given, neither the
    status check nor the submission does anything, and the ceremony is
    the operator's part followed by the building of the payload. *)
Theorem submission_is_fatal_or_skipped (server : option string) :
  (∀ s (w : World) json_payload response,
     supplied server = Some s →
     let url := s +:+ "/" +:+ "api/v1/bootstrap" in
     server_reply Methods.post url (Some json_payload) = Some response →
     status_code response ≠ 201 →
     ceremony_submit server json_payload w =
       Raised (ClickException (text response))
         (after_request w Methods.post url (Some json_payload))) ∧
  (∀ s (w w0 w1 w2 : World) json_payload response,
     supplied server = Some s →
     let url := s +:+ "/" +:+ "api/v1/bootstrap" in
     ceremony_precheck server w = Returned () w0 →
     ceremony_steps w0 = Returned () w1 →
     ceremony_payload w1 = Returned json_payload w2 →
     server_reply Methods.post url (Some json_payload) = Some response →
     status_code response ≠ 201 →
     ceremony server w =
       Raised (ClickException (text response))
         (after_request w2 Methods.post url (Some json_payload))) ∧
  (supplied server = None →
     ∀ w : World,
       ceremony_precheck server w = Returned () w ∧
       (∀ json_payload, ceremony_submit server json_payload w = Returned () w) ∧
       ceremony server w =
         match ceremony_steps w with
         | Returned _ w1 =>
             match ceremony_payload w1 with
             | Returned _ w2 => Returned () w2
             | Raised e w2 => Raised e w2
             | AwaitingInput w2 => AwaitingInput w2
             | OutOfFuel w2 => OutOfFuel w2
             end
         | Raised e w1 => Raised e w1
         | AwaitingInput w1 => AwaitingInput w1
         | OutOfFuel w1 => OutOfFuel w1
         end).
Proof.
  assert (∀ s (w : World) json_payload response,
     supplied server = Some s →
     server_reply Methods.post (s +:+ "/" +:+ "api/v1/bootstrap")
       (Some json_payload) = Some response →
     status_code response ≠ 201 →
     ceremony_submit server json_payload w =
       Raised (ClickException (text response))
         (after_request w Methods.post (s +:+ "/" +:+ "api/v1/bootstrap")
            (Some json_payload))) as Hsubmit.
  { intros s w json_payload response Hs Hreply Hstatus.
    unfold ceremony_submit. rewrite Hs.
    unfold _request_server, emit, raise, mbind, M_bind, mret, M_ret.
    rewrite Hreply. cbn. by rewrite bool_decide_eq_true_2. }
  split_and!.
  - intros s w json_payload response Hs url. by apply Hsubmit.
  - intros s w w0 w1 w2 json_payload response Hs url Hpre Hsteps Hpay Hreply Hst.
    unfold ceremony, mbind, M_bind. rewrite Hpre, Hsteps, Hpay.
    by apply Hsubmit.
  - intros Hs w. unfold ceremony, ceremony_precheck, ceremony_submit.
    rewrite Hs. unfold mbind, M_bind, pass, mret, M_ret. split_and!; done.
Qed.

Lemma returned_unit (res : Result ()) :
  returned res = true → res = Returned () (world_of res).
Proof. by destruct res as [[] ?| | |]. Qed.

(** ** Beyond the single functions: what a run keeps *)

Definition is_request (e : Event) : bool :=
  match e with Requested _ _ _ => true | _ => false end.

(** The requests in a log, in order. *)
Definition requests (events : list Event) : list Event :=
  List.filter is_request events.

(** [m] keeps [R] between the world it starts in and the world it ends
    in, however it ends. *)
Definition preserves {A} (R : World → World → Prop) (m : M A) : Prop :=
  ∀ w, R w (world_of (m w)).

(** A relation between worlds that holds across a question and across a
    message; it is kept by whatever consists of questions, messages and
    steps that keep it. *)
Class Frame (R : World → World → Prop) := {
  frame_preorder :: PreOrder R;
  frame_ask : ∀ q, preserves R (ask q);
  frame_print : ∀ m, preserves R (console_print m)
}.

Lemma preserves_bind {A B} R `{!PreOrder R} (m : M A) (f : A → M B) :
  preserves R m → (∀ a, preserves R (f a)) → preserves R (m ≫= f).
Proof.
  intros Hm Hf w. specialize (Hm w). unfold mbind, M_bind.
  destruct (m w) as [a w'| | |]; simpl in *; try done.
  by etrans; [|apply Hf].
Qed.

Lemma preserves_same_world {A} R `{!PreOrder R} (m : M A) :
  (∀ w, world_of (m w) = w) → preserves R m.
Proof. intros Hm w. by rewrite Hm. Qed.

Lemma requests_snoc_shown events m : requests (events ++ [Shown m]) = requests events.
Proof. unfold requests. rewrite List.filter_app. cbn. apply app_nil_r. Qed.

Lemma requests_snoc_asked events q : requests (events ++ [Asked q]) = requests events.
Proof. unfold requests. rewrite List.filter_app. cbn. apply app_nil_r. Qed.

(** A preorder that only looks at [SETTINGS] and at the requests sent is
    such a relation. *)
Lemma observer_frame R :
  PreOrder R →
  (∀ w w1 w2, R w w1 → SETTINGS w2 = SETTINGS w1 →
              requests (log w2) = requests (log w1) → R w w2) →
  Frame R.
Proof.
  intros Hpre Hobs. split; [done|..].
  - intros q [settings [|a ans] lg]; cbn;
      (eapply Hobs; [reflexivity|done|cbn; by rewrite requests_snoc_asked]).
  - intros m [settings ans lg]; cbn.
    eapply Hobs; [reflexivity|done|cbn; by rewrite requests_snoc_shown].
Qed.

Lemma preserves_ask R `{!Frame R} q : preserves R (ask q).
Proof. apply frame_ask. Qed.

Lemma preserves_console_print R `{!Frame R} m : preserves R (console_print m).
Proof. apply frame_print. Qed.

Lemma preserves_mret {A} R `{!Frame R} (a : A) : preserves R (mret a).
Proof. by apply (preserves_same_world R). Qed.

Lemma preserves_pass R `{!Frame R} : preserves R pass.
Proof. by apply (preserves_same_world R). Qed.

Lemma preserves_refused {A} R `{!Frame R} : preserves R (@refused A).
Proof. by apply (preserves_same_world R). Qed.

Lemma preserves_raise {A} R `{!Frame R} e : preserves R (@raise A e).
Proof. by apply (preserves_same_world R). Qed.

Lemma preserves_the_role R `{!Frame R} r : preserves R (the_role r).
Proof. by apply (preserves_same_world R). Qed.

Lemma preserves_the_settings R `{!Frame R} : preserves R the_settings.
Proof. by apply (preserves_same_world R). Qed.

Ltac frame :=
  repeat first
    [ progress intros
    | match goal with
      | |- preserves ?R (mbind _ _) => apply (preserves_bind R)
      | |- preserves ?R (ask _) => apply (preserves_ask R)
      | |- preserves ?R (console_print _) => apply (preserves_console_print R)
      | |- preserves ?R (mret _) => apply (preserves_mret R)
      | |- preserves ?R pass => apply (preserves_pass R)
      | |- preserves ?R refused => apply (preserves_refused R)
      | |- preserves ?R (raise _) => apply (preserves_raise R)
      | |- preserves ?R (the_role _) => apply (preserves_the_role R)
      | |- preserves ?R the_settings => apply (preserves_the_settings R)
      | |- preserves _ (if ?b then _ else _) => destruct b
      | |- preserves _ (match ?x with _ => _ end) => destruct x
      end
    | done ].

Lemma preserves_IntPrompt_ask R `{!Frame R} q d : preserves R (IntPrompt_ask q d).
Proof. unfold IntPrompt_ask. frame. Qed.

Lemma preserves_Prompt_ask R `{!Frame R} q : preserves R (Prompt_ask q).
Proof. unfold Prompt_ask. frame. Qed.

Lemma preserves_Prompt_ask_default R `{!Frame R} q d :
  preserves R (Prompt_ask_default q d).
Proof. unfold Prompt_ask_default. frame. Qed.

Lemma preserves_click_prompt R `{!Frame R} q : preserves R (click_prompt q).
Proof. unfold click_prompt. frame. Qed.

Lemma preserves_Confirm_ask R `{!Frame R} q : preserves R (Confirm_ask q).
Proof. unfold Confirm_ask. frame. Qed.

Lemma preserves_Confirm_ask_default_y R `{!Frame R} q :
  preserves R (Confirm_ask_default_y q).
Proof. unfold Confirm_ask_default_y. frame. Qed.

Lemma preserves_for_each {A} R `{!Frame R} (l : list A) (body : A → M unit) :
  (∀ x, x ∈ l → preserves R (body x)) → preserves R (for_each l body).
Proof.
  induction l as [|x l IH]; intros Hbody; cbn [for_each].
  - by apply (preserves_pass R).
  - apply (preserves_bind R); [apply Hbody, list_elem_of_here|].
    intros _. apply IH. intros y Hy. by apply Hbody, list_elem_of_further.
Qed.

Lemma preserves_load_key R `{!Frame R} filepath password :
  preserves R (_load_key filepath password).
Proof. unfold _load_key. frame. Qed.

Ltac frame_with :=
  repeat first
    [ progress intros
    | match goal with
      | |- preserves ?R (mbind _ _) => apply (preserves_bind R)
      | |- preserves ?R (ask _) => apply (preserves_ask R)
      | |- preserves ?R (console_print _) => apply (preserves_console_print R)
      | |- preserves ?R (mret _) => apply (preserves_mret R)
      | |- preserves ?R pass => apply (preserves_pass R)
      | |- preserves ?R refused => apply (preserves_refused R)
      | |- preserves ?R (raise _) => apply (preserves_raise R)
      | |- preserves ?R (the_role _) => apply (preserves_the_role R)
      | |- preserves ?R the_settings => apply (preserves_the_settings R)
      | |- preserves ?R (IntPrompt_ask _ _) => apply (preserves_IntPrompt_ask R)
      | |- preserves ?R (Prompt_ask _) => apply (preserves_Prompt_ask R)
      | |- preserves ?R (Prompt_ask_default _ _) =>
          apply (preserves_Prompt_ask_default R)
      | |- preserves ?R (click_prompt _) => apply (preserves_click_prompt R)
      | |- preserves ?R (Confirm_ask _) => apply (preserves_Confirm_ask R)
      | |- preserves ?R (Confirm_ask_default_y _) =>
          apply (preserves_Confirm_ask_default_y R)
      | |- preserves ?R (_load_key _ _) => apply (preserves_load_key R)
      | H : ∀ f, preserves ?R (update_role ?r f)
        |- preserves ?R (update_role ?r _) => apply H
      | |- preserves _ (if bool_decide ?P then _ else _) =>
          destruct (bool_decide_reflect P)
      | |- preserves _ (if ?b then _ else _) => destruct b
      | |- preserves _ (match ?x with _ => _ end) => destruct x eqn:?
      end
    | done ].

Lemma preserves_configure_role_basics R `{!Frame R} defaults r :
  (∀ f, preserves R (update_role r f)) →
  preserves R (configure_role_basics defaults r).
Proof. intros Hup. unfold configure_role_basics. frame_with. Qed.

Lemma preserves_configure_role_extras R `{!Frame R} r :
  (∀ f, preserves R (update_role r f)) →
  (r = TARGETS → ∀ url, preserves R (set_targets_base_url url)) →
  preserves R (configure_role_extras r).
Proof.
  intros Hup Hurl. unfold configure_role_extras. frame_with.
  all: by apply Hurl.
Qed.

Lemma preserves_configure_role R `{!Frame R} r :
  (∀ f, preserves R (update_role r f)) →
  (r = TARGETS → ∀ url, preserves R (set_targets_base_url url)) →
  preserves R (_configure_role r).
Proof.
  intros Hup Hurl. unfold _configure_role, _configure_role_from.
  apply (preserves_bind R).
  - by apply preserves_configure_role_basics.
  - intros _. by apply preserves_configure_role_extras.
Qed.

Lemma preserves_configure_keys R `{!Frame R} r :
  (∀ slot x, preserves R
     (update_role r (λ role, set_keys (<[slot := x]> (keys role)) role))) →
  preserves R (_configure_keys r).
Proof.
  intros Hstore.
  assert (∀ fuel kc, preserves R (_configure_keys_loop fuel r kc)) as Hloop.
  { induction fuel as [|fuel IH]; intros kc; cbn [_configure_keys_loop].
    - by apply (preserves_same_world R).
    - frame_with. }
  intros w. apply Hloop.
Qed.

Lemma preserves_show_role_table R `{!Frame R} r : preserves R (show_role_table r).
Proof. unfold show_role_table. frame_with. Qed.

Lemma preserves_review R `{!Frame R} r :
  (∀ f, preserves R (update_role r f)) →
  (r = TARGETS → ∀ url, preserves R (set_targets_base_url url)) →
  preserves R (review r).
Proof.
  intros Hup Hurl.
  assert (∀ fuel, preserves R (review_loop fuel r)) as Hloop.
  { induction fuel as [|fuel IH]; cbn [review_loop].
    - by apply (preserves_same_world R).
    - apply (preserves_bind R); [apply preserves_show_role_table, _|].
      intros _. apply (preserves_bind R); [apply preserves_Confirm_ask, _|].
      intros []; cbn [negb]; [by apply (preserves_pass R)|].
      apply (preserves_bind R); [by apply preserves_configure_role|].
      intros _. apply (preserves_bind R);
        [apply (preserves_configure_keys R); intros; apply Hup|].
      done. }
  intros w. apply Hloop.
Qed.

Lemma preserves_ceremony_steps R `{!Frame R} :
  (∀ r f, preserves R (update_role r f)) →
  (∀ url, preserves R (set_targets_base_url url)) →
  preserves R ceremony_steps.
Proof.
  intros Hup Hurl. unfold ceremony_steps.
  apply (preserves_bind R); [apply preserves_console_print, _|]. intros _.
  apply (preserves_bind R); [apply preserves_Confirm_ask, _|].
  intros []; cbn [negb]; [|by apply (preserves_raise R)].
  apply (preserves_bind R); [apply preserves_console_print, _|]. intros _.
  apply (preserves_bind R).
  { apply preserves_for_each; [apply _|]. intros r _.
    by apply preserves_configure_role. }
  intros _.
  apply (preserves_bind R); [apply preserves_console_print, _|]. intros _.
  apply (preserves_bind R); [apply preserves_Confirm_ask, _|].
  intros []; cbn [negb]; [|by apply (preserves_raise R)].
  apply (preserves_bind R).
  { apply preserves_for_each; [apply _|]. intros r _.
    apply (preserves_configure_keys R). intros. apply Hup. }
  intros _.
  apply (preserves_bind R); [apply preserves_console_print, _|]. intros _.
  apply preserves_for_each; [apply _|]. intros r _. by apply preserves_review.
Qed.

(** Every role but [r] is as it was. *)
Definition only_role (r : Roles) (w w' : World) : Prop :=
  ∀ r', r' ≠ r → roles (SETTINGS w') r' = roles (SETTINGS w) r'.

#[global] Instance only_role_frame r : Frame (only_role r).
Proof.
  apply observer_frame; [split|].
  - by intros w r' _.
  - intros w1 w2 w3 H12 H23 r' Hne. by rewrite H23, H12.
  - intros w w1 w2 H1 Hs _ r' Hne. by rewrite Hs, H1.
Qed.

(** The service settings are as they were. *)
Definition same_service (w w' : World) : Prop :=
  service (SETTINGS w') = service (SETTINGS w).

#[global] Instance same_service_frame : Frame same_service.
Proof.
  unfold same_service. apply observer_frame; [split|].
  - by intros w.
  - intros w1 w2 w3 H12 H23. by rewrite H23, H12.
  - intros w w1 w2 H1 Hs _. by rewrite Hs, H1.
Qed.

(** No request went out. *)
Definition nothing_sent (w w' : World) : Prop :=
  requests (log w') = requests (log w).

#[global] Instance nothing_sent_frame : Frame nothing_sent.
Proof.
  unfold nothing_sent. apply observer_frame; [split|].
  - by intros w.
  - intros w1 w2 w3 H12 H23. by rewrite H23, H12.
  - intros w w1 w2 H1 _ Hl. by rewrite Hl, H1.
Qed.

Lemma update_role_only_role r f : preserves (only_role r) (update_role r f).
Proof. intros w r' Hne. cbn. by rewrite decide_False. Qed.

Lemma set_targets_base_url_only_role r url :
  preserves (only_role r) (set_targets_base_url url).
Proof. by intros w r' Hne. Qed.

Lemma update_role_same_service r f : preserves same_service (update_role r f).
Proof. by intros w. Qed.

Lemma update_role_nothing_sent r f : preserves nothing_sent (update_role r f).
Proof. by intros w. Qed.

Lemma set_targets_base_url_nothing_sent url :
  preserves nothing_sent (set_targets_base_url url).
Proof. by intros w. Qed.

(** X1.  Configuring a role, collecting its keys and reviewing it,
    however each ends, leave every other role exactly as it was: its
    numbers, its keys, its paths. *)
Theorem other_roles_untouched (r r' : Roles) (w : World) :
  r' ≠ r →
  roles (SETTINGS (world_of (_configure_role r w))) r' = roles (SETTINGS w) r' ∧
  roles (SETTINGS (world_of (_configure_keys r w))) r' = roles (SETTINGS w) r' ∧
  roles (SETTINGS (world_of (review r w))) r' = roles (SETTINGS w) r'.
Proof.
  intros Hne. split_and!.
  - apply (preserves_configure_role (only_role r) r); [|intros _|done].
    + apply update_role_only_role.
    + apply set_targets_base_url_only_role.
  - apply (preserves_configure_keys (only_role r) r); [|done].
    intros. apply update_role_only_role.
  - apply (preserves_review (only_role r) r); [|intros _|done].
    + apply update_role_only_role.
    + apply set_targets_base_url_only_role.
Qed.

(** X2.  The base URL of the service settings changes only while targets
    is configured: configuring or reviewing any other role, and
    collecting the keys of any role, leave it as it was. *)
Theorem base_url_only_set_for_targets (r : Roles) (w : World) :
  service (SETTINGS (world_of (_configure_keys r w))) = service (SETTINGS w) ∧
  (r ≠ TARGETS →
   service (SETTINGS (world_of (_configure_role r w))) = service (SETTINGS w) ∧
   service (SETTINGS (world_of (review r w))) = service (SETTINGS w)).
Proof.
  split.
  - apply (preserves_configure_keys same_service r).
    intros. apply update_role_same_service.
  - intros Hne. split.
    + apply (preserves_configure_role same_service r); [|done].
      apply update_role_same_service.
    + apply (preserves_review same_service r); [|done].
      apply update_role_same_service.
Qed.

(** The operator's part sends nothing. *)
Lemma ceremony_steps_nothing_sent : preserves nothing_sent ceremony_steps.
Proof.
  apply preserves_ceremony_steps; [apply _|..].
  - intros r f. apply update_role_nothing_sent.
  - apply set_targets_base_url_nothing_sent.
Qed.

Lemma requests_snoc_requested events method url payload :
  requests (events ++ [Requested method url payload]) =
  requests events ++ [Requested method url payload].
Proof. unfold requests. by rewrite List.filter_app. Qed.

Lemma ceremony_precheck_requests server s (w : World) :
  supplied server = Some s →
  requests (log (world_of (ceremony_precheck server w))) =
  requests (log w) ++
    [Requested Methods.get (s +:+ "/" +:+ "api/v1/bootstrap/") None].
Proof.
  intros Hs. unfold ceremony_precheck. rewrite Hs.
  unfold except_ConnectionError, _request_server, emit, raise, pass, mbind,
    M_bind, mret, M_ret.
  destruct (server_reply _ _ _) as [response|]; cbn;
    [|apply requests_snoc_requested].
  case_bool_decide; cbn; [apply requests_snoc_requested|].
  destruct (response_json response) as [[json_response|]|]; cbn;
    [|apply requests_snoc_requested..].
  case_bool_decide; cbn; apply requests_snoc_requested.
Qed.

Lemma ceremony_submit_requests server s json_payload (w : World) :
  supplied server = Some s →
  requests (log (world_of (ceremony_submit server json_payload w))) =
  requests (log w) ++
    [Requested Methods.post (s +:+ "/" +:+ "api/v1/bootstrap")
       (Some json_payload)].
Proof.
  intros Hs. unfold ceremony_submit. rewrite Hs.
  unfold _request_server, emit, raise, console_print, emit, mbind, M_bind,
    mret, M_ret.
  destruct (server_reply _ _ _) as [response|]; cbn;
    [|apply requests_snoc_requested].
  case_bool_decide; cbn; [apply requests_snoc_requested|].
  by rewrite requests_snoc_shown, requests_snoc_requested.
Qed.

(** X3.  What a ceremony sends, however it ends: the status request when
    a server is given, and after it either nothing or the one submission;
    and the submission is sent only when the status check and the
    operator's part have returned, with the payload built from the
    settings as the operator's part left them. *)
Theorem submission_is_all_or_nothing (server : option string) (w : World) :
  let sent_now := requests (log (world_of (ceremony server w))) in
  let status_check :=
    match supplied server with
    | Some s =>
        [Requested Methods.get (s +:+ "/" +:+ "api/v1/bootstrap/") None]
    | None => []
    end in
  sent_now = requests (log w) ++ status_check ∨
  ∃ s w0 w1 json_payload w2,
    supplied server = Some s ∧
    ceremony_precheck server w = Returned () w0 ∧
    ceremony_steps w0 = Returned () w1 ∧
    ceremony_payload w1 = Returned json_payload w2 ∧
    sent_now =
      requests (log w) ++ status_check ++
        [Requested Methods.post (s +:+ "/" +:+ "api/v1/bootstrap")
           (Some json_payload)].
Proof.
  cbv zeta. unfold ceremony, mbind, M_bind.
  assert (requests (log (world_of (ceremony_precheck server w))) =
          requests (log w) ++
            match supplied server with
            | Some s =>
                [Requested Methods.get (s +:+ "/" +:+ "api/v1/bootstrap/") None]
            | None => []
            end) as Hpre.
  { destruct (supplied server) as [s|] eqn:Hs.
    - by apply ceremony_precheck_requests.
    - unfold ceremony_precheck. rewrite Hs. cbn. by rewrite app_nil_r. }
  destruct (ceremony_precheck server w) as [[] w0| | |] eqn:Hprecheck;
    simpl in *; try by left.
  pose proof (ceremony_steps_nothing_sent w0) as Hsteps.
  unfold nothing_sent in Hsteps.
  destruct (ceremony_steps w0) as [[] w1| | |] eqn:Hst; simpl in *;
    try (left; congruence).
  destruct (ceremony_payload_spec w1)
    as (json_roles & w2 & Hpay & _ & Hlog & _).
  rewrite Hpay.
  destruct (supplied server) as [s|] eqn:Hs.
  - right. eexists s, w0, w1, _, w2. split_and!; try done.
    rewrite (ceremony_submit_requests server s) by done.
    rewrite Hlog, Hsteps, Hpre. by rewrite <-app_assoc.
  - left. unfold ceremony_submit. rewrite Hs. cbn. congruence.
Qed.

(** The answers left are among those there were: none is put back. *)
Definition answers_shrink (w w' : World) : Prop :=
  (length (answers w') ≤ length (answers w))%nat.

#[global] Instance answers_shrink_frame : Frame answers_shrink.
Proof.
  unfold answers_shrink. split; [split|..].
  - intros w. lia.
  - intros w1 w2 w3 ??. lia.
  - intros q [settings [|a ans] lg]; cbn; lia.
  - intros m [settings ans lg]. cbn. lia.
Qed.

Lemma update_role_answers_shrink r f : preserves answers_shrink (update_role r f).
Proof. intros w. unfold answers_shrink. cbn. lia. Qed.

Lemma set_targets_base_url_answers_shrink url :
  preserves answers_shrink (set_targets_base_url url).
Proof. intros w. unfold answers_shrink. cbn. lia. Qed.

(** [m] is left by [return] or waits for the operator: it raises
    nothing. *)
Definition calm {A} (m : M A) : Prop :=
  ∀ w, match m w with
       | Raised _ _ | OutOfFuel _ => False
       | _ => True
       end.

Lemma calm_bind {A B} (m : M A) (f : A → M B) :
  calm m → (∀ a, calm (f a)) → calm (m ≫= f).
Proof.
  intros Hm Hf w. specialize (Hm w). unfold mbind, M_bind.
  destruct (m w) as [a w'| | |]; try done. apply Hf.
Qed.

Lemma calm_ask q : calm (ask q).
Proof. by intros [settings [|a ans] lg]. Qed.

Ltac calm_steps :=
  repeat first
    [ progress intros
    | match goal with
      | |- calm (mbind _ _) => apply calm_bind
      | |- calm (ask _) => apply calm_ask
      | |- calm (if bool_decide ?P then _ else _) =>
          destruct (bool_decide_reflect P)
      | |- calm (if ?b then _ else _) => destruct b
      | |- calm (match ?x with _ => _ end) => destruct x
      end
    | by intros ? ].

Lemma calm_configure_role defaults r : calm (_configure_role_from defaults r).
Proof.
  unfold _configure_role_from, configure_role_basics, configure_role_extras,
    IntPrompt_ask, Confirm_ask_default_y, click_prompt, Prompt_ask_default.
  calm_steps.
Qed.

(** Every record of every role holds a key. *)
Definition records_have_keys (settings : PayloadSettings) : Prop :=
  ∀ r slot x, keys (roles settings r) !! slot = Some x → ∃ m, key x = Some m.

(** What [_configure_role] establishes for its role, besides the reset of
    the keys. *)
Definition configured (r : Roles) (settings : PayloadSettings) : Prop :=
  let role := roles settings r in
  (num_of_keys role ≤ 1 → threshold role = 1) ∧
  offline_keys role = rs_offline_keys (default_settings r) ∧
  (r = TARGETS →
   paths role ≠ None ∧
   Py.endswith (targets_base_url (service settings)) "/" = true).

(** A role is settled when it is configured and holds as many keys as
    its number of keys says (none when that number is negative). *)
Definition settled (r : Roles) (settings : PayloadSettings) : Prop :=
  configured r settings ∧
  Z.of_nat (size (keys (roles settings r))) =
    Z.max 0 (num_of_keys (roles settings r)).

Lemma _configure_role_returned (r : Roles) (w : World) u w' :
  _configure_role r w = Returned u w' →
  keys (roles (SETTINGS w') r) = ∅ ∧ configured r (SETTINGS w').
Proof.
  intros Hres.
  destruct (_configure_role_from_spec default_settings r w)
    as (new & _ & _ & Hkeys & Hoff & _ & _ & Hret).
  specialize (Hret u w' Hres) as (a1 & a2 & rest & _ & _ & _ & Hth).
  unfold _configure_role in Hres. rewrite Hres in Hkeys, Hoff, Hth.
  simpl in Hkeys, Hoff, Hth. split; [done|]. unfold configured. split_and!.
  - intros Hn. rewrite bool_decide_eq_false_2 in Hth by lia. by destruct Hth.
  - done.
  - intros ->. unfold _configure_role_from, mbind, M_bind in Hres.
    destruct (configure_role_basics default_settings TARGETS w)
      as [[] w1| | |]; try done.
    destruct (configure_role_extras_spec TARGETS w1)
      as (_ & _ & _ & _ & _ & _ & Hret').
    destruct (Hret' u w' Hres eq_refl)
      as (a & url & a' & _ & _ & Hurl & input_paths & _ & Hpaths).
    rewrite Hurl, Hpaths. split; [done|apply with_trailing_slash_ends].
Qed.

(** [_configure_role] empties one keys mapping and touches no other, so
    it brings no key into a second record and no record without a key. *)
Lemma _configure_role_sound (r : Roles) (w : World) :
  no_key_twice (SETTINGS w) ∧ records_have_keys (SETTINGS w) →
  no_key_twice (SETTINGS (world_of (_configure_role r w))) ∧
  records_have_keys (SETTINGS (world_of (_configure_role r w))).
Proof.
  intros [Hno Hrec].
  destruct (_configure_role_from_spec default_settings r w)
    as (new & _ & _ & Hkeys & _ & Hsame & _ & _).
  fold (_configure_role r) in Hkeys, Hsame.
  set (w' := world_of (_configure_role r w)) in *.
  assert (∀ r' slot x, keys (roles (SETTINGS w') r') !! slot = Some x →
                       r' ≠ r ∧ keys (roles (SETTINGS w) r') !! slot = Some x)
    as Hold.
  { intros r' slot x Hx. destruct (decide (r' = r)) as [->|Hne].
    - by rewrite Hkeys, lookup_empty in Hx.
    - destruct (Hsame r' Hne) as (_ & _ & _ & Hk & _). by rewrite <-Hk. }
  split.
  - intros r1 s1 x1 r2 s2 x2 m H1 H2 Hk1 Hk2.
    apply Hold in H1 as [_ H1]. apply Hold in H2 as [_ H2]. by eapply Hno.
  - intros r' slot x Hx. apply Hold in Hx as [_ Hx]. by eapply Hrec.
Qed.

(** Nothing but keys mappings differs. *)
Definition but_keys (w w' : World) : Prop :=
  service (SETTINGS w') = service (SETTINGS w) ∧
  ∀ r, set_keys ∅ (roles (SETTINGS w') r) = set_keys ∅ (roles (SETTINGS w) r).

#[global] Instance but_keys_frame : Frame but_keys.
Proof.
  unfold but_keys. apply observer_frame; [split|].
  - by intros w.
  - intros w1 w2 w3 [Hs12 H12] [Hs23 H23]. split; [congruence|].
    intros r. by rewrite H23, H12.
  - intros w w1 w2 [Hs1 H1] Hs _. rewrite Hs. by split.
Qed.

Lemma store_key_but_keys r slot x :
  preserves but_keys
    (update_role r (λ role, set_keys (<[slot := x]> (keys role)) role)).
Proof.
  intros w. split; [done|]. intros r'. cbn.
  case_decide; [|done]. by destruct (roles (SETTINGS w) r').
Qed.

Lemma records_have_keys_store_key r slot filepath password m
    (settings : PayloadSettings) :
  records_have_keys settings →
  records_have_keys
    (store_key r slot (mkKeyRecord filepath password (Some m)) settings).
Proof.
  intros Hrec r' s x Hx.
  apply lookup_store_key in Hx as [(-> & -> & ->)|Hx]; [by exists m|].
  by eapply Hrec.
Qed.

(** Key collection for a role without keys, in a world where no key is
    held twice: it returns with the role's keys complete, nothing else
    changed and still no key held twice; or an exception leaves it, its
    own or one of the import; or it waits for the operator. *)
Lemma _configure_keys_settles (r : Roles) (w : World) :
  no_key_twice (SETTINGS w) → records_have_keys (SETTINGS w) →
  keys (roles (SETTINGS w) r) = ∅ →
  match _configure_keys r w with
  | Returned _ w' =>
      no_key_twice (SETTINGS w') ∧ records_have_keys (SETTINGS w') ∧
      Z.of_nat (size (keys (roles (SETTINGS w') r))) =
        Z.max 0 (num_of_keys (roles (SETTINGS w') r)) ∧
      but_keys w w' ∧ only_role r w w' ∧ answers_shrink w w'
  | Raised e _ => leaves_key_collection e
  | AwaitingInput _ => True
  | OutOfFuel _ => False
  end.
Proof.
  intros Hno Hrec Hempty.
  pose proof (_configure_keys_loop_ind r
    (λ s kc, collecting r (num_of_keys (roles (SETTINGS w) r)) s kc ∧
             no_key_twice s ∧ records_have_keys s)) as Hloop.
  specialize (Hloop (λ s kc f p m '(conj Hc (conj Hn Hr)) Hmiss Hd,
    conj (collecting_step r _ s kc f p m Hc Hmiss Hd)
      (conj (no_key_twice_store_key r _ _ p m s Hn Hd)
            (records_have_keys_store_key r _ _ p m s Hr)))).
  specialize (Hloop (S (length (answers w))) w 1 ltac:(lia)
                (conj (collecting_start r _ Hempty) (conj Hno Hrec))).
  fold (_configure_keys r w) in Hloop.
  pose proof (preserves_configure_keys but_keys r (store_key_but_keys r) w)
    as Hbut.
  pose proof (preserves_configure_keys (only_role r) r
                (λ _ _, update_role_only_role r _) w) as Honly.
  pose proof (preserves_configure_keys answers_shrink r
                (λ _ _, update_role_answers_shrink r _) w) as Hans.
  destruct (_configure_keys r w) as [u w'|e w'|w'|w']; simpl in *;
    [|by destruct Hloop|done|done].
  destruct Hloop as [(kc & Hc & Hn & Hr) Hfull].
  split_and!; try done.
  destruct Hc as (Hnum & _ & _ & _ & Hle). unfold keys_missing in Hfull.
  rewrite Hnum in Hfull. destruct Hbut as [_ Hbut].
  assert (num_of_keys (roles (SETTINGS w') r) = num_of_keys (roles (SETTINGS w) r))
    as -> by (by rewrite <-Hnum).
  lia.
Qed.

Lemma but_keys_fields (w w' : World) r :
  but_keys w w' →
  expiration (roles (SETTINGS w') r) = expiration (roles (SETTINGS w) r) ∧
  num_of_keys (roles (SETTINGS w') r) = num_of_keys (roles (SETTINGS w) r) ∧
  threshold (roles (SETTINGS w') r) = threshold (roles (SETTINGS w) r) ∧
  offline_keys (roles (SETTINGS w') r) = offline_keys (roles (SETTINGS w) r) ∧
  paths (roles (SETTINGS w') r) = paths (roles (SETTINGS w) r) ∧
  number_hash_prefixes (roles (SETTINGS w') r) =
    number_hash_prefixes (roles (SETTINGS w) r).
Proof.
  intros [_ Hbut]. specialize (Hbut r).
  destruct (roles (SETTINGS w') r), (roles (SETTINGS w) r).
  unfold set_keys in Hbut. simpl in *. injection Hbut as -> -> -> -> -> ->.
  done.
Qed.

Lemma configured_but_keys (w w' : World) r :
  but_keys w w' → configured r (SETTINGS w) → configured r (SETTINGS w').
Proof.
  intros Hbut. destruct (but_keys_fields w w' r Hbut) as (_ & Hn & Ht & Ho & Hp & _).
  destruct Hbut as [Hs _]. unfold configured. cbn zeta.
  by rewrite Hn, Ht, Ho, Hp, Hs.
Qed.

(** The summary of a role is shown, and nothing else happens, when the
    records of the role hold keys and, for targets, the paths are set. *)
Lemma show_role_table_shows (r : Roles) (w : World) :
  records_have_keys (SETTINGS w) →
  (r = TARGETS → paths (roles (SETTINGS w) r) ≠ None) →
  ∃ table, show_role_table r w =
    Returned () (mkWorld (SETTINGS w) (answers w) (log w ++ [Shown table])).
Proof.
  intros Hrec Hpaths. unfold show_role_table, the_role, mbind, M_bind.
  destruct (existsb _ _) eqn:Hex.
  { exfalso. apply existsb_exists in Hex as (x & Hin & Hx).
    apply list_elem_of_In, list_elem_of_fmap in Hin as ([slot y] & -> & Hin).
    apply elem_of_map_to_list in Hin. apply bool_decide_eq_true in Hx.
    destruct (Hrec r slot y Hin) as [m Hm]. simpl in Hx. congruence. }
  destruct (bool_decide (r = TARGETS) && _) eqn:Hand.
  { exfalso. apply andb_true_iff in Hand as [Hr Hp].
    apply bool_decide_eq_true in Hr, Hp. by apply Hpaths. }
  by eexists.
Qed.

Lemma asks_Confirm_ask q : asks (Confirm_ask q).
Proof.
  intros w. pose proof (asks_ask q w) as Hw.
  unfold Confirm_ask, mbind, M_bind, mret, M_ret, refused.
  destruct (ask q w) as [[]|?|?|?]; tauto.
Qed.

(** The review of a settled role in a world where no key is held twice:
    it returns with the role settled again, or raises the exception of
    key collection, or waits; it never fails on the summary. *)
Lemma review_settles (r : Roles) (w : World) :
  no_key_twice (SETTINGS w) → records_have_keys (SETTINGS w) →
  settled r (SETTINGS w) →
  match review r w with
  | Returned _ w' =>
      no_key_twice (SETTINGS w') ∧ records_have_keys (SETTINGS w') ∧
      settled r (SETTINGS w')
  | Raised e _ => leaves_key_collection e
  | AwaitingInput _ => True
  | OutOfFuel _ => False
  end.
Proof.
  unfold review. generalize (S (length (answers w))) (Nat.lt_succ_diag_r (length (answers w))).
  intros fuel. revert w. induction fuel as [|fuel IH];
    intros w Hfuel Hno Hrec Hset; [lia|].
  cbn [review_loop]. unfold mbind at 1, M_bind at 1.
  destruct (show_role_table_shows r w Hrec) as [table ->].
  { intros Hr. destruct Hset as [(_ & _ & Hp) _]. by apply Hp. }
  unfold mbind, M_bind.
  match goal with |- context [Confirm_ask ?q ?w0] =>
    pose proof (asks_Confirm_ask q w0) as Hask;
    destruct (Confirm_ask q w0) as [[] w2| | |]; try done
  end; simpl in Hask; destruct Hask as [Hs2 Hl2]; cbn [negb].
  { unfold pass, mret, M_ret. by rewrite Hs2. }
  pose proof (calm_configure_role default_settings r w2) as Hcalm.
  pose proof (_configure_role_sound r w2) as Hsound.
  pose proof (preserves_configure_role answers_shrink r
                (update_role_answers_shrink r)
                (λ _, set_targets_base_url_answers_shrink) w2) as Hshrink.
  fold (_configure_role r) in Hcalm.
  destruct (_configure_role r w2) as [u w3| | |] eqn:Hconf; try done.
  apply _configure_role_returned in Hconf as [Hempty Hconf].
  simpl in Hsound, Hshrink. rewrite Hs2 in Hsound.
  destruct (Hsound (conj Hno Hrec)) as [Hno3 Hrec3].
  pose proof (_configure_keys_settles r w3 Hno3 Hrec3 Hempty) as Hkeys.
  destruct (_configure_keys r w3) as [u' w4| | |]; try done.
  destruct Hkeys as (Hno4 & Hrec4 & Hsize & Hbut & _ & Hshrink4).
  apply IH; try done.
  - unfold answers_shrink in *. lia.
  - split; [by eapply configured_but_keys|done].
Qed.

(** A loop over roles, each turn of which needs [Pending] of its role and
    establishes [Post] of it, without disturbing either for the others. *)
Lemma for_each_roles (body : Roles → M unit) (Inv : World → Prop)
    (Pending Post : Roles → World → Prop) (E : Exception → Prop) :
  (∀ r w, Inv w → Pending r w →
     match body r w with
     | Returned _ w' => Inv w' ∧ Post r w'
     | Raised e _ => E e
     | AwaitingInput _ => True
     | OutOfFuel _ => False
     end) →
  (∀ r r' w u w', r' ≠ r → body r w = Returned u w' →
     (Pending r' w → Pending r' w') ∧ (Post r' w → Post r' w')) →
  ∀ l, NoDup l → ∀ (D : Roles → Prop) w,
    Inv w → (∀ r, r ∈ l → Pending r w) →
    (∀ r, D r → (r ∉ l) ∧ Post r w) →
    match for_each l body w with
    | Returned _ w' => Inv w' ∧ ∀ r, (D r ∨ r ∈ l) → Post r w'
    | Raised e _ => E e
    | AwaitingInput _ => True
    | OutOfFuel _ => False
    end.
Proof.
  intros Hbody Hframe l. induction l as [|r l IH]; intros Hnd D w Hinv Hpend HD.
  - cbn. split; [done|]. intros r [Hr|Hr]; [by apply HD|by apply elem_of_nil in Hr].
  - apply NoDup_cons in Hnd as [Hnin Hnd]. cbn [for_each].
    unfold mbind, M_bind.
    specialize (Hbody r w Hinv (Hpend r (list_elem_of_here _ _))).
    destruct (body r w) as [u w1| | |] eqn:Hres; try done.
    destruct Hbody as [Hinv1 Hpost1].
    assert (∀ r', r' ∈ l → Pending r' w1) as Hpend1.
    { intros r' Hr'. apply (Hframe r r' w u w1); [by intros ->|done|].
      by apply Hpend, list_elem_of_further. }
    assert (∀ r', D r' ∨ r' = r → (r' ∉ l) ∧ Post r' w1) as HD1.
    { intros r' [Hr'| ->]; [|done].
      destruct (HD r' Hr') as [Hnin' Hpost'].
      apply not_elem_of_cons in Hnin' as [Hne ?].
      split; [done|]. by apply (Hframe r r' w u w1). }
    specialize (IH Hnd (λ x, D x ∨ x = r) w1 Hinv1 Hpend1 HD1).
    destruct (for_each l body w1) as [u' w'| | |]; try done.
    destruct IH as [Hinv' Hall]. split; [done|].
    intros r' [Hr'|Hr']; [apply Hall; by left; left|].
    apply elem_of_cons in Hr' as [->|Hr']; apply Hall; [by left; right|by right].
Qed.

Lemma NoDup_all_roles : NoDup all_roles.
Proof. compute_done. Qed.

Lemma configured_frame r (s s' : PayloadSettings) :
  roles s' r = roles s r → (r = TARGETS → service s' = service s) →
  configured r s → configured r s'.
Proof.
  intros Hr Hs (Ht & Ho & Hp). unfold configured. cbn zeta. rewrite Hr.
  split_and!; try done. intros ->. rewrite Hs by done. by apply Hp.
Qed.

Lemma settled_frame r (s s' : PayloadSettings) :
  roles s' r = roles s r → (r = TARGETS → service s' = service s) →
  settled r s → settled r s'.
Proof.
  intros Hr Hs [Hc Hk]. split; [by eapply configured_frame|]. by rewrite Hr.
Qed.

(** Step 1 of the ceremony: once every role is configured, no role holds
    a key and every role is configured. *)
Lemma configure_all_roles (w : World) :
  match for_each all_roles _configure_role w with
  | Returned _ w' =>
      ∀ r, keys (roles (SETTINGS w') r) = ∅ ∧ configured r (SETTINGS w')
  | AwaitingInput _ => True
  | _ => False
  end.
Proof.
  assert (∀ r (w : World), True → True →
            match _configure_role r w with
            | Returned _ w' =>
                True ∧ keys (roles (SETTINGS w') r) = ∅ ∧
                configured r (SETTINGS w')
            | Raised _ _ => False
            | AwaitingInput _ => True
            | OutOfFuel _ => False
            end) as Hbody.
  { intros r w0 _ _.
    pose proof (calm_configure_role default_settings r w0) as Hc.
    fold (_configure_role r) in Hc.
    destruct (_configure_role r w0) eqn:Hres; try done.
    split; [done|]. by eapply _configure_role_returned. }
  assert (∀ r r' (w0 : World) u w', r' ≠ r →
            _configure_role r w0 = Returned u w' →
            (True → True) ∧
            (keys (roles (SETTINGS w0) r') = ∅ ∧ configured r' (SETTINGS w0) →
             keys (roles (SETTINGS w') r') = ∅ ∧ configured r' (SETTINGS w')))
    as Hframe.
  { intros r r' w0 u w' Hne Hres. split; [done|]. intros [Hk Hc].
    pose proof (preserves_configure_role (only_role r) r
                  (update_role_only_role r)
                  (λ _, set_targets_base_url_only_role r) w0 r' Hne) as Hsame.
    rewrite Hres in Hsame. simpl in Hsame. split; [by rewrite Hsame|].
    eapply configured_frame; [done| |done]. intros ->.
    pose proof (preserves_configure_role same_service r
                  (update_role_same_service r)
                  (λ Heq, False_ind _ (Hne (eq_sym Heq))) w0) as Hserv.
    by rewrite Hres in Hserv. }
  pose proof (for_each_roles _configure_role (λ _, True) (λ _ _, True)
    (λ r w, keys (roles (SETTINGS w) r) = ∅ ∧ configured r (SETTINGS w))
    (λ _, False) Hbody Hframe all_roles NoDup_all_roles (λ _, False) w I
    (λ _ _, I) (λ _ F, False_ind _ F)) as Hloop.
  destruct (for_each all_roles _configure_role w) as [u w'| | |]; try done.
  intros r. apply Hloop. right. apply all_roles_complete.
Qed.

(** Step 2 of the ceremony: once the keys of every role are collected,
    every role is settled and no key is held twice. *)
Lemma collect_all_keys (w : World) :
  (∀ r, keys (roles (SETTINGS w) r) = ∅ ∧ configured r (SETTINGS w)) →
  match for_each all_roles _configure_keys w with
  | Returned _ w' =>
      (no_key_twice (SETTINGS w') ∧ records_have_keys (SETTINGS w')) ∧
      ∀ r, settled r (SETTINGS w')
  | Raised e _ => leaves_key_collection e
  | AwaitingInput _ => True
  | OutOfFuel _ => False
  end.
Proof.
  intros Hstart.
  assert (∀ r (w0 : World),
            no_key_twice (SETTINGS w0) ∧ records_have_keys (SETTINGS w0) →
            keys (roles (SETTINGS w0) r) = ∅ ∧ configured r (SETTINGS w0) →
            match _configure_keys r w0 with
            | Returned _ w' =>
                (no_key_twice (SETTINGS w') ∧ records_have_keys (SETTINGS w')) ∧
                settled r (SETTINGS w')
            | Raised e _ => leaves_key_collection e
            | AwaitingInput _ => True
            | OutOfFuel _ => False
            end) as Hbody.
  { intros r w0 [Hno Hrec] [Hk Hc].
    pose proof (_configure_keys_settles r w0 Hno Hrec Hk) as Hkeys.
    destruct (_configure_keys r w0) as [u w'| | |]; try done.
    destruct Hkeys as (? & ? & ? & Hbut & _). split; [done|].
    split; [by eapply configured_but_keys|done]. }
  assert (∀ r r' (w0 : World) u w', r' ≠ r →
            _configure_keys r w0 = Returned u w' →
            (keys (roles (SETTINGS w0) r') = ∅ ∧ configured r' (SETTINGS w0) →
             keys (roles (SETTINGS w') r') = ∅ ∧ configured r' (SETTINGS w')) ∧
            (settled r' (SETTINGS w0) → settled r' (SETTINGS w'))) as Hframe.
  { intros r r' w0 u w' Hne Hres.
    pose proof (preserves_configure_keys (only_role r) r
                  (λ _ _, update_role_only_role r _) w0 r' Hne) as Hsame.
    pose proof (preserves_configure_keys same_service r
                  (λ _ _, update_role_same_service r _) w0) as Hserv.
    rewrite Hres in Hsame, Hserv. simpl in Hsame. unfold same_service in Hserv.
    simpl in Hserv. split.
    - intros [Hk Hc]. split; [by rewrite Hsame|by eapply configured_frame].
    - intros Hs. by eapply settled_frame. }
  assert (no_key_twice (SETTINGS w) ∧ records_have_keys (SETTINGS w)) as Hsound.
  { split.
    - intros r1 s1 x1 r2 s2 x2 m H1. destruct (Hstart r1) as [Hk _].
      by rewrite Hk, lookup_empty in H1.
    - intros r slot x Hx. destruct (Hstart r) as [Hk _].
      by rewrite Hk, lookup_empty in Hx. }
  pose proof (for_each_roles _configure_keys
    (λ w, no_key_twice (SETTINGS w) ∧ records_have_keys (SETTINGS w))
    (λ r w, keys (roles (SETTINGS w) r) = ∅ ∧ configured r (SETTINGS w))
    (λ r w, settled r (SETTINGS w))
    leaves_key_collection
    Hbody Hframe all_roles NoDup_all_roles (λ _, False) w Hsound
    (λ r _, Hstart r) (λ _ F, False_ind _ F)) as Hloop.
  destruct (for_each all_roles _configure_keys w) as [u w'| | |]; try done.
  destruct Hloop as [Hs Hall]. split; [done|].
  intros r. apply Hall. right. apply all_roles_complete.
Qed.

(** Step 3 of the ceremony: the reviews keep every role settled. *)
Lemma review_all_roles (w : World) :
  no_key_twice (SETTINGS w) ∧ records_have_keys (SETTINGS w) →
  (∀ r, settled r (SETTINGS w)) →
  match for_each all_roles review w with
  | Returned _ w' =>
      (no_key_twice (SETTINGS w') ∧ records_have_keys (SETTINGS w')) ∧
      ∀ r, settled r (SETTINGS w')
  | Raised e _ => leaves_key_collection e
  | AwaitingInput _ => True
  | OutOfFuel _ => False
  end.
Proof.
  intros Hsound Hstart.
  assert (∀ r (w0 : World),
            no_key_twice (SETTINGS w0) ∧ records_have_keys (SETTINGS w0) →
            settled r (SETTINGS w0) →
            match review r w0 with
            | Returned _ w' =>
                (no_key_twice (SETTINGS w') ∧ records_have_keys (SETTINGS w')) ∧
                settled r (SETTINGS w')
            | Raised e _ => leaves_key_collection e
            | AwaitingInput _ => True
            | OutOfFuel _ => False
            end) as Hbody.
  { intros r w0 [Hno Hrec] Hs.
    pose proof (review_settles r w0 Hno Hrec Hs) as Hrev.
    destruct (review r w0) as [u w'| | |]; try done.
    by destruct Hrev as (? & ? & ?). }
  assert (∀ r r' (w0 : World) u w', r' ≠ r →
            review r w0 = Returned u w' →
            (settled r' (SETTINGS w0) → settled r' (SETTINGS w')) ∧
            (settled r' (SETTINGS w0) → settled r' (SETTINGS w'))) as Hframe.
  { intros r r' w0 u w' Hne Hres.
    pose proof (preserves_review (only_role r) r
                  (update_role_only_role r)
                  (λ _, set_targets_base_url_only_role r) w0 r' Hne) as Hsame.
    rewrite Hres in Hsame. simpl in Hsame.
    assert (settled r' (SETTINGS w0) → settled r' (SETTINGS w')) as Hs; [|done].
    intros Hs. eapply settled_frame; [done| |done]. intros ->.
    pose proof (preserves_review same_service r
                  (update_role_same_service r)
                  (λ Heq, False_ind _ (Hne (eq_sym Heq))) w0) as Hserv.
    by rewrite Hres in Hserv. }
  pose proof (for_each_roles review
    (λ w, no_key_twice (SETTINGS w) ∧ records_have_keys (SETTINGS w))
    (λ r w, settled r (SETTINGS w)) (λ r w, settled r (SETTINGS w))
    leaves_key_collection
    Hbody Hframe all_roles NoDup_all_roles (λ _, False) w Hsound
    (λ r _, Hstart r) (λ _ F, False_ind _ F)) as Hloop.
  destruct (for_each all_roles review w) as [u w'| | |]; try done.
  destruct Hloop as [Hs Hall]. split; [done|].
  intros r. apply Hall. right. apply all_roles_complete.
Qed.

(** The three steps together. *)
Lemma ceremony_steps_settles (w : World) :
  match ceremony_steps w with
  | Returned _ w' =>
      no_key_twice (SETTINGS w') ∧ records_have_keys (SETTINGS w') ∧
      ∀ r, settled r (SETTINGS w')
  | Raised e _ =>
      e = ClickException "Ceremony aborted." ∨ leaves_key_collection e
  | AwaitingInput _ => True
  | OutOfFuel _ => False
  end.
Proof.
  unfold ceremony_steps, mbind, M_bind, console_print, emit.
  match goal with |- context [Confirm_ask ?q ?w0] =>
    pose proof (asks_Confirm_ask q w0) as Hask;
    destruct (Confirm_ask q w0) as [[] w1| | |]; try done
  end; cbn [negb]; [|by left].
  match goal with |- context [for_each all_roles _configure_role ?w0] =>
    pose proof (configure_all_roles w0) as Hconf;
    destruct (for_each all_roles _configure_role w0) as [u w2| | |]; try done
  end.
  match goal with |- context [Confirm_ask ?q ?w0] =>
    pose proof (asks_Confirm_ask q w0) as Hask2;
    destruct (Confirm_ask q w0) as [[] w3| | |]; try done
  end; cbn [negb]; [|by left].
  simpl in Hask2. destruct Hask2 as [Hs3 _].
  pose proof (collect_all_keys w3) as Hkeys. rewrite Hs3 in Hkeys.
  specialize (Hkeys Hconf).
  destruct (for_each all_roles _configure_keys w3) as [u' w4| | |];
    try done; [|by right].
  destruct Hkeys as [Hsound Hall].
  match goal with |- context [for_each all_roles review ?w0] =>
    pose proof (review_all_roles w0 Hsound Hall) as Hrev;
    destruct (for_each all_roles review w0) as [u'' w5| | |]; try done
  end; [|by right].
  by destruct Hrev as [[? ?] ?].
Qed.

(** X4.  The operator's part of the ceremony, from any world: when it
    returns, every role holds exactly as many keys as its number of keys
    says (none when the number is negative), every record holds a key, no
    key material sits in two records of any roles, every role with at
    most one key has threshold 1, the flag [offline_keys] is the default
    of the role, and targets has its paths and a base URL that ends with
    a slash.  What it raises is ["Ceremony aborted."],
    ["Required key not validated."] or an exception that an import raised
    and [_load_key] does not catch; so the summary tables never fail, and
    its loops stop. *)
Theorem ceremony_steps_settle_every_role (w : World) :
  match ceremony_steps w with
  | Returned _ w' =>
      no_key_twice (SETTINGS w') ∧ records_have_keys (SETTINGS w') ∧
      ∀ r, settled r (SETTINGS w')
  | Raised e _ =>
      e = ClickException "Ceremony aborted." ∨
      e = ClickException "Required key not validated." ∨
      ∃ filepath password name,
        import_ed25519_privatekey_from_file filepath password =
          RaisesOther name ∧
        e = Unhandled name
  | AwaitingInput _ => True
  | OutOfFuel _ => False
  end.
Proof. apply ceremony_steps_settles. Qed.

(** How the status check ends: it returns, or it raises after the one
    request, and what it raises tells the reply. *)
Lemma ceremony_precheck_cases (server : option string) (w : World) :
  match ceremony_precheck server w with
  | Returned _ _ => True
  | Raised e w' =>
      ∃ s, supplied server = Some s ∧
           let url := s +:+ "/" +:+ "api/v1/bootstrap/" in
           w' = after_request w Methods.get url None ∧
           match server_reply Methods.get url None with
           | None => e = ClickException ("Failed to connect to " +:+ s)
           | Some response =>
               if bool_decide (status_code response ≠ 200) then
                 e = ClickException
                       ("Error: " +:+ pretty (status_code response) +:+ " | " +:+
                        text response)
               else
                 match response_json response with
                 | None => e = JSONDecodeError
                 | Some JNotObject => e = AttributeError
                 | Some (JObject json_response) =>
                     json_response !! "bootstrap" = Some (JBool true) ∧
                     e = ClickException (py_str (json_response !! "message"))
                 end
           end
  | _ => False
  end.
Proof.
  unfold ceremony_precheck.
  destruct (supplied server) as [s|] eqn:Hs; [|done].
  unfold except_ConnectionError, _request_server, emit, raise, pass, mbind,
    M_bind, mret, M_ret, after_request.
  destruct (server_reply _ _ _) as [response|] eqn:Hreply; cbn.
  2:{ exists s. cbn zeta. by rewrite Hreply. }
  case_bool_decide as Hst; cbn.
  { exists s. cbn zeta. rewrite Hreply. by rewrite bool_decide_eq_true_2. }
  destruct (response_json response) as [[json_response|]|] eqn:Hjson; cbn.
  - case_bool_decide as Hboot; cbn; [|done].
    exists s. cbn zeta. rewrite Hreply, Hjson.
    by rewrite bool_decide_eq_false_2 by (by intros ?).
  - exists s. cbn zeta. rewrite Hreply, Hjson.
    by rewrite bool_decide_eq_false_2 by (by intros ?).
  - exists s. cbn zeta. rewrite Hreply, Hjson.
    by rewrite bool_decide_eq_false_2 by (by intros ?).
Qed.

(** How the submission ends. *)
Lemma ceremony_submit_cases (server : option string) json_payload (w : World) :
  match ceremony_submit server json_payload w with
  | Returned _ _ => True
  | Raised e w' =>
      ∃ s, supplied server = Some s ∧
           let url := s +:+ "/" +:+ "api/v1/bootstrap" in
           w' = after_request w Methods.post url (Some json_payload) ∧
           match server_reply Methods.post url (Some json_payload) with
           | None => e = ConnectionError
           | Some response =>
               status_code response ≠ 201 ∧
               e = ClickException (text response)
           end
  | _ => False
  end.
Proof.
  unfold ceremony_submit.
  destruct (supplied server) as [s|] eqn:Hs; [|done].
  unfold _request_server, emit, raise, console_print, emit, mbind, M_bind,
    mret, M_ret, after_request.
  destruct (server_reply _ _ _) as [response|] eqn:Hreply; cbn.
  - case_bool_decide; cbn; [|done]. exists s. cbn zeta. by rewrite Hreply.
  - exists s. cbn zeta. by rewrite Hreply.
Qed.

(** How a ceremony ends by an exception: in the status check, in the
    operator's part, or in the submission. *)
Lemma ceremony_raised (server : option string) (w : World) e w' :
  ceremony server w = Raised e w' →
  ceremony_precheck server w = Raised e w' ∨
  (∃ w0, ceremony_precheck server w = Returned () w0 ∧
         ceremony_steps w0 = Raised e w') ∨
  (∃ w0 w1 json_payload w2,
     ceremony_precheck server w = Returned () w0 ∧
     ceremony_steps w0 = Returned () w1 ∧
     ceremony_payload w1 = Returned json_payload w2 ∧
     ceremony_submit server json_payload w2 = Raised e w').
Proof.
  intros Hres. unfold ceremony, mbind, M_bind in Hres.
  destruct (ceremony_precheck server w) as [[] v0|e0 v0|v0|v0]; try done;
    [|by left].
  destruct (ceremony_steps v0) as [[] v1|e1 v1|v1|v1] eqn:Hsteps; try done;
    [|right; left; exists v0; split; [done|congruence]].
  destruct (ceremony_payload_spec v1) as (json_roles & v2 & Hpay & _).
  rewrite Hpay in Hres. right; right. by eexists v0, v1, _, v2.
Qed.

(** X5.  The exceptions of ceremony.py's own making that leave a
    ceremony.  A Click exception carries one of six texts: the two of the
    operator's part, the three of the status check (no connection, a status
    other than 200, a body with ["bootstrap"] true) and the body of a
    submission reply whose status is not 201.  When no connection is made
    for the submission, [ConnectionError] itself leaves the ceremony, after
    the operator's whole work: only the status check turns it into a Click
    exception.  A failure to decode the status reply and the
    [AttributeError] of a body that is not an object come from the status
    check, before anything is shown; the summary tables raise neither
    [AttributeError] nor [TypeError].  An exception that passes through
    [_load_key] is one that an import raised.  No loop runs on without the
    operator. *)
Theorem ceremony_exceptions (server : option string) (w : World) :
  (∀ message w',
     ceremony server w = Raised (ClickException message) w' →
     message = "Ceremony aborted." ∨
     message = "Required key not validated." ∨
     ∃ s, supplied server = Some s ∧
       ((server_reply Methods.get (s +:+ "/" +:+ "api/v1/bootstrap/") None =
           None ∧
         message = "Failed to connect to " +:+ s) ∨
        (∃ response,
           server_reply Methods.get (s +:+ "/" +:+ "api/v1/bootstrap/") None =
             Some response ∧
           status_code response ≠ 200 ∧
           message = "Error: " +:+ pretty (status_code response) +:+ " | " +:+
                     text response) ∨
        (∃ response json_response,
           server_reply Methods.get (s +:+ "/" +:+ "api/v1/bootstrap/") None =
             Some response ∧
           status_code response = 200 ∧
           response_json response = Some (JObject json_response) ∧
           json_response !! "bootstrap" = Some (JBool true) ∧
           message = py_str (json_response !! "message")) ∨
        (∃ json_payload response,
           server_reply Methods.post (s +:+ "/" +:+ "api/v1/bootstrap")
             (Some json_payload) = Some response ∧
           status_code response ≠ 201 ∧
           message = text response))) ∧
  (∀ w', ceremony server w = Raised ConnectionError w' →
     ∃ s w0 w1 json_payload w2,
       supplied server = Some s ∧
       ceremony_precheck server w = Returned () w0 ∧
       ceremony_steps w0 = Returned () w1 ∧
       ceremony_payload w1 = Returned json_payload w2 ∧
       server_reply Methods.post (s +:+ "/" +:+ "api/v1/bootstrap")
         (Some json_payload) = None ∧
       w' = after_request w2 Methods.post (s +:+ "/" +:+ "api/v1/bootstrap")
              (Some json_payload)) ∧
  (∀ s w0 w1 json_payload w2,
     supplied server = Some s →
     ceremony_precheck server w = Returned () w0 →
     ceremony_steps w0 = Returned () w1 →
     ceremony_payload w1 = Returned json_payload w2 →
     server_reply Methods.post (s +:+ "/" +:+ "api/v1/bootstrap")
       (Some json_payload) = None →
     ceremony server w =
       Raised ConnectionError
         (after_request w2 Methods.post (s +:+ "/" +:+ "api/v1/bootstrap")
            (Some json_payload))) ∧
  (∀ e w',
     ceremony server w = Raised e w' →
     e = JSONDecodeError ∨ e = AttributeError ∨ e = TypeError →
     ∃ s response,
       supplied server = Some s ∧
       server_reply Methods.get (s +:+ "/" +:+ "api/v1/bootstrap/") None =
         Some response ∧
       status_code response = 200 ∧
       w' = after_request w Methods.get (s +:+ "/" +:+ "api/v1/bootstrap/")
              None ∧
       ((e = JSONDecodeError ∧ response_json response = None) ∨
        (e = AttributeError ∧ response_json response = Some JNotObject))) ∧
  (∀ name w',
     ceremony server w = Raised (Unhandled name) w' →
     ∃ filepath password,
       import_ed25519_privatekey_from_file filepath password =
         RaisesOther name) ∧
  (∀ w', ceremony server w ≠ OutOfFuel w').
Proof.
  split_and!.
  - intros message w' Hres.
    apply ceremony_raised in Hres
      as [Hpre|[(w0 & _ & Hsteps)|(w0 & w1 & json_payload & w2 & _ & _ & _ & Hsub)]].
    + pose proof (ceremony_precheck_cases server w) as Hc. rewrite Hpre in Hc.
      destruct Hc as (s & Hs & _ & Hc). cbn zeta in Hc.
      right; right. exists s. split; [done|].
      destruct (server_reply _ _ _) as [response|] eqn:Hreply.
      * case_bool_decide as Hst.
        { right; left. exists response. split; [done|]. split; [done|].
          congruence. }
        destruct (response_json response) as [[json_response|]|] eqn:Hjson;
          [|done..].
        destruct Hc as [Hboot [= ->]]. right; right; left.
        by exists response, json_response.
      * left. split; [done|]. congruence.
    + pose proof (ceremony_steps_settles w0) as Hc. rewrite Hsteps in Hc.
      destruct Hc as [[= ->]|[[= ->]|(? & ? & ? & _ & ?)]]; [by left|by right; left|done].
    + pose proof (ceremony_submit_cases server json_payload w2) as Hc.
      rewrite Hsub in Hc. destruct Hc as (s & Hs & _ & Hc). cbn zeta in Hc.
      right; right. exists s. split; [done|]. right; right; right.
      destruct (server_reply _ _ _) as [response|] eqn:Hreply; [|done].
      destruct Hc as [Hst [= ->]]. by exists json_payload, response.
  - intros w' Hres.
    apply ceremony_raised in Hres
      as [Hpre|[(w0 & _ & Hsteps)|(w0 & w1 & json_payload & w2 & H0 & H1 & H2 & Hsub)]].
    + pose proof (ceremony_precheck_cases server w) as Hc. rewrite Hpre in Hc.
      destruct Hc as (s & _ & _ & Hc). cbn zeta in Hc.
      destruct (server_reply _ _ _) as [response|]; [|done].
      case_bool_decide; [done|].
      destruct (response_json response) as [[json_response|]|]; try done.
      by destruct Hc.
    + pose proof (ceremony_steps_settles w0) as Hc. rewrite Hsteps in Hc.
      by destruct Hc as [?|[?|(? & ? & ? & _ & ?)]].
    + pose proof (ceremony_submit_cases server json_payload w2) as Hc.
      rewrite Hsub in Hc. destruct Hc as (s & Hs & -> & Hc). cbn zeta in Hc.
      exists s, w0, w1, json_payload, w2. split_and!; try done.
      destruct (server_reply _ _ _) as [response|]; [|done]. by destruct Hc.
  - intros s w0 w1 json_payload w2 Hs Hpre Hsteps Hpay Hreply.
    unfold ceremony, mbind, M_bind. rewrite Hpre, Hsteps, Hpay.
    unfold ceremony_submit. rewrite Hs.
    unfold _request_server, emit, raise, mbind, M_bind. by rewrite Hreply.
  - intros e w' Hres He.
    apply ceremony_raised in Hres
      as [Hpre|[(w0 & _ & Hsteps)|(w0 & w1 & json_payload & w2 & _ & _ & _ & Hsub)]].
    + pose proof (ceremony_precheck_cases server w) as Hc. rewrite Hpre in Hc.
      destruct Hc as (s & Hs & -> & Hc). cbn zeta in Hc.
      destruct (server_reply _ _ _) as [response|] eqn:Hreply.
      2:{ destruct He as [->|[->| ->]]; done. }
      exists s, response. split; [done|]. split; [done|].
      case_bool_decide as Hst.
      { destruct He as [->|[->| ->]]; done. }
      split; [done|]. split; [done|].
      destruct (response_json response) as [[json_response|]|].
      * destruct Hc as [_ ->]. destruct He as [?|[?|?]]; done.
      * by right.
      * by left.
    + pose proof (ceremony_steps_settles w0) as Hc. rewrite Hsteps in Hc.
      destruct Hc as [->|[->|(? & ? & ? & _ & ->)]];
        destruct He as [?|[?|?]]; done.
    + pose proof (ceremony_submit_cases server json_payload w2) as Hc.
      rewrite Hsub in Hc. destruct Hc as (s & _ & _ & Hc). cbn zeta in Hc.
      destruct (server_reply _ _ _) as [response|].
      * destruct Hc as [_ ->]. destruct He as [?|[?|?]]; done.
      * subst e. destruct He as [?|[?|?]]; done.
  - intros name w' Hres.
    apply ceremony_raised in Hres
      as [Hpre|[(w0 & _ & Hsteps)|(w0 & w1 & json_payload & w2 & _ & _ & _ & Hsub)]].
    + pose proof (ceremony_precheck_cases server w) as Hc. rewrite Hpre in Hc.
      destruct Hc as (s & _ & _ & Hc). cbn zeta in Hc.
      destruct (server_reply _ _ _) as [response|]; [|done].
      case_bool_decide; [done|].
      destruct (response_json response) as [[json_response|]|]; try done.
      by destruct Hc.
    + pose proof (ceremony_steps_settles w0) as Hc. rewrite Hsteps in Hc.
      destruct Hc as [?|[?|(filepath & password & name' & Hother & [= ->])]];
        [done..|].
      by exists filepath, password.
    + pose proof (ceremony_submit_cases server json_payload w2) as Hc.
      rewrite Hsub in Hc. destruct Hc as (s & _ & _ & Hc). cbn zeta in Hc.
      destruct (server_reply _ _ _) as [response|]; [|done]. by destruct Hc.
  - intros w' Hres. unfold ceremony, mbind, M_bind in Hres.
    pose proof (ceremony_precheck_cases server w) as Hpre.
    destruct (ceremony_precheck server w) as [[] w0| | |]; try done.
    pose proof (ceremony_steps_settles w0) as Hsteps.
    destruct (ceremony_steps w0) as [[] w1| | |]; try done.
    destruct (ceremony_payload_spec w1) as (json_roles & w2 & Hpay & _).
    rewrite Hpay in Hres.
    match type of Hres with ceremony_submit _ ?json_payload _ = _ =>
      pose proof (ceremony_submit_cases server json_payload w2) as Hsub
    end.
    by rewrite Hres in Hsub.
Qed.

(** X6.  With a server given, the status check lets the ceremony start
    exactly when the reply has status 200 and a body that is a JSON object
    whose ["bootstrap"] is not the boolean true: a missing member, [false]
    and a value that is not a boolean all let it start.  It has then sent
    the one request and done nothing else.  A 200 reply whose body is JSON
    but no object ends the check with [AttributeError], one whose body
    is not JSON with the decoding error; neither is a Click exception. *)
Theorem precheck_passes (server : option string) (s : string) (w : World) :
  supplied server = Some s →
  let url := s +:+ "/" +:+ "api/v1/bootstrap/" in
  ((∃ w', ceremony_precheck server w = Returned () w') ↔
   (∃ response json_response,
      server_reply Methods.get url None = Some response ∧
      status_code response = 200 ∧
      response_json response = Some (JObject json_response) ∧
      json_response !! "bootstrap" ≠ Some (JBool true))) ∧
  (∀ w', ceremony_precheck server w = Returned () w' →
         w' = after_request w Methods.get url None) ∧
  (∀ response,
     server_reply Methods.get url None = Some response →
     status_code response = 200 →
     response_json response = Some JNotObject →
     ceremony_precheck server w =
       Raised AttributeError (after_request w Methods.get url None)) ∧
  (∀ response,
     server_reply Methods.get url None = Some response →
     status_code response = 200 →
     response_json response = None →
     ceremony_precheck server w =
       Raised JSONDecodeError (after_request w Methods.get url None)).
Proof.
  intros Hs url. subst url. unfold ceremony_precheck. rewrite Hs.
  unfold except_ConnectionError, _request_server, emit, raise, pass, mbind,
    M_bind, mret, M_ret, after_request.
  destruct (server_reply _ _ _) as [response|]; cbn.
  2:{ split_and!; try done.
      split; [by intros [? ?]|by intros (? & ? & ? & _)]. }
  case_bool_decide as Hst; cbn.
  { split_and!; try done.
    - split; [by intros [? ?]|]. intros (? & ? & ? & ? & _). by simplify_eq.
    - intros ? [= <-] ?. done.
    - intros ? [= <-] ?. done. }
  destruct (response_json response) as [[json_response|]|] eqn:Hjson; cbn.
  - case_bool_decide as Hboot; cbn.
    + split_and!; try done.
      * split; [by intros [? ?]|].
        intros (? & ? & ? & ? & ? & ?). by simplify_eq.
      * intros ? [= <-] _ ?. congruence.
      * intros ? [= <-] _ ?. congruence.
    + split_and!.
      * split; [|by eexists]. intros _. by exists response, json_response.
      * by intros w' [= <-].
      * intros ? [= <-] _ ?. congruence.
      * intros ? [= <-] _ ?. congruence.
  - split_and!; try done.
    + split; [by intros [? ?]|].
      intros (? & ? & ? & ? & ? & _). by simplify_eq.
    + intros ? [= <-] _ ?. congruence.
  - split_and!; try done.
    + split; [by intros [? ?]|].
      intros (? & ? & ? & ? & ? & _). by simplify_eq.
    + intros ? [= <-] _ ?. congruence.
Qed.

Lemma Prompt_ask_log q (w : World) s w1 :
  Prompt_ask q w = Returned s w1 → log w1 = log w ++ [Asked q].
Proof.
  unfold Prompt_ask, ask, mbind, M_bind, mret, M_ret, refused.
  destruct (answers w) as [|[| |s'|] ans]; try done; by intros [= _ <-].
Qed.

Lemma click_prompt_log q (w : World) s w1 :
  click_prompt q w = Returned s w1 → log w1 = log w ++ [Asked q].
Proof.
  unfold click_prompt, ask, mbind, M_bind, mret, M_ret, refused.
  destruct (answers w) as [|[| |s'|] ans]; try done.
  destruct (Py.truthy s'); [|done]. by intros [= _ <-].
Qed.

Lemma Confirm_ask_default_y_answer q (w : World) b w1 :
  Confirm_ask_default_y q w = Returned b w1 →
  ∃ a, answers w = a :: answers w1 ∧ (a = Enter ∧ b = true ∨ a = YesNo b) ∧
       SETTINGS w1 = SETTINGS w ∧ log w1 = log w ++ [Asked q].
Proof.
  unfold Confirm_ask_default_y, ask, mbind, M_bind, mret, M_ret, refused.
  destruct (answers w) as [|[| |s'|b'] ans]; try done; intros [= <- <-];
    eexists; (split; [done|split; [|done]]); [by left|by right].
Qed.

(** The two questions of a turn, for the key numbered [kc] of [n]. *)
Definition key_questions (r : Roles) (kc n : Z) : list Event :=
  [Asked (AskKeyPath r kc n); Asked (AskKeyPassword r kc n)].

(** What has happened when an exception leaves the loop: the operator has
    just named a file and its password.  Either the import of that file
    raised what [_load_key] does not catch, and nothing came after the
    two questions; or it raised what [_load_key] catches, the error was
    shown, and the operator said no to the retry. *)
Lemma _configure_keys_loop_raised (r : Roles) :
  ∀ fuel kc (w : World) e w',
    _configure_keys_loop fuel r kc w = Raised e w' →
    ∃ typed a password filepath kc',
      path_answer a = Some filepath ∧ Py.truthy password = true ∧
      let n := num_of_keys (roles (SETTINGS w') r) in
      ((∃ name,
          e = Unhandled name ∧
          import_ed25519_privatekey_from_file filepath password =
            RaisesOther name ∧
          answers w = typed ++ a :: AString password :: answers w' ∧
          ∃ before, log w' = before ++ key_questions r kc' n) ∨
       (e = ClickException "Required key not validated." ∧
        import_caught filepath password ∧
        answers w = typed ++ a :: AString password :: YesNo false :: answers w' ∧
        ∃ before error,
          log w' = before ++ key_questions r kc' n ++
                     [Shown (MsgKeyError error); Asked AskTryAgain])).
Proof.
  induction fuel as [|fuel IH]; intros kc w e w'; [done|].
  cbn [_configure_keys_loop].
  unfold mbind, M_bind, the_role at 1.
  case_bool_decide as Hmiss; [|done].
  pose proof (asks_Prompt_ask
    (AskKeyPath r kc (num_of_keys (roles (SETTINGS w) r))) w) as H1.
  destruct (Prompt_ask _ w) as [filepath w1| | |] eqn:Hask1; try done.
  pose proof (Prompt_ask_log _ _ _ _ Hask1) as L1.
  apply Prompt_ask_returned in Hask1 as (a & Ha & Hpath & E1). clear H1.
  pose proof (asks_click_prompt
    (AskKeyPassword r kc (num_of_keys (roles (SETTINGS w) r))) w1) as H2.
  destruct (click_prompt _ w1) as [password w2| | |] eqn:Hask2; try done.
  pose proof (click_prompt_log _ _ _ _ Hask2) as L2.
  apply click_prompt_returned in Hask2 as (Hp & Hpw & E2). clear H2.
  assert (∀ w3 : World,
    (∃ typed a0 password0 filepath0 kc',
       path_answer a0 = Some filepath0 ∧ Py.truthy password0 = true ∧
       let n := num_of_keys (roles (SETTINGS w') r) in
       ((∃ name,
           e = Unhandled name ∧
           import_ed25519_privatekey_from_file filepath0 password0 =
             RaisesOther name ∧
           answers w3 = typed ++ a0 :: AString password0 :: answers w' ∧
           ∃ before, log w' = before ++ key_questions r kc' n) ∨
        (e = ClickException "Required key not validated." ∧
         import_caught filepath0 password0 ∧
         answers w3 =
           typed ++ a0 :: AString password0 :: YesNo false :: answers w' ∧
         ∃ before error,
           log w' = before ++ key_questions r kc' n ++
                      [Shown (MsgKeyError error); Asked AskTryAgain]))) →
    ∀ more, answers w = more ++ answers w3 →
    ∃ typed a0 password0 filepath0 kc',
       path_answer a0 = Some filepath0 ∧ Py.truthy password0 = true ∧
       let n := num_of_keys (roles (SETTINGS w') r) in
       ((∃ name,
           e = Unhandled name ∧
           import_ed25519_privatekey_from_file filepath0 password0 =
             RaisesOther name ∧
           answers w = typed ++ a0 :: AString password0 :: answers w' ∧
           ∃ before, log w' = before ++ key_questions r kc' n) ∨
        (e = ClickException "Required key not validated." ∧
         import_caught filepath0 password0 ∧
         answers w =
           typed ++ a0 :: AString password0 :: YesNo false :: answers w' ∧
         ∃ before error,
           log w' = before ++ key_questions r kc' n ++
                      [Shown (MsgKeyError error); Asked AskTryAgain])))
    as Hlater.
  { intros w3 (typed & a0 & password0 & filepath0 & kc' & Hpath0 & Hpw0 & Hcase)
      more Hmore.
    exists (more ++ typed), a0, password0, filepath0, kc'.
    split; [done|]. split; [done|]. cbv zeta in *.
    destruct Hcase as [(name & ? & ? & Hans & ?)|(? & ? & Hans & ?)];
      [left; exists name|right]; split_and!; try done;
      by rewrite Hmore, Hans, <-app_assoc. }
  destruct (_load_key_cases filepath password w2)
    as [(m & _ & ->)|[(k & err & Hcaught & -> & -> & Hk)|(name & Hother & ->)]].
  - cbn [error_of key_error key_key]. unfold the_settings.
    destruct (_key_is_duplicated (SETTINGS w2) m);
      unfold update_role, console_print, emit; cbn; intros Hres;
      apply IH in Hres; eapply (Hlater _ Hres [a; AString password]); cbn;
      by rewrite Ha, Hp.
  - unfold console_print, emit. cbn.
    match goal with |- context [Confirm_ask_default_y ?q ?w0] =>
      pose proof (asks_Confirm_ask_default_y q w0) as H3;
      destruct (Confirm_ask_default_y q w0) as [[] w3| | |] eqn:Hask3;
        try done
    end; clear H3;
      apply Confirm_ask_default_y_answer in Hask3 as (b & Hb & Hyes & E3 & L3);
      cbn in Hb, E3, L3.
    + intros Hres. apply IH in Hres.
      eapply (Hlater _ Hres [a; AString password; b]). cbn.
      by rewrite Ha, Hp, Hb.
    + intros [= <- <-]. destruct Hyes as [[_ ?]| ->]; [done|].
      exists [], a, password, filepath, kc.
      split; [done|]. split; [done|]. cbv zeta. right.
      split; [done|]. split; [done|]. split; [cbn; by rewrite Ha, Hp, Hb|].
      exists (log w), err. rewrite L3, L2, L1, E3, E2, E1.
      unfold key_questions. by rewrite <-!app_assoc.
  - intros [= <- <-].
    exists [], a, password, filepath, kc.
    split; [done|]. split; [done|]. cbv zeta. left. exists name.
    split; [done|]. split; [done|]. split; [cbn; by rewrite Ha, Hp|].
    exists (log w). rewrite L2, L1, E2, E1.
    unfold key_questions. by rewrite <-!app_assoc.
Qed.

(** X7.  A failed import in [_configure_keys].  At every turn of the
    loop, whatever the counter: an exception that [_load_key] does not
    catch leaves the loop at once, right after the two questions, with
    nothing shown, no retry offered and [SETTINGS] as it was; an exception
    that it catches is shown as a text that is not empty and tells
    [str(err)], with the hint to check the password for a [CryptoError],
    and an operator who takes the retry (with Enter or "yes") is asked for
    the same key again, under the same number and with [SETTINGS] as it
    was.  And of a whole call: whenever an exception leaves it the operator
    has just named a file and a password, and either the import of that
    file raised this very exception, one that [_load_key] does not catch,
    and the two questions are the last that happened; or the exception is
    ["Required key not validated."], the import raised what [_load_key]
    catches, and the last answer taken was "no" to the retry. *)
Theorem failed_import_is_retried_or_leaves (r : Roles) :
  (∀ fuel key_count (w : World) filepath password rest,
     keys_missing r (SETTINGS w) →
     answers w = AString filepath :: AString password :: rest →
     Py.truthy password = true →
     let n := num_of_keys (roles (SETTINGS w) r) in
     let asked := log w ++ key_questions r key_count n in
     let retried error a rest' :=
       rest = a :: rest' → a = Enter ∨ a = YesNo true →
       _configure_keys_loop (S fuel) r key_count w =
         _configure_keys_loop fuel r key_count
           (mkWorld (SETTINGS w) rest'
              (asked ++ [Shown (MsgKeyError error); Asked AskTryAgain])) in
     match import_ed25519_privatekey_from_file filepath password with
     | Imported _ => True
     | RaisesCryptoError err =>
         ∃ error, Py.truthy error = true ∧
           error = (":cross_mark: [red]Failed[/]: " +:+ err) +:+
                   " Check the password." ∧
           ∀ a rest', retried error a rest'
     | RaisesError err =>
         ∃ error, Py.truthy error = true ∧
           error = ":cross_mark: [red]Failed[/]: " +:+ err ∧
           ∀ a rest', retried error a rest'
     | RaisesOther name =>
         _configure_keys_loop (S fuel) r key_count w =
           Raised (Unhandled name) (mkWorld (SETTINGS w) rest asked)
     end) ∧
  (∀ (w : World) e w',
     _configure_keys r w = Raised e w' →
     ∃ typed a password filepath key_count,
       path_answer a = Some filepath ∧ Py.truthy password = true ∧
       let n := num_of_keys (roles (SETTINGS w') r) in
       ((∃ name,
           e = Unhandled name ∧
           import_ed25519_privatekey_from_file filepath password =
             RaisesOther name ∧
           answers w = typed ++ a :: AString password :: answers w' ∧
           ∃ before, log w' = before ++ key_questions r key_count n) ∨
        (e = ClickException "Required key not validated." ∧
         import_caught filepath password ∧
         answers w =
           typed ++ a :: AString password :: YesNo false :: answers w' ∧
         ∃ before error,
           log w' = before ++ key_questions r key_count n ++
                      [Shown (MsgKeyError error); Asked AskTryAgain]))).
Proof.
  split; [|intros w e w'; apply _configure_keys_loop_raised].
  intros fuel key_count w filepath password rest Hmiss Hans Hpw n asked retried.
  subst n asked retried. unfold key_questions.
  assert (∀ k : M unit,
    (if bool_decide (Z.of_nat (size (keys (roles (SETTINGS w) r))) <
                     num_of_keys (roles (SETTINGS w) r))
     then k else pass) = k) as Hturn
    by (intros k; by rewrite bool_decide_eq_true_2).
  destruct (import_ed25519_privatekey_from_file filepath password)
    as [m|err|err|name] eqn:Himport; [done|..].
  - eexists. split; [|split; [reflexivity|]]; [done|].
    intros a rest' -> Ha. cbn [_configure_keys_loop].
    unfold mbind, M_bind, the_role at 1. rewrite Hturn.
    unfold Prompt_ask, click_prompt, mbind, M_bind, ask. rewrite Hans. cbn.
    rewrite Hpw. cbn. unfold _load_key. rewrite Himport.
    unfold mret, M_ret. cbn [error_of key_error].
    match goal with |- context [Py.truthy ?e] =>
      change (Py.truthy e) with true
    end.
    unfold Confirm_ask_default_y, console_print, emit, ask, mbind, M_bind.
    destruct Ha as [-> | ->]; cbn; by rewrite <-!app_assoc.
  - eexists. split; [|split; [reflexivity|]]; [done|].
    intros a rest' -> Ha. cbn [_configure_keys_loop].
    unfold mbind, M_bind, the_role at 1. rewrite Hturn.
    unfold Prompt_ask, click_prompt, mbind, M_bind, ask. rewrite Hans. cbn.
    rewrite Hpw. cbn. unfold _load_key. rewrite Himport.
    unfold mret, M_ret. cbn [error_of key_error].
    match goal with |- context [Py.truthy ?e] =>
      change (Py.truthy e) with true
    end.
    unfold Confirm_ask_default_y, console_print, emit, ask, mbind, M_bind.
    destruct Ha as [-> | ->]; cbn; by rewrite <-!app_assoc.
  - cbn [_configure_keys_loop].
    unfold mbind, M_bind, the_role at 1. rewrite Hturn.
    unfold Prompt_ask, click_prompt, mbind, M_bind, ask. rewrite Hans. cbn.
    rewrite Hpw. cbn. unfold _load_key. rewrite Himport.
    cbn. by rewrite <-app_assoc.
Qed.

(** X8.  After a role was configured anew, however that ended, a key is
    flagged as a duplicate exactly when another role holds it: the keys
    the role held before can be loaded again. *)
Theorem reconfigured_role_frees_its_keys (r : Roles) (w : World)
    (k : KeyMaterial) :
  _key_is_duplicated (SETTINGS (world_of (_configure_role r w))) k = true ↔
  ∃ r' slot x, r' ≠ r ∧ keys (roles (SETTINGS w) r') !! slot = Some x ∧
               key x = Some k.
Proof.
  destruct (_configure_role_from_spec default_settings r w)
    as (new & _ & _ & Hkeys & _ & Hsame & _ & _).
  fold (_configure_role r) in Hkeys, Hsame.
  rewrite _key_is_duplicated_true. split.
  - intros (r' & slot & x & Hx & Hk). exists r', slot, x.
    destruct (decide (r' = r)) as [->|Hne].
    + by rewrite Hkeys, lookup_empty in Hx.
    + destruct (Hsame r' Hne) as (_ & _ & _ & <- & _). done.
  - intros (r' & slot & x & Hne & Hx & Hk). exists r', slot, x.
    destruct (Hsame r' Hne) as (_ & _ & _ & -> & _). done.
Qed.

(** X9.  A review that the operator accepts at once shows the summary,
    takes the one answer and leaves [SETTINGS] as it was. *)
Theorem accepted_review_changes_nothing (r : Roles) (w : World) rest :
  records_have_keys (SETTINGS w) →
  (r = TARGETS → paths (roles (SETTINGS w) r) ≠ None) →
  answers w = YesNo true :: rest →
  ∃ table,
    review r w =
      Returned ()
        (mkWorld (SETTINGS w) rest
           (log w ++ [Shown table; Asked (AskConfigurationCorrect r)])).
Proof.
  intros Hrec Hpaths Hans. unfold review. cbn [review_loop].
  unfold mbind at 1, M_bind at 1.
  destruct (show_role_table_shows r w Hrec Hpaths) as [table ->].
  exists table. unfold Confirm_ask, ask, mbind, M_bind. cbn. rewrite Hans.
  cbn. by rewrite <-app_assoc.
Qed.

(** The induction principle of the loop once more, for properties that
    need to know where an accepted key comes from: the import of the file
    at the path typed, with the password typed right after it, a non-empty
    text; [tape] is the list of answers the operator had ready at the
    start. *)
Lemma _configure_keys_loop_ind_import (r : Roles) (tape : list Answer)
    (Q : PayloadSettings → Z → Prop) :
  (∀ settings kc typed a password left filepath m,
      Q settings kc → keys_missing r settings →
      tape = typed ++ a :: AString password :: left →
      path_answer a = Some filepath →
      Py.truthy password = true →
      import_ed25519_privatekey_from_file filepath password = Imported m →
      _key_is_duplicated settings m = false →
      Q (store_key r (key_slot r kc)
           (mkKeyRecord (Py.last_item (Py.split "/" filepath)) password (Some m))
           settings) (kc + 1)) →
  ∀ fuel w kc, (∃ typed, tape = typed ++ answers w) → Q (SETTINGS w) kc →
    ∃ kc', Q (SETTINGS (world_of (_configure_keys_loop fuel r kc w))) kc'.
Proof.
  intros Hstep. induction fuel as [|fuel IH]; intros w kc [typed Htape] HQ;
    [by exists kc|].
  cbn [_configure_keys_loop].
  unfold mbind, M_bind, the_role at 1.
  case_bool_decide as Hmiss; [|by exists kc].
  pose proof (asks_Prompt_ask
    (AskKeyPath r kc (num_of_keys (roles (SETTINGS w) r))) w) as H1.
  destruct (Prompt_ask _ w) as [filepath w1| | |] eqn:Hask1; try done.
  2:{ exists kc. simpl. by rewrite H1. }
  apply Prompt_ask_returned in Hask1 as (a & Ha & Hpath & E1). clear H1.
  pose proof (asks_click_prompt
    (AskKeyPassword r kc (num_of_keys (roles (SETTINGS w) r))) w1) as H2.
  destruct (click_prompt _ w1) as [password w2| | |] eqn:Hask2; try done.
  2:{ exists kc. simpl. by rewrite H2, E1. }
  apply click_prompt_returned in Hask2 as (Hp & Hpw & E2). clear H2.
  assert (tape = typed ++ a :: AString password :: answers w2) as Htyped
    by (by rewrite Htape, Ha, Hp).
  assert (∃ typed', tape = typed' ++ answers w2) as Htape2.
  { exists (typed ++ [a; AString password]). by rewrite <-app_assoc. }
  destruct (_load_key_cases filepath password w2)
    as [(m & Him & ->)|[(k & e & _ & -> & -> & Hk)|(name & _ & ->)]].
  - cbn [error_of key_error key_key]. unfold the_settings.
    destruct (_key_is_duplicated (SETTINGS w2) m) eqn:Hdup.
    + unfold console_print, emit. cbn. apply IH; simpl; [done|].
      by rewrite E2, E1.
    + unfold update_role, console_print, emit. cbn.
      apply IH; simpl; [done|]. rewrite E2, E1.
      eapply Hstep; try done. by rewrite <-E1, <-E2.
  - unfold console_print, emit. cbn.
    match goal with |- context [Confirm_ask_default_y ?q ?w0] =>
      pose proof (asks_Confirm_ask_default_y q w0) as H3;
      destruct (Confirm_ask_default_y q w0) as [[] w3| | |] eqn:Hask3;
        try done
    end; simpl in H3.
    + apply Confirm_ask_default_y_returned in Hask3 as (b & Hb & _ & E3).
      cbn in Hb, E3. apply IH; [|by rewrite E3, E2, E1].
      destruct Htape2 as [typed' Htape2]. exists (typed' ++ [b]).
      by rewrite <-app_assoc, Htape2, Hb.
    + exists kc. simpl. destruct H3 as [-> _]. by rewrite E2, E1.
    + exists kc. simpl. by rewrite H3, E2, E1.
  - exists kc. simpl. by rewrite E2, E1.
Qed.

(** X10.  However key collection for a role without keys ends, every
    record it has stored so far was made from two answers that the
    operator gave one after the other, a path and a password: the record
    holds the key that the import returned for that path and that
    password, next to the last component of the path and the password
    itself.  And the slots in use are exactly the first ones, [role_1],
    [role_2], ... in order, as many as there are records. *)
Theorem stored_records_were_imported (r : Roles) (w : World) :
  keys (roles (SETTINGS w) r) = ∅ →
  let ks := keys (roles (SETTINGS (world_of (_configure_keys r w))) r) in
  (∀ slot x, ks !! slot = Some x →
     ∃ typed a password left filepath m,
       answers w = typed ++ a :: AString password :: left ∧
       path_answer a = Some filepath ∧
       Py.truthy password = true ∧
       import_ed25519_privatekey_from_file filepath password = Imported m ∧
       x = mkKeyRecord (Py.last_item (Py.split "/" filepath)) password (Some m)) ∧
  (∀ slot, is_Some (ks !! slot) ↔
           ∃ j, 1 ≤ j ≤ Z.of_nat (size ks) ∧ slot = key_slot r j).
Proof.
  intros Hempty ks.
  pose proof (_configure_keys_loop_ind_import r (answers w)
    (λ s kc,
       Z.of_nat (size (keys (roles s r))) + 1 = kc ∧
       (∀ slot, is_Some (keys (roles s r) !! slot) ↔
                ∃ j, 1 ≤ j < kc ∧ slot = key_slot r j) ∧
       (∀ slot x, keys (roles s r) !! slot = Some x →
          ∃ typed a password left filepath m,
            answers w = typed ++ a :: AString password :: left ∧
            path_answer a = Some filepath ∧
            Py.truthy password = true ∧
            import_ed25519_privatekey_from_file filepath password = Imported m ∧
            x = mkKeyRecord (Py.last_item (Py.split "/" filepath)) password
                  (Some m)))) as Hloop.
  destruct (Hloop) with (fuel := S (length (answers w))) (w := w) (kc := 1)
    as (kc & Hkc & Hslots & Hrec).
  - clear Hloop.
    intros s kc typed a password left filepath m (Hkc & Hslots & Hrec) _
      Htyped Hpath Hpw Him _.
    rewrite keys_store_key.
    assert (keys (roles s r) !! key_slot r kc = None) as Hfresh.
    { apply eq_None_not_Some. intros Hs. apply Hslots in Hs as (j & Hj & Heq).
      apply key_slot_inj in Heq. lia. }
    rewrite map_size_insert_None by done. split; [lia|]. split.
    + intros slot. rewrite lookup_insert_is_Some, Hslots. split.
      * intros [<-|[_ (j & Hj & ->)]]; [exists kc|exists j]; split; (lia || done).
      * intros (j & Hj & ->). destruct (decide (j = kc)) as [->|Hne]; [by left|].
        right. split; [by intros ?%key_slot_inj|]. exists j. split; [lia|done].
    + intros slot x [[_ <-]|[_ Hx]]%lookup_insert_Some; [|by eapply Hrec].
      by exists typed, a, password, left, filepath, m.
  - by exists [].
  - rewrite Hempty, map_size_empty. split; [done|]. split.
    + intros slot. rewrite lookup_empty. split; [by intros [? ?]|].
      intros (j & ? & _). lia.
    + intros slot x Hx. by rewrite lookup_empty in Hx.
  - fold (_configure_keys r w) in Hkc, Hslots, Hrec. fold ks in Hkc, Hslots, Hrec.
    split; [done|]. intros slot. rewrite Hslots. split.
    + intros (j & Hj & ->). exists j. split; [lia|done].
    + intros (j & Hj & ->). exists j. split; [lia|done].
Qed.

(** X11.  An operator who answers no to the first question ends the
    ceremony with ["Ceremony aborted."] and [SETTINGS] untouched.  And
    whenever the operator's part ends with that exception, either
    [SETTINGS] is untouched or every role is configured and holds no key:
    no key is loaded before the operator has agreed twice. *)
Theorem aborted_before_any_key (w : World) :
  (∀ rest, answers w = YesNo false :: rest →
     ∃ w', ceremony_steps w = Raised (ClickException "Ceremony aborted.") w' ∧
           SETTINGS w' = SETTINGS w ∧ answers w' = rest) ∧
  (∀ w', ceremony_steps w = Raised (ClickException "Ceremony aborted.") w' →
     SETTINGS w' = SETTINGS w ∨
     ∀ r, keys (roles (SETTINGS w') r) = ∅ ∧ configured r (SETTINGS w')).
Proof.
  split.
  - intros rest Hans.
    unfold ceremony_steps, mbind, M_bind, console_print, emit, Confirm_ask, ask,
      raise, mret, M_ret.
    cbn. rewrite Hans. cbn. by eexists.
  - intros w'. unfold ceremony_steps, mbind, M_bind, console_print, emit.
    match goal with |- context [Confirm_ask ?q ?w0] =>
      pose proof (asks_Confirm_ask q w0) as Hask;
      destruct (Confirm_ask q w0) as [[] w1| | |]; try done
    end; cbn [negb].
    2:{ intros [= <-]. left. by destruct Hask as [-> _]. }
    match goal with |- context [for_each all_roles _configure_role ?w0] =>
      pose proof (configure_all_roles w0) as Hconf;
      destruct (for_each all_roles _configure_role w0) as [u w2| | |]; try done
    end.
    match goal with |- context [Confirm_ask ?q ?w0] =>
      pose proof (asks_Confirm_ask q w0) as Hask2;
      destruct (Confirm_ask q w0) as [[] w3| | |]; try done
    end; cbn [negb].
    2:{ intros [= <-]. right. simpl in Hask2. destruct Hask2 as [-> _]. done. }
    simpl in Hask2. destruct Hask2 as [Hs3 _].
    pose proof (collect_all_keys w3) as Hkeys. rewrite Hs3 in Hkeys.
    specialize (Hkeys Hconf).
    destruct (for_each all_roles _configure_keys w3) as [u' w4| | |];
      try done;
      [|intros [= -> _]; by destruct Hkeys as [?|(? & ? & ? & _ & ?)]].
    destruct Hkeys as [Hsound Hall].
    match goal with |- context [for_each all_roles review ?w0] =>
      pose proof (review_all_roles w0 Hsound Hall) as Hrev;
      destruct (for_each all_roles review w0) as [u'' w5| | |]; try done
    end.
    intros [= -> _]. by destruct Hrev as [?|(? & ? & ? & _ & ?)].
Qed.

Ltac next_role w' H :=
  match goal with
  | |- context [payload_add_role ?r [("service", ?s0); ("roles", PDict ?jr)] ?w0] =>
      destruct (payload_add_role_next r s0 jr w0) as (w' & -> & _ & _ & _ & H)
  end.

(** X12.  The payload, entry by entry: the service settings, the six
    roles in the order of their declaration, each with its settings as
    serialised after the keys of an offline role were cleared, and the
    metadata that the initializer made of the roles as they were before
    that clearing.  Building it asks nothing and sends nothing; it clears
    the keys of the offline roles in [SETTINGS] itself and leaves the
    other roles and the service settings alone. *)
Theorem payload_entries (w : World) :
  let entry r :=
    (value r, RolesKeysInput_to_dict (scrub_offline (roles (SETTINGS w) r))) in
  ∃ w',
    ceremony_payload w =
      Returned
        (PDict
           [("settings",
             PDict [("service",
                     PDict [("targets_base_url",
                             PStr (targets_base_url (service (SETTINGS w))))]);
                    ("roles", PDict (entry <$> all_roles))]);
            ("metadata", PDict (initialize_metadata (roles (SETTINGS w))))])
        w' ∧
    answers w' = answers w ∧ log w' = log w ∧
    service (SETTINGS w') = service (SETTINGS w) ∧
    ∀ r, roles (SETTINGS w') r = scrub_offline (roles (SETTINGS w) r).
Proof.
  cbv zeta.
  destruct (ceremony_payload_spec w)
    as (json_roles & w' & Hp & Ha & Hl & Hs & Hr & _).
  exists w'. split; [|done]. rewrite Hp.
  enough (∃ w6,
    ceremony_payload w =
      Returned
        (PDict
           [("settings",
             PDict [("service", ServiceSettings_to_dict (service (SETTINGS w)));
                    ("roles",
                     PDict ((λ r, (value r,
                                   RolesKeysInput_to_dict
                                     (scrub_offline (roles (SETTINGS w) r))))
                            <$> all_roles))]);
            ("metadata", PDict (initialize_metadata (roles (SETTINGS w))))])
        w6) as [w6 Hc].
  { rewrite Hp in Hc. by injection Hc as -> ->. }
  clear. unfold ceremony_payload, the_settings, all_roles, mbind, M_bind,
    mret, M_ret.
  set (s := ServiceSettings_to_dict (service (SETTINGS w))).
  rewrite payload_add_roles_cons.
  destruct (payload_add_role_first ROOT s w) as (w1 & -> & _ & _ & _ & H1).
  rewrite payload_add_roles_cons.
  next_role w2 H2.
  rewrite payload_add_roles_cons.
  next_role w3 H3.
  rewrite payload_add_roles_cons.
  next_role w4 H4.
  rewrite payload_add_roles_cons.
  next_role w5 H5.
  rewrite payload_add_roles_cons.
  next_role w6 H6.
  cbn [payload_add_roles]. unfold mret, M_ret.
  rewrite (H5 BINS), (H4 BINS), (H3 BINS), (H2 BINS), (H1 BINS).
  rewrite (H4 BIN), (H3 BIN), (H2 BIN), (H1 BIN).
  rewrite (H3 TIMESTAMP), (H2 TIMESTAMP), (H1 TIMESTAMP).
  rewrite (H2 SNAPSHOT), (H1 SNAPSHOT). rewrite (H1 TARGETS).
  exists w6. reflexivity.
Qed.

(** *** The texts: paths and URLs *)

(** [sep.join(l)] *)
Fixpoint join (sep : ascii) (l : list string) : string :=
  match l with
  | [] => ""
  | [x] => x
  | x :: l' => x +:+ String sep (join sep l')
  end.

(** [c in s] *)
Fixpoint contains (c : ascii) (s : string) : bool :=
  match s with
  | EmptyString => false
  | String c' s' => Ascii.eqb c' c || contains c s'
  end.

Lemma split_nonempty sep s : Py.split sep s ≠ [].
Proof.
  destruct s as [|c s]; simpl; [done|].
  destruct (Ascii.eqb c sep); [done|]. by destruct (Py.split sep s).
Qed.

Lemma join_split sep s : join sep (Py.split sep s) = s.
Proof.
  induction s as [|c s IH]; simpl; [done|].
  pose proof (split_nonempty sep s) as Hne.
  destruct (Ascii.eqb c sep) eqn:Hc.
  - apply Ascii.eqb_eq in Hc as ->.
    destruct (Py.split sep s) as [|x xs]; [done|].
    cbn [join]. cbn [join] in IH. by rewrite IH.
  - destruct (Py.split sep s) as [|x xs]; [done|].
    destruct xs as [|y ys]; simpl in *; [by rewrite IH|].
    unfold String.app in *. simpl. by rewrite IH.
Qed.

Lemma split_pieces sep s p : p ∈ Py.split sep s → contains sep p = false.
Proof.
  revert p. induction s as [|c s IH]; simpl; intros p Hp.
  - by apply list_elem_of_singleton in Hp as ->.
  - destruct (Ascii.eqb c sep) eqn:Hc.
    + apply elem_of_cons in Hp as [->|Hp]; [done|by apply IH].
    + destruct (Py.split sep s) as [|x xs] eqn:Hsplit;
        [by apply split_nonempty in Hsplit|].
      apply elem_of_cons in Hp as [->|Hp].
      * simpl. rewrite Hc. apply IH, list_elem_of_here.
      * by apply IH, list_elem_of_further.
Qed.

Lemma string_app_assoc (s1 s2 s3 : string) :
  (s1 +:+ s2) +:+ s3 = s1 +:+ (s2 +:+ s3).
Proof.
  unfold String.app. induction s1 as [|c s1 IH]; simpl; [done|by rewrite IH].
Qed.

Lemma join_last sep (l : list string) :
  l ≠ [] →
  ∃ dir, join sep l = dir +:+ List.last l "" ∧
         (dir = "" ∨ Py.endswith dir (String sep "") = true).
Proof.
  induction l as [|x l IH]; [done|]. intros _.
  destruct l as [|y l].
  - exists "". split; [done|by left].
  - destruct IH as (dir & Hjoin & Hdir); [done|].
    exists (x +:+ String sep dir). split.
    + change (join sep (x :: y :: l)) with (x +:+ String sep (join sep (y :: l))).
      rewrite Hjoin. change (List.last (x :: y :: l) "") with (List.last (y :: l) "").
      rewrite (string_app_assoc x (String sep dir)). done.
    + right. destruct Hdir as [->|Hdir].
      * apply (endswith_app x (String sep "")).
      * clear -Hdir. unfold String.app.
        induction x as [|c x IHx]; simpl.
        -- rewrite Hdir. apply orb_true_r.
        -- rewrite IHx. apply orb_true_r.
Qed.

(** X13.  Cutting a text at a separator and joining the pieces with it
    gives the text back; there is always a piece and no piece holds the
    separator.  So the file name stored with a key (line 303) holds no
    slash, and the path typed is that name after an empty prefix or a
    prefix that ends with a slash. *)
Theorem stored_filename_is_last_component (sep : ascii) (s filepath : string) :
  join sep (Py.split sep s) = s ∧
  Py.split sep s ≠ [] ∧
  (∀ p, p ∈ Py.split sep s → contains sep p = false) ∧
  let filename := Py.last_item (Py.split "/" filepath) in
  contains "/" filename = false ∧
  ∃ dir, filepath = dir +:+ filename ∧
         (dir = "" ∨ Py.endswith dir "/" = true).
Proof.
  split; [apply join_split|]. split; [apply split_nonempty|].
  split; [apply split_pieces|]. cbv zeta. split.
  - apply (split_pieces "/" filepath). unfold Py.last_item.
    pose proof (split_nonempty "/" filepath) as Hne.
    destruct (exists_last Hne) as (l & p & ->). rewrite last_last.
    apply elem_of_app. right. apply list_elem_of_here.
  - destruct (join_last "/" (Py.split "/" filepath) (split_nonempty _ _))
      as (dir & Hjoin & Hdir).
    rewrite join_split in Hjoin. by exists dir.
Qed.

Lemma endswith_inv (s suffix : string) :
  Py.endswith s suffix = true → ∃ prefix, s = prefix +:+ suffix.
Proof.
  induction s as [|c s IH]; cbn [Py.endswith].
  - rewrite orb_false_r. intros Heq%String.eqb_eq. subst. by exists "".
  - intros [Heq|Hend]%orb_true_iff.
    + apply String.eqb_eq in Heq as <-. by exists "".
    + destruct (IH Hend) as [prefix ->]. by exists (String c prefix).
Qed.

(** X14.  [endswith] holds exactly of the texts that are some prefix
    followed by the suffix.  So the base URL as stored (lines 254-255) is
    a fixed point of the normalisation: normalising twice adds no second
    slash, a URL that ends with a slash is kept, and any other grows by
    exactly that one character. *)
Theorem trailing_slash_is_added_once (url s suffix : string) :
  (Py.endswith s suffix = true ↔ ∃ prefix, s = prefix +:+ suffix) ∧
  with_trailing_slash (with_trailing_slash url) = with_trailing_slash url ∧
  (with_trailing_slash url = url ∨
   (Py.endswith url "/" = false ∧ with_trailing_slash url = url +:+ "/")).
Proof.
  split_and!.
  - split; [apply endswith_inv|]. intros [prefix ->]. apply endswith_app.
  - unfold with_trailing_slash at 1. by rewrite with_trailing_slash_ends.
  - unfold with_trailing_slash. destruct (Py.endswith url "/"); [by left|by right].
Qed.

(** The number of entries of [v] when it is a dictionary. *)
Definition entries (v : option pyval) : option nat :=
  match v with Some (PDict d) => Some (length d) | _ => None end.

(** X15.  The payload built after the operator's part has returned is
    complete: for every role it gives the number of keys and the
    threshold, the threshold being 1 when there is at most one key, the
    default [offline_keys] of the role, and under ["keys"] no record for
    an offline role and exactly as many records as the number of keys
    says for an online one; and the base URL it gives ends with a slash. *)
Theorem payload_after_steps_is_complete (w w1 w2 : World) json_payload :
  ceremony_steps w = Returned () w1 →
  ceremony_payload w1 = Returned json_payload w2 →
  (∃ url, under "targets_base_url"
            (under "service" (item "settings" json_payload)) = Some (PStr url) ∧
          Py.endswith url "/" = true) ∧
  ∀ r, ∃ d n t,
    payload_role json_payload r = Some d ∧
    item "num_of_keys" d = Some (PInt n) ∧
    item "threshold" d = Some (PInt t) ∧
    (n ≤ 1 → t = 1) ∧
    item "offline_keys" d = Some (PBool (rs_offline_keys (default_settings r))) ∧
    entries (item "keys" d) =
      Some (if rs_offline_keys (default_settings r) then 0%nat
            else Z.to_nat (Z.max 0 n)).
Proof.
  intros Hsteps Hpay.
  pose proof (ceremony_steps_settles w) as Hset.
  rewrite Hsteps in Hset. destruct Hset as (_ & _ & Hset).
  destruct (ceremony_payload_spec w1)
    as (json_roles & w2' & Hp & _ & _ & _ & _ & Hget).
  rewrite Hp in Hpay. injection Hpay as <- <-. split.
  - eexists. split; [reflexivity|].
    destruct (Hset TARGETS) as [(_ & _ & Hurl) _]. by apply Hurl.
  - intros r. destruct (Hset r) as [(Ht & Ho & _) Hsize].
    exists (RolesKeysInput_to_dict (scrub_offline (roles (SETTINGS w1) r))),
      (num_of_keys (roles (SETTINGS w1) r)), (threshold (roles (SETTINGS w1) r)).
    split; [cbn; apply Hget|].
    rewrite item_keys. unfold scrub_offline. rewrite Ho.
    destruct (rs_offline_keys (default_settings r)) eqn:Hoff.
    + split_and!; try done. cbn. by rewrite Ho.
    + split_and!; try done; [cbn; by rewrite Ho|].
      unfold keys_to_dict, entries.
      rewrite length_fmap, length_map_to_list. f_equal. lia.
Qed.

End Ceremony.


Arguments Returned {KeyMaterial A}.
Arguments Raised {KeyMaterial A}.
Arguments AwaitingInput {KeyMaterial A}.
Arguments OutOfFuel {KeyMaterial A}.

(** ** A ceremony, run *)

Module Session.

(** Keys are told apart by a name here; the key files open with one
    password, and one file is no key file but a picture. *)
Definition import_key (filepath password : string) : @ImportResult string :=
  if String.eqb filepath "keys/logo.png" then RaisesOther "UnicodeDecodeError"
  else if String.eqb password "hunter2" then Imported ("ed25519:" +:+ filepath)
  else RaisesCryptoError "Decryption failed.".

Definition no_metadata (_ : Roles → @RolesKeysInput string)
  : list (string * @pyval string) := [].

(** A server that is not bootstrapped yet and takes the payload. *)
Definition fresh_server (method : Methods.t) (url : string)
    (payload : option (@pyval string)) : option Response :=
  match method with
  | Methods.get =>
      Some (mkResponse 200 "{}"
              (Some (JObject {["bootstrap" := JBool false]})))
  | Methods.post => Some (mkResponse 201 "Created" None)
  end.

(** A server that was bootstrapped before. *)
Definition bootstrapped_server (method : Methods.t) (url : string)
    (payload : option (@pyval string)) : option Response :=
  Some (mkResponse 200 "{}"
          (Some (JObject
                   {["bootstrap" := JBool true;
                     "message" := JString "System already has a Metadata."]}))).

(** A server whose status reply is a JSON array. *)
Definition array_server (method : Methods.t) (url : string)
    (payload : option (@pyval string)) : option Response :=
  Some (mkResponse 200 "[]" (Some JNotObject)).

Definition start (answers : list Answer) : @World string :=
  mkWorld SETTINGS_initial answers [].

(** The operator gives root two keys and a threshold of five, takes the
    defaults elsewhere, loads the eight keys and accepts every summary. *)
Definition script : list Answer :=
  [YesNo true;
   Enter; AnInt 2; AnInt 5;
   Enter; Enter; Enter; Enter; AString "https://example.com/downloads"; Enter;
   Enter; Enter;
   Enter; Enter;
   Enter; Enter;
   Enter; Enter; Enter;
   YesNo true;
   AString "keys/root1.key"; AString "hunter2";
   AString "keys/root2.key"; AString "hunter2";
   AString "keys/targets1.key"; AString "hunter2";
   AString "keys/targets2.key"; AString "hunter2";
   AString "keys/snapshot.key"; AString "hunter2";
   AString "keys/timestamp.key"; AString "hunter2";
   AString "keys/bin.key"; AString "hunter2";
   AString "keys/bins.key"; AString "hunter2";
   YesNo true; YesNo true; YesNo true; YesNo true; YesNo true; YesNo true].

Definition run_steps : Result () :=
  ceremony_steps import_key (start script).

Definition run_ceremony : Result () :=
  ceremony import_key no_metadata fresh_server (Some "https://tuf.example.org")
    (start script).

(** Root was given a number of keys of -1. *)
Definition minus_one : @World string :=
  world_of (_configure_role ROOT (start [Enter; AnInt (-1)])).

(** Root is about to load its one key. *)
Definition one_key : @World string :=
  start [AString "keys/root1.key"; AString "hunter2"].

(** Root has two keys to load and holds the first; for the second the
    operator gives a wrong password and does not try again. *)
Definition second_key : @World string :=
  mkWorld
    (SETTINGS (world_of (_configure_keys import_key ROOT
       (mkWorld
          (SETTINGS (world_of (_configure_role ROOT
                                 (start [Enter; AnInt 2; Enter]))))
          [AString "keys/root1.key"; AString "hunter2"] []))))
    [AString "keys/root2.key"; AString "sesame"; YesNo false] [].

(** Root is about to load its one key, and the operator names the
    picture. *)
Definition picture : @World string :=
  start [AString "keys/logo.png"; AString "hunter2"].

(** Root is given two keys and a threshold of five. *)
Definition two_of_five : @World string := start [Enter; AnInt 2; AnInt 5].

(** Targets is given a base URL without its slash. *)
Definition downloads : @World string :=
  start [Enter; Enter; Enter; Enter; AString "https://example.com/downloads";
         Enter].

(** The payload of the last submission in a log. *)
Definition posted (events : list (@Event string)) : option (@pyval string) :=
  last (omap (λ e, match e with
                   | Requested Methods.post _ payload => payload
                   | _ => None
                   end) events).

End Session.


Module Runs.
Import Session.

Definition final : @World string := world_of run_steps.

(** C3 as stated fails: after the whole of the operator's part, reviews
    included, root has two keys and a threshold of five. *)
Lemma threshold_out_of_range :
  returned run_steps = true ∧
  num_of_keys (roles (SETTINGS final) ROOT) > 1 ∧
  ¬ (1 ≤ threshold (roles (SETTINGS final) ROOT)
       ≤ num_of_keys (roles (SETTINGS final) ROOT)).
Proof.
  assert (returned run_steps = true) as Hret by (vm_compute; reflexivity).
  assert (num_of_keys (roles (SETTINGS final) ROOT) = 2) as ->
    by (vm_compute; reflexivity).
  assert (threshold (roles (SETTINGS final) ROOT) = 5) as ->
    by (vm_compute; reflexivity).
  split; [done|]. split; lia.
Qed.
(** C5 as stated fails: with a number of keys of -1 the collection returns
    at once, and the empty mapping holds neither -1 keys nor at most -1. *)
Lemma negative_number_of_keys_returns :
  returned (_configure_role ROOT (start [Enter; AnInt (-1)])) = true ∧
  keys (roles (SETTINGS minus_one) ROOT) = ∅ ∧
  returned (_configure_keys import_key ROOT minus_one) = true ∧
  Z.of_nat (size (keys (roles (SETTINGS (world_of
     (_configure_keys import_key ROOT minus_one))) ROOT))) ≠
    num_of_keys (roles (SETTINGS minus_one) ROOT) ∧
  ¬ (Z.of_nat (size (keys (roles (SETTINGS (world_of
       (_configure_keys import_key ROOT minus_one))) ROOT))) ≤
     num_of_keys (roles (SETTINGS minus_one) ROOT)).
Proof.
  assert (num_of_keys (roles (SETTINGS minus_one) ROOT) = -1) as ->
    by (vm_compute; reflexivity).
  assert (size (keys (roles (SETTINGS (world_of
            (_configure_keys import_key ROOT minus_one))) ROOT)) = 0%nat) as ->
    by (vm_compute; reflexivity).
  split_and!; [vm_compute; reflexivity|vm_compute; reflexivity
              |vm_compute; reflexivity|lia|lia].
Qed.

(** C4 as stated fails: the payload that is posted holds, in the record of
    the timestamp key, the password the operator typed for it. *)
Lemma password_is_posted :
  returned run_ceremony = true ∧
  offline_keys (roles (SETTINGS final) TIMESTAMP) = false ∧
  match posted (log (world_of run_ceremony)) with
  | Some json_payload =>
      under "password"
        (under "timestamp_1" (under "keys" (payload_role json_payload TIMESTAMP)))
      = Some (PStr "hunter2")
  | None => False
  end.
Proof. split_and!; vm_compute; reflexivity. Qed.

Lemma _configure_keys_collects_witness :
  keys (roles (SETTINGS one_key) ROOT) = ∅ ∧
  Z.of_nat (size (keys (roles (SETTINGS (world_of
     (_configure_keys import_key ROOT one_key))) ROOT))) ≤
    Z.max 0 (num_of_keys (roles (SETTINGS one_key) ROOT)) ∧
  distinct_keys (keys (roles (SETTINGS (world_of
     (_configure_keys import_key ROOT one_key))) ROOT)) ∧
  size (keys (roles (SETTINGS second_key) ROOT)) = 1%nat ∧
  keys_missing ROOT (SETTINGS second_key) ∧
  import_caught import_key "keys/root2.key" "sesame" ∧
  ∃ w', _configure_keys_loop import_key 1 ROOT 2 second_key =
          Raised (ClickException "Required key not validated.") w' ∧
        SETTINGS w' = SETTINGS second_key ∧ answers w' = [].
Proof.
  assert (keys_missing ROOT (SETTINGS second_key)) as Hmiss
    by (vm_compute; reflexivity).
  assert (import_caught import_key "keys/root2.key" "sesame") as Hcaught
    by (exists "Decryption failed."; left; reflexivity).
  split; [reflexivity|].
  pose proof (_configure_keys_collects import_key ROOT one_key eq_refl) as H.
  cbv zeta in H.
  split; [exact (proj1 H)|]. split; [exact (proj1 (proj2 H))|].
  split; [vm_compute; reflexivity|]. split; [exact Hmiss|].
  split; [exact Hcaught|].
  exact (proj1 (proj2 (proj2 (proj2 (proj2 H)))) 0%nat 2 second_key
           "keys/root2.key" "sesame" [] Hmiss eq_refl eq_refl Hcaught).
Defined.

Lemma threshold_is_the_answer_witness :
  _configure_role ROOT two_of_five =
    Returned () (world_of (_configure_role ROOT two_of_five)) ∧
  num_of_keys (roles (SETTINGS (world_of (_configure_role ROOT two_of_five)))
     ROOT) > 1 ∧
  ∃ a1 a2 a3 rest,
    answers two_of_five = a1 :: a2 :: a3 :: rest ∧
    int_answer 1 a3 =
      Some (threshold (roles (SETTINGS (world_of
              (_configure_role ROOT two_of_five))) ROOT)).
Proof.
  assert (_configure_role ROOT two_of_five =
            Returned () (world_of (_configure_role ROOT two_of_five))) as Hret
    by (apply returned_unit; vm_compute; reflexivity).
  assert (num_of_keys (roles (SETTINGS (world_of
            (_configure_role ROOT two_of_five))) ROOT) > 1) as Hn
    by (vm_compute; reflexivity).
  split; [exact Hret|]. split; [exact Hn|].
  destruct (threshold_is_the_answer ROOT two_of_five () _ Hret Hn)
    as (a1 & a2 & a3 & rest & Hans & Ha3 & _).
  by exists a1, a2, a3, rest.
Defined.

Lemma targets_base_url_ends_with_slash_witness :
  _configure_role TARGETS downloads =
    Returned () (world_of (_configure_role TARGETS downloads)) ∧
  Py.endswith
    (targets_base_url (service (SETTINGS (world_of
       (_configure_role TARGETS downloads))))) "/" = true ∧
  targets_base_url (service (SETTINGS (world_of
    (_configure_role TARGETS downloads)))) = "https://example.com/downloads/".
Proof.
  assert (_configure_role TARGETS downloads =
            Returned () (world_of (_configure_role TARGETS downloads))) as Hret
    by (apply returned_unit; vm_compute; reflexivity).
  split; [exact Hret|].
  split; [exact (proj1 (targets_base_url_ends_with_slash downloads () _ Hret))|].
  vm_compute; reflexivity.
Defined.

Lemma precheck_is_fatal_witness :
  supplied (Some "https://tuf.example.org") = Some "https://tuf.example.org" ∧
  ceremony import_key no_metadata bootstrapped_server
    (Some "https://tuf.example.org") (start script) =
  Raised (ClickException "System already has a Metadata.")
    (after_request (start script) Methods.get
       "https://tuf.example.org/api/v1/bootstrap/" None).
Proof.
  split; [reflexivity|].
  refine (proj1 (proj2 (proj2
    (precheck_is_fatal import_key no_metadata bootstrapped_server
       (Some "https://tuf.example.org") "https://tuf.example.org"
       (start script) eq_refl)) _ _ eq_refl eq_refl eq_refl _)).
  vm_compute; reflexivity.
Defined.

Lemma other_roles_untouched_witness :
  TARGETS ≠ ROOT ∧
  roles (SETTINGS (world_of (_configure_role ROOT two_of_five))) TARGETS =
    roles (SETTINGS two_of_five) TARGETS.
Proof.
  assert (TARGETS ≠ ROOT) as Hne by done. split; [exact Hne|].
  exact (proj1 (other_roles_untouched import_key ROOT TARGETS two_of_five Hne)).
Defined.

Lemma precheck_passes_witness :
  supplied (Some "https://tuf.example.org") = Some "https://tuf.example.org" ∧
  (∃ w', ceremony_precheck fresh_server (Some "https://tuf.example.org")
           (start script) = Returned () w') ∧
  ceremony_precheck array_server (Some "https://tuf.example.org")
    (start script) =
  Raised AttributeError
    (after_request (start script) Methods.get
       "https://tuf.example.org/api/v1/bootstrap/" None).
Proof.
  split; [reflexivity|]. split.
  - apply (proj1 (precheck_passes fresh_server (Some "https://tuf.example.org")
                    "https://tuf.example.org" (start script) eq_refl)).
    eexists _, _. split; [reflexivity|]. split; [reflexivity|].
    split; [reflexivity|]. vm_compute. discriminate.
  - exact (proj1 (proj2 (proj2
      (precheck_passes array_server (Some "https://tuf.example.org")
         "https://tuf.example.org" (start script) eq_refl)))
      _ eq_refl eq_refl eq_refl).
Defined.

Lemma accepted_review_changes_nothing_witness :
  records_have_keys (SETTINGS (start [YesNo true])) ∧
  answers (start [YesNo true]) = [YesNo true] ∧
  ∃ table,
    review import_key ROOT (start [YesNo true]) =
      Returned ()
        (mkWorld SETTINGS_initial []
           ([] ++ [Shown table; Asked (AskConfigurationCorrect ROOT)])).
Proof.
  assert (records_have_keys (SETTINGS (start [YesNo true]))) as Hrec.
  { intros r slot x Hx. exfalso. revert Hx. cbn. by rewrite lookup_empty. }
  split; [exact Hrec|]. split; [reflexivity|].
  apply (accepted_review_changes_nothing import_key ROOT (start [YesNo true]) []
           Hrec); [discriminate|reflexivity].
Defined.

Lemma stored_records_were_imported_witness :
  keys (roles (SETTINGS one_key) ROOT) = ∅ ∧
  keys (roles (SETTINGS (world_of (_configure_keys import_key ROOT one_key)))
          ROOT) !! "root_1" =
    Some (mkKeyRecord "root1.key" "hunter2" (Some "ed25519:keys/root1.key")) ∧
  ∃ typed a password left filepath m,
    answers one_key = typed ++ a :: AString password :: left ∧
    path_answer a = Some filepath ∧
    Py.truthy password = true ∧
    import_key filepath password = Imported m ∧
    mkKeyRecord "root1.key" "hunter2" (Some "ed25519:keys/root1.key") =
      mkKeyRecord (Py.last_item (Py.split "/" filepath)) password (Some m).
Proof.
  assert (keys (roles (SETTINGS (world_of
            (_configure_keys import_key ROOT one_key))) ROOT) !! "root_1" =
          Some (mkKeyRecord "root1.key" "hunter2"
                  (Some "ed25519:keys/root1.key"))) as Hstored
    by (vm_compute; reflexivity).
  split; [reflexivity|]. split; [exact Hstored|].
  exact (proj1 (stored_records_were_imported import_key ROOT one_key eq_refl)
           _ _ Hstored).
Defined.

Lemma failed_import_is_retried_or_leaves_witness :
  keys_missing ROOT (SETTINGS picture) ∧
  answers picture = [AString "keys/logo.png"; AString "hunter2"] ∧
  Py.truthy "hunter2" = true ∧
  _configure_keys_loop import_key 1 ROOT 1 picture =
    Raised (Unhandled "UnicodeDecodeError")
      (mkWorld SETTINGS_initial [] ([] ++ key_questions ROOT 1 1)).
Proof.
  assert (keys_missing ROOT (SETTINGS picture)) as Hmiss
    by (vm_compute; reflexivity).
  split; [exact Hmiss|]. split; [reflexivity|]. split; [reflexivity|].
  exact (proj1 (failed_import_is_retried_or_leaves import_key ROOT) 0%nat 1
           picture "keys/logo.png" "hunter2" [] Hmiss eq_refl eq_refl).
Defined.

Lemma payload_after_steps_is_complete_witness :
  ceremony_steps import_key (start script) =
    Returned () (world_of (ceremony_steps import_key (start script))) ∧
  ∃ json_payload w2 url,
    ceremony_payload no_metadata
      (world_of (ceremony_steps import_key (start script))) =
      Returned json_payload w2 ∧
    under "targets_base_url"
      (under "service" (item "settings" json_payload)) = Some (PStr url) ∧
    Py.endswith url "/" = true.
Proof.
  assert (returned (ceremony_steps import_key (start script)) = true) as Hret
    by (vm_compute; reflexivity).
  pose proof (returned_unit _ Hret) as Hsteps.
  split; [exact Hsteps|].
  destruct (ceremony_payload_spec no_metadata
              (world_of (ceremony_steps import_key (start script))))
    as (json_roles & w2 & Hp & _).
  destruct (proj1 (payload_after_steps_is_complete import_key no_metadata
                     (start script) _ w2 _ Hsteps Hp)) as (url & Hurl & Hend).
  eexists _, w2, url. split; [exact Hp|]. split; [exact Hurl|exact Hend].
Defined.

End Runs.
